(** * The CTA bus tracker client: cache, single-flight registry, retry loop
      and error mapping

    A shallow embedding of [src/lib/bus/ctaBusClient.ts] and of the error
    mapping of [src/lib/bus/errorMapping.ts], with the properties the
    specification states about them.

    Conventions of the embedding.
    - A JavaScript string is a [string]: a sequence of code units, here
      restricted to the 8-bit range.
    - A plain JavaScript object used as a record of parameters is an
      association list in insertion order, without repeated keys
      ([Object.entries] order; the prototype chain and the special
      enumeration order of array-index keys are not modelled).
    - The module-level [Map]s [responseCache] and [inFlightRequests] are
      [gmap]s held in an explicit [State]; a promise is a handle (a number)
      whose outcome is recorded once in the state when it settles.
    - [Date.now()] readings and the outcome of every network attempt are
      inputs chosen by the environment.
    - Numbers are integers ([Z]); times and durations are milliseconds. *)

From Stdlib Require Import ZArith String Ascii List Lia Permutation.
From stdpp Require Import base option list gmap strings sorting pretty.

Local Open Scope string_scope.
Local Open Scope Z_scope.

(** ** Strings *)

Module Str.

(** [s.length > 0] : the truthiness of a string. *)
Definition truthy (s : string) : bool :=
  match s with EmptyString => false | _ => true end.

(** Truthiness of an optional string ([undefined] and [""] are falsy). *)
Definition truthy_opt (o : option string) : bool :=
  match o with Some s => truthy s | None => false end.

Fixpoint prefixb (p s : string) : bool :=
  match p, s with
  | EmptyString, _ => true
  | String a p', String b s' => if decide (a = b) then prefixb p' s' else false
  | String _ _, EmptyString => false
  end.

(** [hay.includes(needle)] *)
Fixpoint includes (needle hay : string) : bool :=
  prefixb needle hay ||
  match hay with
  | EmptyString => false
  | String _ hay' => includes needle hay'
  end.

Definition is_upper (a : ascii) : bool :=
  let n := nat_of_ascii a in (65 <=? n)%nat && (n <=? 90)%nat.
Definition is_lower (a : ascii) : bool :=
  let n := nat_of_ascii a in (97 <=? n)%nat && (n <=? 122)%nat.
Definition is_digit (a : ascii) : bool :=
  let n := nat_of_ascii a in (48 <=? n)%nat && (n <=? 57)%nat.

(** Case folding of one code unit as an [/i] regular expression without the
    [u] flag does it: only the ASCII letters fold onto ASCII letters. *)
Definition fold_char (a : ascii) : ascii :=
  if is_lower a then ascii_of_nat (nat_of_ascii a - 32) else a.

Fixpoint fold_case (s : string) : string :=
  match s with
  | EmptyString => EmptyString
  | String a s' => String (fold_char a) (fold_case s')
  end.

(** [String.prototype.toUpperCase] on 8-bit code units: ASCII letters are
    raised, U+00DF becomes "SS"; the other code units have no upper-case
    form made of ASCII letters or digits and are left as they are. *)
Fixpoint toUpperCase (s : string) : string :=
  match s with
  | EmptyString => EmptyString
  | String a s' =>
      if decide (nat_of_ascii a = 223%nat)
      then String "S" (String "S" (toUpperCase s'))
      else String (fold_char a) (toUpperCase s')
  end.

(** [s.slice(0, n)] *)
Fixpoint take (n : nat) (s : string) : string :=
  match n, s with
  | S n', String a s' => String a (take n' s')
  | _, _ => EmptyString
  end.

(** [parts.join(sep)] *)
Fixpoint join (sep : string) (parts : list string) : string :=
  match parts with
  | [] => ""
  | [p] => p
  | p :: rest => p +:+ sep +:+ join sep rest
  end.

End Str.

(** ** Regular expressions of the two pattern tables

    Every pattern of the source is a literal, or an alternation of literals,
    with the [i] flag. *)

Inductive RegExp : Type :=
  | Lit (s : string)
  | Alt (r1 r2 : RegExp).

(** [re.test(s)] for a case-insensitive pattern. *)
Fixpoint regexp_test (re : RegExp) (s : string) : bool :=
  match re with
  | Lit p => Str.includes (Str.fold_case p) (Str.fold_case s)
  | Alt r1 r2 => regexp_test r1 s || regexp_test r2 s
  end.

(** ** Plain objects as insertion-ordered association lists *)

Module Obj.
Section Obj.
Context {V : Type}.

(** [o[k]] *)
Fixpoint get (k : string) (o : list (string * V)) : option V :=
  match o with
  | [] => None
  | (k', v) :: o' => if decide (k = k') then Some v else get k o'
  end.

(** [o[k] = v]: an existing key keeps its place, a new key goes last. *)
Fixpoint set (k : string) (v : V) (o : list (string * V)) : list (string * V) :=
  match o with
  | [] => [(k, v)]
  | (k', v') :: o' =>
      if decide (k = k') then (k, v) :: o' else (k', v') :: set k v o'
  end.

(** [Object.keys(o)] *)
Definition keys (o : list (string * V)) : list string := o.*1.

End Obj.
End Obj.

(** ** Request parameters and the cache key *)

(** A value of [Record<string, string | number | undefined>]; [null] is not
    in the declared type but [normalizeParams] guards against it. *)
Inductive ParamValue : Type :=
  | PStr (s : string)
  | PNum (n : Z)
  | PUndefined
  | PNull.

(** [value === undefined || value === null || value === ""] *)
Definition isBlank (v : ParamValue) : bool :=
  match v with
  | PUndefined | PNull => true
  | PStr s => negb (Str.truthy s)
  | PNum _ => false
  end.

(** [typeof value === "number" ? value.toString() : String(value)]. A number
    is an integer that [toString] prints in plain decimal notation, as the
    ids and counts passed by the handlers are; from [1e21] on JavaScript
    prints an exponent, and fractions are not modelled. *)
Definition stringOf (v : ParamValue) : string :=
  match v with
  | PStr s => s
  | PNum n => pretty n
  | PUndefined => "undefined"
  | PNull => "null"
  end.

Definition normalizeParams (params : list (string * ParamValue))
  : list (string * string) :=
  foldl (fun normalized kv =>
           if isBlank kv.2 then normalized
           else Obj.set kv.1 (stringOf kv.2) normalized)
        [] params.


(** ** Data model *)

(** An element of the upstream [error] array ([BusRawError]). *)
Record BusRawError : Type := mkRaw {
  raw_code : option string;
  raw_msg : option string
}.

(** [TPayload & { error?: BusRawError[]; tmst?: string }]: the shallow copy
    of the [bustime-response] object. [pl_error = None] stands for an
    [error] member that is absent or not an array; [pl_fields] holds the
    other members, which the client never inspects, as JSON text. *)
Record Payload : Type := mkPayload {
  pl_tmst : option string;
  pl_error : option (list BusRawError);
  pl_fields : list (string * string)
}.

Record BusClientMeta : Type := mkMeta {
  meta_endpoint : string;
  meta_params : list (string * string);
  meta_cacheKey : string;
  meta_cacheTtlMs : option Z;
  meta_cacheExpiresAt : option Z;
  meta_servedFromCache : bool;
  meta_sourceTimestamp : option string;
  meta_reason : option string
}.

Record BusApiClientResult : Type := mkResult {
  payload : Payload;
  meta : BusClientMeta
}.

Record CacheEntry : Type := mkEntry {
  value : BusApiClientResult;
  expiresAt : Z
}.

(** A thrown value that is not a [BusClientError]. *)
Record JsError : Type := mkJsError {
  js_name : string;
  js_message : string
}.

Record BusClientErrorOptions : Type := mkErrOptions {
  o_status : option Z;
  o_reason : option string;
  o_details : option string;
  o_endpoint : option string;
  o_params : option (list (string * string));
  o_rawErrors : option (list BusRawError);
  o_sourceTimestamp : option string;
  o_cacheKey : option string;
  o_cacheTtlMs : option Z;
  o_servedFromCache : option bool;
  o_cause : option JsError
}.

Definition noOptions : BusClientErrorOptions :=
  mkErrOptions None None None None None None None None None None None.

Record BusClientError : Type := mkBusClientError {
  err_code : string;
  err_message : string;
  err_status : Z;
  err_reason : option string;
  err_details : option string;
  err_endpoint : option string;
  err_params : option (list (string * string));
  err_rawErrors : option (list BusRawError);
  err_sourceTimestamp : option string;
  err_cacheKey : option string;
  err_cacheTtlMs : option Z;
  err_servedFromCache : option bool;
  err_cause : option JsError
}.

(** The constructor of the class: [this.status = options.status ?? 502]. *)
Definition newBusClientError (code message : string)
    (options : BusClientErrorOptions) : BusClientError :=
  {| err_code := code;
     err_message := message;
     err_status := default 502 (o_status options);
     err_reason := o_reason options;
     err_details := o_details options;
     err_endpoint := o_endpoint options;
     err_params := o_params options;
     err_rawErrors := o_rawErrors options;
     err_sourceTimestamp := o_sourceTimestamp options;
     err_cacheKey := o_cacheKey options;
     err_cacheTtlMs := o_cacheTtlMs options;
     err_servedFromCache := o_servedFromCache options;
     err_cause := o_cause options |}.

Record BusRequestOptions : Type := mkOptions {
  opt_endpoint : string;
  opt_params : option (list (string * ParamValue));
  opt_requiredParams : option (list string);
  opt_cacheKey : option string;
  opt_cacheTtlMs : option Z;
  opt_timeoutMs : option Z;
  opt_maxRetries : option Z
}.

(** The module constants read from the environment. *)
Record Config : Type := mkConfig {
  CTA_BUS_TRACKER_API_KEY : option string;
  CTA_BUS_RTPIDATAFEED : string
}.

Definition CTA_BUS_API_BASE_URL : string :=
  "https://www.ctabustracker.com/bustime/api/v3".
Definition DEFAULT_TIMEOUT_MS : Z := 7000.
Definition DEFAULT_MAX_RETRIES : Z := 2.

(** ** Soft errors *)

Record SoftPattern : Type := mkSoft {
  soft_test : RegExp;
  soft_reason : string
}.

Definition SOFT_ERROR_PATTERNS : list SoftPattern :=
  [ mkSoft (Lit "no data found") "No data found for parameters.";
    mkSoft (Lit "no service scheduled") "No service scheduled at this time.";
    mkSoft (Lit "no arrival times") "No arrival times available.";
    mkSoft (Lit "no predictions") "No predictions are currently available.";
    mkSoft (Lit "no buses were found") "No active vehicles found." ].

(** The inner loop of [classifySoftError]: the first pattern that matches. *)
Fixpoint firstSoftPattern (patterns : list SoftPattern) (msg : string)
  : option string :=
  match patterns with
  | [] => None
  | p :: rest =>
      if regexp_test (soft_test p) msg then Some (soft_reason p)
      else firstSoftPattern rest msg
  end.

Fixpoint classifySoftError (errors : list BusRawError) : option string :=
  match errors with
  | [] => None
  | err :: rest =>
      if Str.truthy_opt (raw_msg err) then
        match firstSoftPattern SOFT_ERROR_PATTERNS (default "" (raw_msg err)) with
        | Some reason => Some reason
        | None => classifySoftError rest
        end
      else classifySoftError rest
  end.

(** ** The retry loop *)

Record Response : Type := mkResponse {
  resp_status : Z;
  resp_json : JsError + option Payload
}.
(** [resp_json]: [inl err] when [response.json()] rejects with [err];
    [inr None] when the body has no object under ["bustime-response"];
    [inr (Some envelope)] otherwise. *)

(** [response.ok] *)
Definition resp_ok (r : Response) : bool :=
  (200 <=? resp_status r) && (resp_status r <=? 299).

(** How one [fetch] settles: with a response, or by throwing (the timer's
    abort, a network failure, anything else). *)
Inductive FetchSettled : Type :=
  | Resolved (r : Response)
  | Failed (e : JsError).

(** What the [catch] clause of the loop receives. *)
Inductive Caught : Type :=
  | CaughtClient (e : BusClientError)
  | CaughtError (e : JsError).

Inductive LoopStep : Type :=
  | Continue
  | Return (r : Response)
  | Throw (e : BusClientError).

(** The error the [try] block throws for a response that is not [ok]. *)
Definition httpError (status : Z) : BusClientError :=
  newBusClientError "CTA_BUS_HTTP_ERROR"
    ("CTA bus tracker returned " +:+ pretty status +:+ ".")
    (mkErrOptions (Some status) None None None None None None None None None
       None).

(** The error the [catch] clause throws for a failure it does not retry. *)
Definition requestFailed (cause : JsError) : BusClientError :=
  newBusClientError "CTA_BUS_REQUEST_FAILED"
    "Failed to reach the CTA Bus Tracker service."
    (mkErrOptions None None None None None None None None None None
       (Some cause)).

(** The [catch (error)] clause of one iteration. *)
Definition catchClause (attempt : nat) (maxRetries : Z) (error : Caught)
  : LoopStep :=
  let isAbort :=
    match error with
    | CaughtError e => bool_decide (js_name e = "AbortError")
    | CaughtClient _ => false
    end in
  let isNetwork :=
    match error with
    | CaughtError e =>
        bool_decide (js_name e = "FetchError") || Str.includes "network" (js_message e)
    | CaughtClient e => Str.includes "network" (err_message e)
    end in
  let isClient :=
    match error with CaughtClient _ => true | CaughtError _ => false end in
  let shouldRetry :=
    (Z.of_nat attempt <=? maxRetries) && (isAbort || isNetwork || isClient) in
  if negb shouldRetry then
    match error with
    | CaughtClient e => Throw e
    | CaughtError e =>
        Throw (requestFailed e)
    end
  else Continue.

(** One iteration of the [while (true)] body, once its [fetch] has settled;
    [attempt] is the counter after [attempt += 1]. The [throw] of the [try]
    block is inside the [try], so the [catch] clause receives it. *)
Definition iteration (attempt : nat) (maxRetries : Z) (s : FetchSettled)
  : LoopStep :=
  match s with
  | Resolved response =>
      if negb (resp_ok response) then
        let shouldRetry :=
          (Z.of_nat attempt <=? maxRetries) && (500 <=? resp_status response) in
        if shouldRetry then Continue
        else
          catchClause attempt maxRetries
            (CaughtClient (httpError (resp_status response)))
      else Return response
  | Failed e => catchClause attempt maxRetries (CaughtError e)
  end.

(** The loop against an upstream that settles attempt number [n] with
    [upstream n]; the result carries the number of attempts made. *)
Fixpoint fetchLoop (fuel : nat) (upstream : nat -> FetchSettled)
    (maxRetries : Z) (attempt : nat)
  : option (nat * (BusClientError + Response)) :=
  match fuel with
  | O => None
  | S fuel' =>
      let attempt := S attempt in
      match iteration attempt maxRetries (upstream attempt) with
      | Continue => fetchLoop fuel' upstream maxRetries attempt
      | Return r => Some (attempt, inr r)
      | Throw e => Some (attempt, inl e)
      end
  end.

Definition fetchWithRetry (upstream : nat -> FetchSettled) (maxRetries : Z)
  : option (nat * (BusClientError + Response)) :=
  fetchLoop (S (Z.to_nat maxRetries)) upstream maxRetries 0.

(** ** The client *)

Inductive Settlement : Type :=
  | Fulfilled (r : BusApiClientResult)
  | Rejected (e : BusClientError).

(** What a call of [callBusApi] hands back: an immediate rejection, an
    immediate result (cache hit), or the promise with the given handle. *)
Inductive CallReturn : Type :=
  | Threw (e : BusClientError)
  | Returned (r : BusApiClientResult)
  | Awaits (h : nat).

(** The values [callBusApi] computes before it looks at the cache. *)
Record Prepared : Type := mkPrepared {
  pr_endpoint : string;
  pr_normalizedParams : list (string * string);
  pr_cacheKey : string;
  pr_cacheTtlMs : Z;
  pr_timeoutMs : Z;
  pr_maxRetries : Z;
  pr_requestParams : list (string * string)
}.

(** The closure of one launched [requestPromise] while a [fetch] of it is
    outstanding. *)
Record Request : Type := mkRequest {
  rq_handle : nat;
  rq_prepared : Prepared;
  rq_url : string;
  rq_attempt : nat
}.

(** Observable actions, most recent first. *)
Inductive Effect : Type :=
  | Fetched (key url : string)
  | CacheSet (key : string) (entry : CacheEntry).

Record State : Type := mkState {
  responseCache : gmap string CacheEntry;
  inFlightRequests : gmap string nat;
  network : list Request;
  settled : gmap nat Settlement;
  nextHandle : nat;
  effects : list Effect
}.

Definition initialState : State := mkState ∅ ∅ [] ∅ 0%nat [].

Definition rq_key (rq : Request) : string := pr_cacheKey (rq_prepared rq).

Definition toCachedResult (entry : CacheEntry) : BusApiClientResult :=
  {| payload := payload (value entry);
     meta :=
       {| meta_endpoint := meta_endpoint (meta (value entry));
          meta_params := meta_params (meta (value entry));
          meta_cacheKey := meta_cacheKey (meta (value entry));
          meta_cacheTtlMs := meta_cacheTtlMs (meta (value entry));
          meta_cacheExpiresAt := meta_cacheExpiresAt (meta (value entry));
          meta_servedFromCache := true;
          meta_sourceTimestamp := meta_sourceTimestamp (meta (value entry));
          meta_reason := meta_reason (meta (value entry)) |} |}.

Definition ensureApiKey (cfg : Config) : option BusClientError :=
  if Str.truthy_opt (CTA_BUS_TRACKER_API_KEY cfg) then None
  else Some (newBusClientError "CTA_BUS_CONFIG_MISSING"
               "CTA bus tracker API key is not configured."
               (mkErrOptions (Some 500) None None None None None None None None
                  None None)).

(** The names every plain object inherits from [Object.prototype]. The
    lookup [params[key]] finds their values, functions or objects, when
    [params] has no entry of its own under [key]. *)
Definition OBJECT_PROTOTYPE_KEYS : list string :=
  ["constructor"; "__defineGetter__"; "__defineSetter__"; "hasOwnProperty";
   "__lookupGetter__"; "__lookupSetter__"; "isPrototypeOf";
   "propertyIsEnumerable"; "toString"; "valueOf"; "__proto__";
   "toLocaleString"].

(** [value === undefined || value === null || value === ""] for
    [value = params[key]]: an entry of the object itself decides; without
    one the value is inherited, and then neither undefined, null nor
    empty, or it is undefined. *)
Definition isMissing (params : list (string * ParamValue)) (key : string)
  : bool :=
  match Obj.get key params with
  | Some v => isBlank v
  | None => negb (bool_decide (key ∈ OBJECT_PROTOTYPE_KEYS))
  end.

(** The [for (const key of requiredKeys)] loop: the error of the first
    required key whose value is missing or blank. *)
Fixpoint checkRequired (endpoint : string) (params : list (string * ParamValue))
    (requiredKeys : list string) : option BusClientError :=
  match requiredKeys with
  | [] => None
  | key :: rest =>
      if isMissing params key
      then Some (newBusClientError "CTA_BUS_BAD_REQUEST"
                   ("Missing required parameter: " +:+ key)
                   (mkErrOptions (Some 400) None None (Some endpoint)
                      (Some (normalizeParams params)) None None None None None
                      None))
      else checkRequired endpoint params rest
  end.

Section Client.

(** Functions of the platform. *)
Variable encodeURIComponent : string -> string.
Variable urlSearchParamsToString : list (string * string) -> string.
Variable Date : Type.
Variable parseCtaDate : string -> option Date.
Variable toISOString : Date -> string.

Definition serializeParams (params : list (string * string)) : string :=
  Str.join "&"
    ((fun key => key +:+ "=" +:+ encodeURIComponent (default "undefined" (Obj.get key params)))
       <$> merge_sort String.le (Obj.keys params)).

Definition computeCacheKey (endpoint : string) (params : list (string * string))
    (suppliedCacheKey : option string) : string :=
  if Str.truthy_opt suppliedCacheKey then default "" suppliedCacheKey
  else
    let serialized := serializeParams params in
    if Str.truthy serialized then endpoint +:+ "?" +:+ serialized else endpoint.

Definition parseTimestampToIso (timestamp : option string) : option string :=
  if Str.truthy_opt timestamp then
    toISOString <$> parseCtaDate (default "" timestamp)
  else None.

(** The defaults [callBusApi] adds to the normalized parameters. *)
Definition withDefaults (cfg : Config) (normalized : list (string * string))
  : list (string * string) :=
  let p1 :=
    if negb (Str.truthy_opt (Obj.get "rtpidatafeed" normalized))
       && Str.truthy (CTA_BUS_RTPIDATAFEED cfg)
    then Obj.set "rtpidatafeed" (CTA_BUS_RTPIDATAFEED cfg) normalized
    else normalized in
  if negb (Str.truthy_opt (Obj.get "format" p1))
  then Obj.set "format" "json" p1
  else p1.

(** [callBusApi] up to the cache lookup: validation and derived values. *)
Definition prepare (cfg : Config) (options : BusRequestOptions)
  : BusClientError + Prepared :=
  match ensureApiKey cfg with
  | Some e => inl e
  | None =>
      let params := default [] (opt_params options) in
      let requiredKeys := default [] (opt_requiredParams options) in
      match checkRequired (opt_endpoint options) params requiredKeys with
      | Some e => inl e
      | None =>
          let normalizedParams := withDefaults cfg (normalizeParams params) in
          let cacheKey :=
            computeCacheKey (opt_endpoint options) normalizedParams
              (opt_cacheKey options) in
          inr {| pr_endpoint := opt_endpoint options;
                 pr_normalizedParams := normalizedParams;
                 pr_cacheKey := cacheKey;
                 pr_cacheTtlMs := default 0 (opt_cacheTtlMs options);
                 pr_timeoutMs := default DEFAULT_TIMEOUT_MS (opt_timeoutMs options);
                 pr_maxRetries := default DEFAULT_MAX_RETRIES (opt_maxRetries options);
                 pr_requestParams :=
                   Obj.set "format" "json"
                     (Obj.set "key" (default "" (CTA_BUS_TRACKER_API_KEY cfg))
                        normalizedParams) |}
      end
  end.

Definition requestUrl (p : Prepared) : string :=
  CTA_BUS_API_BASE_URL +:+ "/" +:+ pr_endpoint p +:+ "?"
    +:+ urlSearchParamsToString (pr_requestParams p).

(** The [if (cacheTtlMs > 0)] lookup at the head of [callBusApi]. *)
Definition cacheLookup (st : State) (p : Prepared) (now : Z)
  : option CacheEntry :=
  if 0 <? pr_cacheTtlMs p then
    match responseCache st !! pr_cacheKey p with
    | Some cached => if now <? expiresAt cached then Some cached else None
    | None => None
    end
  else None.

(** [callBusApi], up to the point where it returns its promise. [now] is the
    reading of [Date.now()] at the cache lookup. *)
Definition callBusApi (cfg : Config) (st : State) (options : BusRequestOptions)
    (now : Z) : State * CallReturn :=
  match prepare cfg options with
  | inl e => (st, Threw e)
  | inr p =>
      match cacheLookup st p now with
      | Some cached => (st, Returned (toCachedResult cached))
      | None =>
          match inFlightRequests st !! pr_cacheKey p with
          | Some h => (st, Awaits h)
          | None =>
              let h := nextHandle st in
              let url := requestUrl p in
              ({| responseCache := responseCache st;
                  inFlightRequests := <[pr_cacheKey p := h]> (inFlightRequests st);
                  network := mkRequest h p url 1 :: network st;
                  settled := settled st;
                  nextHandle := S h;
                  effects := Fetched (pr_cacheKey p) url :: effects st |},
               Awaits h)
          end
      end
  end.

(** The body of the request after [fetchWithRetry] has returned [response]:
    the outcome and the cache entry it stores, if it stores one. [now1] and
    [now2] are the two readings of [Date.now()]. *)
Definition processResponse (p : Prepared) (response : Response) (now1 now2 : Z)
  : Settlement * option CacheEntry :=
  match resp_json response with
  | inl err =>
      (Rejected (newBusClientError "CTA_BUS_INVALID_RESPONSE"
                   "CTA bus tracker returned invalid JSON."
                   (mkErrOptions None None None (Some (pr_endpoint p))
                      (Some (pr_normalizedParams p)) None None None None None
                      (Some err))),
       None)
  | inr None =>
      (Rejected (newBusClientError "CTA_BUS_UNEXPECTED_SHAPE"
                   "Unexpected CTA bus tracker response shape."
                   (mkErrOptions None None None (Some (pr_endpoint p))
                      (Some (pr_normalizedParams p)) None None None None None
                      None)),
       None)
  | inr (Some envelope) =>
      let sourceTimestamp := parseTimestampToIso (pl_tmst envelope) in
      let classified : BusClientError + (option string * Payload) :=
        match pl_error envelope with
        | Some (first :: rest) =>
            let reason := classifySoftError (first :: rest) in
            if negb (Str.truthy_opt reason) then
              inl (newBusClientError
                     (default "CTA_BUS_API_ERROR" (raw_code first))
                     (default "CTA bus tracker returned an error." (raw_msg first))
                     (mkErrOptions None None None (Some (pr_endpoint p))
                        (Some (pr_normalizedParams p)) (Some (first :: rest))
                        sourceTimestamp None None None None))
            else
              inr (reason,
                   mkPayload (pl_tmst envelope) None (pl_fields envelope))
        | _ => inr (None, envelope)
        end in
      match classified with
      | inl e => (Rejected e, None)
      | inr (reason, pl) =>
          let clientResult :=
            {| payload := pl;
               meta :=
                 {| meta_endpoint := pr_endpoint p;
                    meta_params := pr_normalizedParams p;
                    meta_cacheKey := pr_cacheKey p;
                    meta_cacheTtlMs := Some (pr_cacheTtlMs p);
                    meta_cacheExpiresAt :=
                      if 0 <? pr_cacheTtlMs p then Some (now1 + pr_cacheTtlMs p)
                      else None;
                    meta_servedFromCache := false;
                    meta_sourceTimestamp := sourceTimestamp;
                    meta_reason := reason |} |} in
          (Fulfilled clientResult,
           if 0 <? pr_cacheTtlMs p
           then Some (mkEntry clientResult (now2 + pr_cacheTtlMs p))
           else None)
      end
  end.

(** Settlement of a request: the optional cache write, then the [finally]
    handler ([inFlightRequests.delete(cacheKey)]), then the promise gets its
    outcome. The request is no longer outstanding. *)
Definition settle (st : State) (rq : Request) (rest : list Request)
    (outcome : Settlement) (write : option CacheEntry) : State :=
  {| responseCache :=
       match write with
       | Some entry => <[rq_key rq := entry]> (responseCache st)
       | None => responseCache st
       end;
     inFlightRequests := delete (rq_key rq) (inFlightRequests st);
     network := rest;
     settled := <[rq_handle rq := outcome]> (settled st);
     nextHandle := nextHandle st;
     effects :=
       match write with
       | Some entry => CacheSet (rq_key rq) entry :: effects st
       | None => effects st
       end |}.

(** Splits the outstanding requests at the one with handle [h]. *)
Fixpoint pick (h : nat) (reqs : list Request) : option (Request * list Request) :=
  match reqs with
  | [] => None
  | rq :: rest =>
      if decide (rq_handle rq = h) then Some (rq, rest)
      else
        match pick h rest with
        | Some (found, others) => Some (found, rq :: others)
        | None => None
        end
  end.

(** The outstanding [fetch] of the request with handle [h] settles with [s]:
    the loop of [fetchWithRetry] issues the next attempt, or the request
    settles. Nothing happens when no such request is outstanding. The wait
    for [response.json()] touches neither map and is folded into this
    step. *)
Definition deliver (st : State) (h : nat) (s : FetchSettled) (now1 now2 : Z)
  : State :=
  match pick h (network st) with
  | None => st
  | Some (rq, rest) =>
      match iteration (rq_attempt rq) (pr_maxRetries (rq_prepared rq)) s with
      | Continue =>
          {| responseCache := responseCache st;
             inFlightRequests := inFlightRequests st;
             network :=
               mkRequest (rq_handle rq) (rq_prepared rq) (rq_url rq)
                 (S (rq_attempt rq)) :: rest;
             settled := settled st;
             nextHandle := nextHandle st;
             effects := Fetched (rq_key rq) (rq_url rq) :: effects st |}
      | Return response =>
          let '(outcome, write) := processResponse (rq_prepared rq) response now1 now2 in
          settle st rq rest outcome write
      | Throw e => settle st rq rest (Rejected e) None
      end
  end.

(** [invalidateBusCache(predicate?)] *)
Definition invalidateBusCache (st : State) (predicate : option (string -> bool))
  : State :=
  {| responseCache :=
       filter (fun kv => negb (match predicate with
                               | Some f => f kv.1
                               | None => true
                               end) = true) (responseCache st);
     inFlightRequests := inFlightRequests st;
     network := network st;
     settled := settled st;
     nextHandle := nextHandle st;
     effects := effects st |}.

(** What the environment does to the client. *)
Inductive Event : Type :=
  | ECall (options : BusRequestOptions) (now : Z)
  | EDeliver (h : nat) (s : FetchSettled) (now1 now2 : Z)
  | EInvalidate (predicate : option (string -> bool)).

Definition step (cfg : Config) (st : State) (ev : Event) : State :=
  match ev with
  | ECall options now => (callBusApi cfg st options now).1
  | EDeliver h s now1 now2 => deliver st h s now1 now2
  | EInvalidate predicate => invalidateBusCache st predicate
  end.

Definition run (cfg : Config) (events : list Event) : State :=
  foldl (step cfg) initialState events.

End Client.

(** ** Error mapping ([errorMapping.ts]) *)

Record ErrorMapping : Type := mkMapping {
  map_test : RegExp;
  map_code : string;
  map_reason : option string;
  map_status : option Z
}.

Definition CTA_ERROR_MAPPINGS : list ErrorMapping :=
  [ mkMapping (Lit "no service scheduled") "CTA_BUS_NO_SERVICE"
      (Some "No service scheduled at this time.") (Some 200);
    mkMapping (Lit "no data found") "CTA_BUS_NO_DATA"
      (Some "CTA reported no results for the provided parameters.") (Some 200);
    mkMapping (Lit "no arrival times") "CTA_BUS_NO_ARRIVALS"
      (Some "No upcoming arrivals were returned.") (Some 200);
    mkMapping (Lit "no predictions") "CTA_BUS_NO_PREDICTIONS"
      (Some "No live predictions are available right now.") (Some 200);
    mkMapping (Lit "invalid param") "CTA_BUS_INVALID_PARAMETER"
      (Some "CTA rejected one or more parameters.") (Some 400);
    mkMapping (Alt (Lit "limit exceeded") (Lit "daily request limit"))
      "CTA_BUS_RATE_LIMIT" (Some "CTA rate limit exceeded.") (Some 429);
    mkMapping (Lit "api key") "CTA_BUS_AUTH_ERROR"
      (Some "CTA bus tracker API key rejected.") (Some 401) ].

Definition is_code_char (a : ascii) : bool := Str.is_upper a || Str.is_digit a.

(** [.replace(/[^A-Z0-9]+/g, "_")]: every maximal run of other code units
    becomes one underscore; [in_run] tells that the run has begun. *)
Fixpoint squeeze (in_run : bool) (s : string) : string :=
  match s with
  | EmptyString => EmptyString
  | String a s' =>
      if is_code_char a then String a (squeeze false s')
      else if in_run then squeeze true s'
      else String "_" (squeeze true s')
  end.

Fixpoint dropLeadingUnderscores (s : string) : string :=
  match s with
  | String a s' =>
      if decide (a = "_"%char) then dropLeadingUnderscores s' else s
  | EmptyString => EmptyString
  end.

(** [.replace(/^_+|_+$/g, "")] *)
Definition trimUnderscores (s : string) : string :=
  String.rev (dropLeadingUnderscores (String.rev (dropLeadingUnderscores s))).

Definition deriveCodeFromMessage (message : string) : string :=
  let code :=
    Str.take 60 (trimUnderscores (squeeze false (Str.toUpperCase message))) in
  if Str.truthy code then code else "CTA_BUS_ERROR".

Record RawDetail : Type := mkRawDetail {
  rd_code : option string;
  rd_message : option string;
  rd_reason : option string;
  rd_status : option Z
}.

(** The inner loop of [deriveFromRawErrors]: the first table row whose
    pattern matches the message. *)
Fixpoint firstMapping (mappings : list ErrorMapping) (msg : string)
  : option ErrorMapping :=
  match mappings with
  | [] => None
  | mapping :: rest =>
      if regexp_test (map_test mapping) msg then Some mapping
      else firstMapping rest msg
  end.

(** The outer loop of [deriveFromRawErrors]: the first error with a message
    that a row matches, with that row. *)
Fixpoint findMapping (errors : list BusRawError)
  : option (BusRawError * ErrorMapping) :=
  match errors with
  | [] => None
  | raw :: rest =>
      if Str.truthy_opt (raw_msg raw) then
        match firstMapping CTA_ERROR_MAPPINGS (default "" (raw_msg raw)) with
        | Some mapping => Some (raw, mapping)
        | None => findMapping rest
        end
      else findMapping rest
  end.

Definition deriveFromRawErrors (errors : list BusRawError) : RawDetail :=
  match findMapping errors with
  | Some (raw, mapping) =>
      {| rd_code := Some (map_code mapping);
         rd_message := raw_msg raw;
         rd_reason := map_reason mapping;
         rd_status := map_status mapping |}
  | None =>
      match errors with
      | first :: _ =>
          if Str.truthy_opt (raw_msg first) then
            {| rd_code :=
                 Some (match raw_code first with
                       | Some code => code
                       | None => deriveCodeFromMessage (default "" (raw_msg first))
                       end);
               rd_message := raw_msg first;
               rd_reason := None;
               rd_status := None |}
          else mkRawDetail None None None None
      | [] => mkRawDetail None None None None
      end
  end.

Record ErrorContext : Type := mkContext {
  ctx_endpoint : string;
  ctx_params : list (string * ParamValue);
  ctx_cacheKey : option string;
  ctx_cacheTtlMs : option Z;
  ctx_servedFromCache : option bool;
  ctx_sourceUpdatedAt : option string;
  ctx_reason : option string;
  ctx_status : option Z
}.

Record BusErrorDetail : Type := mkDetail {
  det_code : string;
  det_message : string;
  det_details : option string
}.

Record BusApiMeta : Type := mkApiMeta {
  am_sourceUpdatedAt : option string;
  am_queriedAt : string;
  am_cacheTtlMs : option Z;
  am_cacheExpiresAt : option string;
  am_cacheKey : option string;
  am_ctaEndpoint : string;
  am_paramsUsed : list (string * ParamValue);
  am_reason : option string;
  am_status : option Z;
  am_servedFromCache : option bool
}.

(** [{ data: null, error, meta }] *)
Record BusApiError : Type := mkApiError {
  env_error : BusErrorDetail;
  env_meta : BusApiMeta
}.

(** The [error: unknown] argument of [mapBusApiError]. *)
Inductive Unknown : Type :=
  | UClient (e : BusClientError)
  | UError (e : JsError)
  | UOther.

Definition sanitizeParams (params : list (string * ParamValue))
  : list (string * ParamValue) :=
  foldl (fun result kv =>
           match kv.2 with
           | PUndefined | PNull => result
           | _ => Obj.set kv.1 kv.2 result
           end)
        [] params.

(** [a ?? b] on optional values. *)
Definition nullish {A} (a b : option A) : option A :=
  match a with Some _ => a | None => b end.

Section ErrorMapping.

(** [new Date(ms).toISOString()] *)
Variable isoOfMillis : Z -> string.

(** [mapBusApiError]; [now] stands for both clock readings of the function. *)
Definition mapBusApiError (error : Unknown) (context : ErrorContext) (now : Z)
  : BusApiError :=
  let queriedAt := isoOfMillis now in
  let paramsUsed := sanitizeParams (ctx_params context) in
  let cacheExpiresAt :=
    match ctx_cacheTtlMs context with
    | Some ttl =>
        if negb (ttl =? 0) && (0 <? ttl) then Some (isoOfMillis (now + ttl))
        else None
    | None => None
    end in
  let status0 := Some (default 502 (ctx_status context)) in
  let servedFromCache0 := Some (default false (ctx_servedFromCache context)) in
  match error with
  | UClient e =>
      let rawDetail :=
        match err_rawErrors e with
        | Some (first :: rest) => deriveFromRawErrors (first :: rest)
        | _ => mkRawDetail None None None None
        end in
      let code :=
        if Str.truthy_opt (rd_code rawDetail)
        then default "" (rd_code rawDetail) else err_code e in
      let message :=
        if Str.truthy_opt (rd_message rawDetail)
        then default "" (rd_message rawDetail) else err_message e in
      let reason1 :=
        if Str.truthy_opt (rd_reason rawDetail)
        then rd_reason rawDetail else ctx_reason context in
      let status1 :=
        match rd_status rawDetail with
        | Some s => if s =? 0 then status0 else Some s
        | None => status0
        end in
      {| env_error := mkDetail code message (err_details e);
         env_meta :=
           {| am_sourceUpdatedAt :=
                nullish (ctx_sourceUpdatedAt context) (err_sourceTimestamp e);
              am_queriedAt := queriedAt;
              am_cacheTtlMs := ctx_cacheTtlMs context;
              am_cacheExpiresAt := cacheExpiresAt;
              am_cacheKey := ctx_cacheKey context;
              am_ctaEndpoint := ctx_endpoint context;
              am_paramsUsed := paramsUsed;
              am_reason := nullish reason1 (err_reason e);
              am_status := nullish status1 (nullish (Some (err_status e)) status1);
              am_servedFromCache :=
                nullish (err_servedFromCache e) servedFromCache0 |} |}
  | _ =>
      let detail :=
        match error with
        | UError e => mkDetail (deriveCodeFromMessage (js_message e)) (js_message e) None
        | _ => mkDetail "CTA_BUS_UNKNOWN_ERROR"
                 "Unexpected error contacting CTA Bus Tracker." None
        end in
      {| env_error := detail;
         env_meta :=
           {| am_sourceUpdatedAt := ctx_sourceUpdatedAt context;
              am_queriedAt := queriedAt;
              am_cacheTtlMs := ctx_cacheTtlMs context;
              am_cacheExpiresAt := cacheExpiresAt;
              am_cacheKey := ctx_cacheKey context;
              am_ctaEndpoint := ctx_endpoint context;
              am_paramsUsed := paramsUsed;
              am_reason := ctx_reason context;
              am_status := status0;
              am_servedFromCache := servedFromCache0 |} |}
  end.

End ErrorMapping.

(** ** The metadata builders of the client *)

(** [Partial<BusApiMeta>] *)
Record BusApiMetaOverrides : Type := mkOverrides {
  ov_sourceUpdatedAt : option string;
  ov_queriedAt : option string;
  ov_cacheTtlMs : option Z;
  ov_cacheExpiresAt : option string;
  ov_cacheKey : option string;
  ov_ctaEndpoint : option string;
  ov_paramsUsed : option (list (string * ParamValue));
  ov_reason : option string;
  ov_status : option Z;
  ov_servedFromCache : option bool
}.

(** A [Record<string, string>] seen as a [Record<string, string | number>]. *)
Definition asParamValues (params : list (string * string))
  : list (string * ParamValue) :=
  (fun kv => (kv.1, PStr kv.2)) <$> params.

Section MetaBuilders.

(** [new Date(ms).toISOString()] *)
Variable isoOfMillis : Z -> string.

(** [buildBusApiMeta]; [now] is the reading of the clock behind
    [new Date()]. *)
Definition buildBusApiMeta (result : BusApiClientResult)
    (overrides : BusApiMetaOverrides) (now : Z) : BusApiMeta :=
  let m := meta result in
  {| am_sourceUpdatedAt :=
       nullish (ov_sourceUpdatedAt overrides) (meta_sourceTimestamp m);
     am_queriedAt := default (isoOfMillis now) (ov_queriedAt overrides);
     am_cacheTtlMs := nullish (ov_cacheTtlMs overrides) (meta_cacheTtlMs m);
     am_cacheExpiresAt :=
       nullish (ov_cacheExpiresAt overrides)
         (match meta_cacheExpiresAt m with
          | Some t => if t =? 0 then None else Some (isoOfMillis t)
          | None => None
          end);
     am_cacheKey := nullish (ov_cacheKey overrides) (Some (meta_cacheKey m));
     am_ctaEndpoint := default (meta_endpoint m) (ov_ctaEndpoint overrides);
     am_paramsUsed :=
       default (asParamValues (meta_params m)) (ov_paramsUsed overrides);
     am_reason := nullish (ov_reason overrides) (meta_reason m);
     am_status := ov_status overrides;
     am_servedFromCache :=
       nullish (ov_servedFromCache overrides) (Some (meta_servedFromCache m)) |}.

(** [createBaseMeta]; its argument has the fields of [ErrorContext]. *)
Definition createBaseMeta (options : ErrorContext) (now : Z) : BusApiMeta :=
  {| am_sourceUpdatedAt := ctx_sourceUpdatedAt options;
     am_queriedAt := isoOfMillis now;
     am_cacheTtlMs := ctx_cacheTtlMs options;
     am_cacheExpiresAt :=
       match ctx_cacheTtlMs options with
       | Some ttl => if ttl =? 0 then None else Some (isoOfMillis (now + ttl))
       | None => None
       end;
     am_cacheKey := ctx_cacheKey options;
     am_ctaEndpoint := ctx_endpoint options;
     am_paramsUsed := asParamValues (normalizeParams (ctx_params options));
     am_reason := ctx_reason options;
     am_status := ctx_status options;
     am_servedFromCache := Some (default false (ctx_servedFromCache options)) |}.

End MetaBuilders.

(** ** The predictions route ([app/api/bus/predictions/route.ts])

    The query string is the list of its name-value pairs, in order. *)

(** [searchParams.getAll(name)] *)
Definition getAll (name : string) (query : list (string * string)) : list string :=
  (filter (fun kv => kv.1 = name) query).*2.

(** [values.filter(Boolean)] *)
Definition filterBoolean (values : list string) : list string :=
  filter (fun v => Str.truthy v = true) values.

Definition collectStopIds (searchParams : list (string * string)) : list string :=
  let multi := getAll "stpid" searchParams in
  if (0 <? length multi)%nat then filterBoolean multi
  else
    let alt := getAll "stopId" searchParams in
    if (0 <? length alt)%nat then filterBoolean alt
    else
      let single :=
        nullish (Obj.get "stpid" searchParams) (Obj.get "stopId" searchParams) in
      if Str.truthy_opt single then [default "" single] else [].

Definition PREDICTIONS_ENDPOINT : string := "getpredictions".
Definition DEFAULT_CACHE_TTL_MS : Z := 15000.

(** A string or [undefined] as a parameter value. *)
Definition paramOf (o : option string) : ParamValue :=
  match o with Some s => PStr s | None => PUndefined end.

(** The cache key of the predictions route. *)
Definition predictionsCacheKey (stpidParam : string)
    (routeId vehicleId top : option string) : string :=
  "bus:" +:+ PREDICTIONS_ENDPOINT +:+ ":" +:+ stpidParam +:+ ":"
    +:+ default "" routeId +:+ ":" +:+ default "" vehicleId +:+ ":"
    +:+ default "" top.

(** The TTL of the predictions route: none when [top] or [vid] is given. *)
Definition predictionsTtl (vehicleId top : option string) : Z :=
  if Str.truthy_opt top || Str.truthy_opt vehicleId then 0
  else DEFAULT_CACHE_TTL_MS.

(** The handler up to its call of [callBusApi]: [None] when it answers 400
    itself because no stop id was given, the options of the call
    otherwise. *)
Definition predictionsOptions (searchParams : list (string * string))
  : option BusRequestOptions :=
  let stopIds := collectStopIds searchParams in
  let routeId := Obj.get "rt" searchParams in
  let top := Obj.get "top" searchParams in
  let vehicleId := Obj.get "vid" searchParams in
  if (length stopIds =? 0)%nat then None
  else
    let stpidParam := Str.join "," stopIds in
    Some {| opt_endpoint := PREDICTIONS_ENDPOINT;
            opt_params :=
              Some [("stpid", PStr stpidParam); ("rt", paramOf routeId);
                    ("top", paramOf top); ("vid", paramOf vehicleId)];
            opt_requiredParams := Some ["stpid"];
            opt_cacheKey :=
              Some (predictionsCacheKey stpidParam routeId vehicleId top);
            opt_cacheTtlMs := Some (predictionsTtl vehicleId top);
            opt_timeoutMs := None;
            opt_maxRetries := None |}.

(** ** The vehicles route ([app/api/bus/vehicles/route.ts]) *)

Definition VEHICLES_ENDPOINT : string := "getvehicles".
Definition VEHICLES_CACHE_TTL_MS : Z := 15000.

Definition vehiclesCacheKey (routeId vehicleId : option string) : string :=
  "bus:" +:+ VEHICLES_ENDPOINT +:+ ":" +:+ default "" routeId +:+ ":"
    +:+ default "" vehicleId.

(** The handler up to its call of [callBusApi]: [None] when it answers 400
    itself because neither a route nor a vehicle was given. *)
Definition vehiclesOptions (searchParams : list (string * string))
  : option BusRequestOptions :=
  let routeId := Obj.get "rt" searchParams in
  let vehicleId := Obj.get "vid" searchParams in
  if negb (Str.truthy_opt routeId) && negb (Str.truthy_opt vehicleId) then None
  else
    Some {| opt_endpoint := VEHICLES_ENDPOINT;
            opt_params :=
              Some [("rt", paramOf routeId); ("vid", paramOf vehicleId)];
            opt_requiredParams := None;
            opt_cacheKey := Some (vehiclesCacheKey routeId vehicleId);
            opt_cacheTtlMs := Some VEHICLES_CACHE_TTL_MS;
            opt_timeoutMs := None;
            opt_maxRetries := None |}.

(** ** The patterns route ([app/api/bus/patterns/route.ts]) *)

Definition PATTERNS_ENDPOINT : string := "getpatterns".
Definition PATTERNS_CACHE_TTL_MS : Z := 4 * 60 * 60 * 1000.

Definition patternsCacheKey (routeId patternId : option string) : string :=
  "bus:" +:+ PATTERNS_ENDPOINT +:+ ":" +:+ default "" routeId +:+ ":"
    +:+ default "" patternId.

(** The handler up to its call of [callBusApi]: [None] when it answers 400
    itself because neither a route nor a pattern was given. *)
Definition patternsOptions (searchParams : list (string * string))
  : option BusRequestOptions :=
  let routeId := Obj.get "rt" searchParams in
  let patternId := Obj.get "pid" searchParams in
  if negb (Str.truthy_opt routeId) && negb (Str.truthy_opt patternId) then None
  else
    Some {| opt_endpoint := PATTERNS_ENDPOINT;
            opt_params :=
              Some [("rt", paramOf routeId); ("pid", paramOf patternId)];
            opt_requiredParams := None;
            opt_cacheKey := Some (patternsCacheKey routeId patternId);
            opt_cacheTtlMs := Some PATTERNS_CACHE_TTL_MS;
            opt_timeoutMs := None;
            opt_maxRetries := None |}.

(** ** Vocabulary of the properties *)

(** One step of [normalizeParams] on the map the object denotes. *)
Definition normalizeStep (m : gmap string string) (kv : string * ParamValue)
  : gmap string string :=
  if isBlank kv.2 then m else <[kv.1 := stringOf kv.2]> m.

(** The requests with an outstanding [fetch] for the cache key [k]. *)
Definition outstanding (st : State) (k : string) : list Request :=
  filter (fun rq => rq_key rq = k) (network st).

(** The registry and the outstanding requests describe each other, handles
    are fresh, and a promise with an outstanding request has no outcome
    yet. *)
Record consistent (st : State) : Prop := mkConsistent {
  cons_nodup : NoDup (rq_handle <$> network st);
  cons_registered :
    forall rq, rq ∈ network st ->
      inFlightRequests st !! rq_key rq = Some (rq_handle rq);
  cons_outstanding :
    forall k h, inFlightRequests st !! k = Some h ->
      exists rq, rq ∈ network st /\ rq_key rq = k /\ rq_handle rq = h;
  cons_fresh :
    forall rq, rq ∈ network st -> (rq_handle rq < nextHandle st)%nat;
  cons_pending :
    forall rq, rq ∈ network st -> settled st !! rq_handle rq = None;
  cons_settled :
    forall h, is_Some (settled st !! h) -> (h < nextHandle st)%nat
}.

(** The step from [st] to [st'] stored a cache entry. *)
Definition wrote (st st' : State) : Prop :=
  exists key entry, effects st' = CacheSet key entry :: effects st.

(** The step from [st] to [st'] issued exactly one [fetch], for [key]. *)
Definition fetchedOnce (st st' : State) (key : string) : Prop :=
  exists url, effects st' = Fetched key url :: effects st.

(** What remains of the client's data when the credential, which lives only
    in [pr_requestParams] and in the request URL, is blanked out. *)
Definition publicPrepared (p : Prepared) : Prepared :=
  {| pr_endpoint := pr_endpoint p;
     pr_normalizedParams := pr_normalizedParams p;
     pr_cacheKey := pr_cacheKey p;
     pr_cacheTtlMs := pr_cacheTtlMs p;
     pr_timeoutMs := pr_timeoutMs p;
     pr_maxRetries := pr_maxRetries p;
     pr_requestParams := [] |}.

Definition publicRequest (rq : Request) : Request :=
  {| rq_handle := rq_handle rq;
     rq_prepared := publicPrepared (rq_prepared rq);
     rq_url := "";
     rq_attempt := rq_attempt rq |}.

Definition publicEffect (e : Effect) : Effect :=
  match e with
  | Fetched key _ => Fetched key ""
  | CacheSet key entry => CacheSet key entry
  end.

Definition publicState (st : State) : State :=
  {| responseCache := responseCache st;
     inFlightRequests := inFlightRequests st;
     network := publicRequest <$> network st;
     settled := settled st;
     nextHandle := nextHandle st;
     effects := publicEffect <$> effects st |}.

(** The failures of a [fetch] that the [catch] clause retries: the timer's
    abort and what it takes for a network failure. *)
Definition isTransient (e : JsError) : bool :=
  bool_decide (js_name e = "AbortError")
  || (bool_decide (js_name e = "FetchError")
      || Str.includes "network" (js_message e)).

(** The attempt counter of every outstanding request is within the retry
    budget of the request. *)
Definition attemptsWithinBudget (st : State) : Prop :=
  forall rq, rq ∈ network st ->
    (1 <= rq_attempt rq)%nat
    /\ Z.of_nat (rq_attempt rq) <= Z.max 0 (pr_maxRetries (rq_prepared rq)) + 1.

(** The value under [key] is there and is not blank: the negation of the
    test in the required-parameter loop of [callBusApi]. *)
Definition present (params : list (string * ParamValue)) (key : string) : bool :=
  negb (isMissing params key).

(** [!predicate || predicate(key)] of [invalidateBusCache]. *)
Definition selects (predicate : option (string -> bool)) (key : string) : bool :=
  match predicate with Some f => f key | None => true end.

(** What holds of an entry stored under [key] by the client. *)
Definition entryWellFormed (key : string) (entry : CacheEntry) : Prop :=
  meta_cacheKey (meta (value entry)) = key
  /\ meta_servedFromCache (meta (value entry)) = false
  /\ (exists ttl, 0 < ttl /\ meta_cacheTtlMs (meta (value entry)) = Some ttl)
  /\ is_Some (meta_cacheExpiresAt (meta (value entry)))
  /\ (forall first rest,
        pl_error (payload (value entry)) <> Some (first :: rest)).

(** Every code unit of [s] satisfies [P]. *)
Fixpoint allChars (P : ascii -> bool) (s : string) : bool :=
  match s with
  | EmptyString => true
  | String a s' => P a && allChars P s'
  end.

(** A code unit of an error code: [A-Z], [0-9] or the underscore. *)
Definition is_code_or_underscore (a : ascii) : bool :=
  is_code_char a || bool_decide (a = "_"%char).

(** No colon in [s]. *)
Definition colonFree (s : string) : bool :=
  allChars (fun a => negb (bool_decide (a = ":"%char))) s.

(** [value === undefined || value === null] of [sanitizeParams]. *)
Definition isNullish (v : ParamValue) : bool :=
  match v with PUndefined | PNull => true | _ => false end.

(** The overrides every route passes on success: [{ status: 200 }]. *)
Definition statusOnly (status : Z) : BusApiMetaOverrides :=
  mkOverrides None None None None None None None None (Some status) None.

(** The number of code units of [s] equal to [c]. *)
Fixpoint countChar (c : ascii) (s : string) : nat :=
  match s with
  | EmptyString => 0
  | String a s' => (if decide (a = c) then 1 else 0) + countChar c s'
  end.

(** The four values the predictions route writes into its cache key. *)
Definition keyParts (searchParams : list (string * string)) : list string :=
  [Str.join "," (collectStopIds searchParams);
   default "" (Obj.get "rt" searchParams);
   default "" (Obj.get "vid" searchParams);
   default "" (Obj.get "top" searchParams)].

(** No colon in a value the predictions route writes into its cache key. *)
Definition colonFreeQuery (searchParams : list (string * string)) : bool :=
  forallb colonFree (keyParts searchParams).

(** A parameter value that is a non-empty string. *)
Definition nonEmptyString (v : ParamValue) : bool :=
  match v with PStr s => Str.truthy s | _ => false end.

(** Platform functions and sample data for the worked examples. *)
Definition sampleDate : Type := string.
Definition sampleParse (s : string) : option sampleDate := Some s.
Definition sampleIso (d : sampleDate) : string := d.
Definition sampleConfig : Config := mkConfig (Some "SECRET") "ctabus".

Definition sampleOptions (ttl : Z) : BusRequestOptions :=
  mkOptions "getpredictions" (Some [("stpid", PStr "1836")]) (Some ["stpid"])
    (Some "bus:getpredictions:1836") (Some ttl) None None.

Definition samplePrepared (ttl : Z) : Prepared :=
  {| pr_endpoint := "getpredictions";
     pr_normalizedParams :=
       [("stpid", "1836"); ("rtpidatafeed", "ctabus"); ("format", "json")];
     pr_cacheKey := "bus:getpredictions:1836";
     pr_cacheTtlMs := ttl;
     pr_timeoutMs := 7000;
     pr_maxRetries := 2;
     pr_requestParams :=
       [("stpid", "1836"); ("rtpidatafeed", "ctabus"); ("format", "json");
        ("key", "SECRET")] |}.

(** The state after one call of [sampleOptions ttl] on a fresh client. *)
Definition launchedState (ttl : Z) : State :=
  (callBusApi id (fun _ => "q") sampleConfig initialState (sampleOptions ttl) 1000).1.

Definition softResponse : Response :=
  mkResponse 200
    (inr (Some (mkPayload (Some "20240101 00:00:00")
                  (Some [mkRaw None (Some "No arrival times")]) []))).

Definition dataResponse : Response :=
  mkResponse 200
    (inr (Some (mkPayload (Some "20240101 00:00:00") None
                  [("prd", "[]")]))).

(** The state after the sample request has settled with [response]. *)
Definition settledState (ttl : Z) (response : Response) : State :=
  deliver sampleDate sampleParse sampleIso (launchedState ttl) 0
    (Resolved response) 2000 2000.

(** The state after the sample request has settled with [dataResponse]
    under a TTL of 30 s and the same key has been asked for again at time
    [now] with a TTL of [ttl]. *)
Definition relaunchedState (ttl now : Z) : State :=
  (callBusApi id (fun _ => "q") sampleConfig (settledState 30000 dataResponse)
     (sampleOptions ttl) now).1.

(** The single outstanding request of [launchedState ttl]. *)
Definition sampleRequest (ttl : Z) : Request :=
  mkRequest 0 (samplePrepared ttl)
    "https://www.ctabustracker.com/bustime/api/v3/getpredictions?q" 1.

(** The result of the sample request settled with [dataResponse] at time
    2000 under a TTL of 30 s, and the cache entry that holds it. *)
Definition sampleResult : BusApiClientResult :=
  {| payload := mkPayload (Some "20240101 00:00:00") None [("prd", "[]")];
     meta :=
       {| meta_endpoint := "getpredictions";
          meta_params :=
            [("stpid", "1836"); ("rtpidatafeed", "ctabus"); ("format", "json")];
          meta_cacheKey := "bus:getpredictions:1836";
          meta_cacheTtlMs := Some 30000;
          meta_cacheExpiresAt := Some 32000;
          meta_servedFromCache := false;
          meta_sourceTimestamp := Some "20240101 00:00:00";
          meta_reason := None |} |}.

Definition sampleEntry : CacheEntry := mkEntry sampleResult 32000.

Definition sampleIsoOfMillis (ms : Z) : string := pretty ms.

Definition sampleContext : ErrorContext :=
  mkContext "getpredictions" [("stpid", PStr "1836")]
    (Some "bus:getpredictions:1836") (Some 30000) None None None None.

(** An accepted response whose [error] array is [errors]. *)
Definition errorResponse (errors : list BusRawError) : Response :=
  mkResponse 200 (inr (Some (mkPayload None (Some errors) []))).

(** * Properties *)

(** ** The retry loop *)

Lemma iteration_continue attempt maxRetries s :
  iteration attempt maxRetries s = Continue -> Z.of_nat attempt <= maxRetries.
Proof.
  unfold iteration, catchClause.
  destruct s as [r|e]; simpl.
  - destruct (resp_ok r); simpl; [discriminate|].
    destruct (Z.of_nat attempt <=? maxRetries) eqn:Hle; simpl.
    + intros _. lia.
    + discriminate.
  - destruct (Z.of_nat attempt <=? maxRetries) eqn:Hle; simpl.
    + intros _. lia.
    + discriminate.
Qed.

Lemma fetchLoop_total upstream maxRetries fuel attempt :
  (0 < fuel)%nat -> maxRetries < Z.of_nat (attempt + fuel) ->
  is_Some (fetchLoop fuel upstream maxRetries attempt).
Proof.
  revert attempt. induction fuel as [|fuel IH]; intros attempt Hpos Hfuel; [lia|].
  simpl.
  destruct (iteration (S attempt) maxRetries (upstream (S attempt))) eqn:Hit;
    [|by eexists..].
  apply iteration_continue in Hit.
  apply IH; lia.
Qed.

(** The loop always ends: it returns a response or throws. *)
Lemma fetchWithRetry_total upstream maxRetries :
  is_Some (fetchWithRetry upstream maxRetries).
Proof. apply fetchLoop_total; lia. Qed.

(** A response that is not [ok] is retried while the budget lasts, whatever
    its status, and the last one is thrown as an HTTP error. *)
Lemma iteration_not_ok attempt maxRetries r :
  resp_ok r = false ->
  iteration attempt maxRetries (Resolved r) =
    if Z.of_nat attempt <=? maxRetries then Continue
    else Throw (httpError (resp_status r)).
Proof.
  intros Hok. unfold iteration, catchClause. rewrite Hok. simpl.
  destruct (Z.of_nat attempt <=? maxRetries); simpl.
  - destruct (500 <=? resp_status r); simpl; [done|].
    by rewrite !orb_true_r.
  - done.
Qed.

Lemma fetchLoop_not_ok upstream maxRetries fuel attempt :
  (forall n, exists r, upstream n = Resolved r /\ resp_ok r = false) ->
  (0 < fuel)%nat ->
  Z.of_nat (attempt + fuel) = maxRetries + 1 ->
  exists r, upstream (attempt + fuel)%nat = Resolved r /\
    fetchLoop fuel upstream maxRetries attempt =
      Some ((attempt + fuel)%nat, inl (httpError (resp_status r))).
Proof.
  intros Hup. revert attempt.
  induction fuel as [|fuel IH]; intros attempt Hpos Hsum; [lia|].
  simpl. destruct (Hup (S attempt)) as (r & Hr & Hok).
  rewrite Hr, (iteration_not_ok _ _ _ Hok).
  destruct (Z.of_nat (S attempt) <=? maxRetries) eqn:Hle.
  - apply Z.leb_le in Hle.
    replace (attempt + S fuel)%nat with (S attempt + fuel)%nat by lia.
    apply IH; lia.
  - apply Z.leb_gt in Hle.
    assert (fuel = 0%nat) as -> by lia.
    replace (attempt + 1)%nat with (S attempt) by lia.
    exists r. by rewrite Hr.
Qed.

Lemma fetchWithRetry_not_ok upstream maxRetries :
  0 <= maxRetries ->
  (forall n, exists r, upstream n = Resolved r /\ resp_ok r = false) ->
  exists r, upstream (S (Z.to_nat maxRetries)) = Resolved r /\
    fetchWithRetry upstream maxRetries =
      Some (S (Z.to_nat maxRetries), inl (httpError (resp_status r))).
Proof.
  intros Hm Hup.
  destruct (fetchLoop_not_ok upstream maxRetries (S (Z.to_nat maxRetries)) 0 Hup)
    as (r & Hr & Hloop); [lia|lia|].
  exists r. split; [exact Hr|exact Hloop].
Qed.

(** C2 (the code departs from the claim). An upstream that answers 400 to
    every attempt is asked three times under the default budget of two
    retries: the error thrown inside the [try] block for the 400 response is
    caught by the [catch] clause of the same iteration, whose retry test
    accepts every [BusClientError] while attempts remain. *)
Theorem client_error_400_is_retried :
  fetchWithRetry (fun _ => Resolved (mkResponse 400 (inr None)))
    DEFAULT_MAX_RETRIES
  = Some (3%nat, inl (httpError 400)).
Proof. reflexivity. Qed.

(** The same for every status outside 200..299 and every budget. *)
Lemma not_ok_attempts upstream maxRetries status :
  0 <= maxRetries ->
  (status < 200 \/ 299 < status) ->
  (forall n, exists r, upstream n = Resolved r /\ resp_status r = status) ->
  fetchWithRetry upstream maxRetries =
    Some (S (Z.to_nat maxRetries), inl (httpError status)).
Proof.
  intros Hm Hst Hup.
  destruct (fetchWithRetry_not_ok upstream maxRetries Hm) as (r & Hr & ->).
  - intros n. destruct (Hup n) as (r & Hr & Hs). exists r. split; [done|].
    unfold resp_ok. rewrite Hs.
    destruct Hst; [apply andb_false_iff; left|apply andb_false_iff; right];
      lia.
  - destruct (Hup (S (Z.to_nat maxRetries))) as (r' & Hr' & Hs).
    rewrite Hr in Hr'. injection Hr' as ->. by rewrite Hs.
Qed.

(** C3, as stated, fails: after the three attempts against an upstream that
    always answers 503, the error thrown has code [CTA_BUS_HTTP_ERROR] and
    status 503, not [UPSTREAM_REQUEST_FAILED] and 502. *)
Lemma retry_bound_error_counterexample :
  exists e,
    fetchWithRetry (fun _ => Resolved (mkResponse 503 (inr None))) 2
      = Some (3%nat, inl e)
    /\ err_code e = "CTA_BUS_HTTP_ERROR"
    /\ err_status e = 503
    /\ ~ (err_code e = "UPSTREAM_REQUEST_FAILED" /\ err_status e = 502).
Proof.
  exists (httpError 503). repeat split. intros [Hcode _]. discriminate Hcode.
Qed.

(** C3, amended: against an upstream that answers 503 to every attempt,
    [fetchWithRetry] makes exactly [maxRetries + 1] attempts and then throws
    a client error with code [CTA_BUS_HTTP_ERROR] whose status is the
    upstream's 503. *)
Theorem retry_bound_503 upstream maxRetries :
  0 <= maxRetries ->
  (forall n, exists r, upstream n = Resolved r /\ resp_status r = 503) ->
  exists e,
    fetchWithRetry upstream maxRetries = Some (Z.to_nat (maxRetries + 1), inl e)
    /\ err_code e = "CTA_BUS_HTTP_ERROR"
    /\ err_status e = 503.
Proof.
  intros Hm Hup. exists (httpError 503).
  rewrite (not_ok_attempts upstream maxRetries 503 Hm); [|lia|done].
  replace (Z.to_nat (maxRetries + 1)) with (S (Z.to_nat maxRetries)) by lia.
  done.
Qed.

Lemma retry_bound_503_witness :
  exists e,
    fetchWithRetry (fun _ => Resolved (mkResponse 503 (inr None))) 2
      = Some (Z.to_nat (2 + 1), inl e)
    /\ err_code e = "CTA_BUS_HTTP_ERROR"
    /\ err_status e = 503.
Proof.
  apply (retry_bound_503 (fun _ => Resolved (mkResponse 503 (inr None))) 2).
  - lia.
  - intros n. eexists. split; reflexivity.
Defined.

(** ** Parameter objects and the cache key *)

Section ObjFacts.
Context {V : Type}.
Implicit Types (o : list (string * V)) (k : string) (v : V).

Lemma Obj_get_lookup k o :
  Obj.get k o = (list_to_map o : gmap string V) !! k.
Proof.
  induction o as [|[k' v'] o IH]; simpl; [done|].
  destruct (decide (k = k')) as [->|Hne].
  - by rewrite lookup_insert_eq.
  - by rewrite lookup_insert_ne.
Qed.

Lemma Obj_set_map k v o :
  list_to_map (Obj.set k v o) =@{gmap string V} <[k:=v]> (list_to_map o).
Proof.
  induction o as [|[k' v'] o IH]; simpl; [done|].
  destruct (decide (k = k')) as [->|Hne]; simpl.
  - by rewrite insert_insert_eq.
  - rewrite IH. by apply insert_insert_ne.
Qed.

Lemma Obj_set_keys k v o :
  (Obj.set k v o).*1 = if decide (k ∈ o.*1) then o.*1 else (o.*1 ++ [k])%list.
Proof.
  induction o as [|[k' v'] o IH]; csimpl.
  - destruct (decide (k ∈ [])) as [Hin|_]; [|done]. by apply elem_of_nil in Hin.
  - destruct (decide (k = k')) as [->|Hne]; csimpl.
    + destruct (decide (k' ∈ k' :: o.*1)) as [_|Hnin]; [done|].
      exfalso. apply Hnin, elem_of_cons. by left.
    + rewrite IH. destruct (decide (k ∈ o.*1)) as [Hin|Hnin];
        destruct (decide (k ∈ k' :: o.*1)) as [Hin'|Hnin']; try done.
      * exfalso. apply Hnin', elem_of_cons. by right.
      * apply elem_of_cons in Hin' as [?|?]; congruence.
Qed.

Lemma Obj_set_NoDup k v o : NoDup o.*1 -> NoDup (Obj.set k v o).*1.
Proof.
  intros Hnd. rewrite Obj_set_keys.
  destruct (decide (k ∈ o.*1)) as [Hin|Hnin]; [done|].
  apply NoDup_app. split_and!; [done| |apply NoDup_singleton].
  intros x Hx Hx'. apply list_elem_of_singleton in Hx'. by subst.
Qed.

Lemma Obj_get_Permutation k o1 o2 :
  NoDup o1.*1 -> o1 ≡ₚ o2 -> Obj.get k o1 = Obj.get k o2.
Proof.
  intros Hnd Hperm. rewrite !Obj_get_lookup.
  by rewrite (list_to_map_proper o1 o2 Hnd Hperm).
Qed.

End ObjFacts.

Lemma normalizeParams_fold acc params :
  list_to_map
    (foldl (fun normalized kv =>
              if isBlank kv.2 then normalized
              else Obj.set kv.1 (stringOf kv.2) normalized) acc params)
  = foldl normalizeStep (list_to_map acc) params.
Proof.
  revert acc. induction params as [|[k v] params IH]; intros acc; simpl; [done|].
  rewrite IH. f_equal. unfold normalizeStep; simpl.
  destruct (isBlank v); [done|]. apply Obj_set_map.
Qed.

Lemma normalizeParams_fold_NoDup acc params :
  NoDup acc.*1 ->
  NoDup (foldl (fun normalized kv =>
                  if isBlank kv.2 then normalized
                  else Obj.set kv.1 (stringOf kv.2) normalized) acc params).*1.
Proof.
  revert acc. induction params as [|[k v] params IH]; intros acc Hnd; simpl; [done|].
  apply IH. destruct (isBlank v); [done|]. by apply Obj_set_NoDup.
Qed.

Lemma normalizeParams_NoDup params : NoDup (normalizeParams params).*1.
Proof. apply normalizeParams_fold_NoDup. constructor. Qed.

Lemma normalizeStep_lookup params :
  NoDup params.*1 ->
  forall (m : gmap string string) (k : string),
    foldl normalizeStep m params !! k =
      match Obj.get k params with
      | Some v => if isBlank v then m !! k else Some (stringOf v)
      | None => m !! k
      end.
Proof.
  induction params as [|[k0 v0] params IH]; intros Hnd m k; simpl; [done|].
  apply NoDup_cons in Hnd as [Hk0 Hnd].
  rewrite (IH Hnd). unfold normalizeStep at 1 2; simpl.
  destruct (decide (k = k0)) as [->|Hne].
  - assert (Obj.get k0 params = None) as ->.
    { rewrite Obj_get_lookup. apply not_elem_of_list_to_map_1. exact Hk0. }
    destruct (isBlank v0); [done|]. by rewrite lookup_insert_eq.
  - destruct (isBlank v0); [done|]. by rewrite lookup_insert_ne.
Qed.

(** What [normalizeParams] keeps: the entries whose value is not blank, each
    under its key and turned into a string. *)
Lemma normalizeParams_get params k :
  NoDup params.*1 ->
  Obj.get k (normalizeParams params) =
    match Obj.get k params with
    | Some v => if isBlank v then None else Some (stringOf v)
    | None => None
    end.
Proof.
  intros Hnd. rewrite Obj_get_lookup. unfold normalizeParams.
  rewrite normalizeParams_fold, (normalizeStep_lookup params Hnd). simpl.
  rewrite lookup_empty. by destruct (Obj.get k params) as [v|]; [destruct (isBlank v)|].
Qed.

Lemma normalizeParams_Permutation params1 params2 :
  NoDup params1.*1 -> params1 ≡ₚ params2 ->
  list_to_map (normalizeParams params1) =@{gmap string string}
  list_to_map (normalizeParams params2).
Proof.
  intros Hnd Hperm.
  assert (NoDup params2.*1) as Hnd2 by (by rewrite <- Hperm).
  apply map_eq. intros k. rewrite <- !Obj_get_lookup.
  rewrite !normalizeParams_get by done.
  by rewrite (Obj_get_Permutation k params1 params2 Hnd Hperm).
Qed.

Lemma withDefaults_NoDup cfg normalized :
  NoDup normalized.*1 -> NoDup (withDefaults cfg normalized).*1.
Proof.
  intros Hnd. unfold withDefaults.
  repeat (case_match; try apply Obj_set_NoDup); done.
Qed.

Lemma Obj_get_same_map k (o1 o2 : list (string * string)) :
  list_to_map o1 =@{gmap string string} list_to_map o2 ->
  Obj.get k o1 = Obj.get k o2.
Proof. intros Heq. by rewrite !Obj_get_lookup, Heq. Qed.

Lemma Obj_set_same_map k v (o1 o2 : list (string * string)) :
  list_to_map o1 =@{gmap string string} list_to_map o2 ->
  list_to_map (Obj.set k v o1) =@{gmap string string} list_to_map (Obj.set k v o2).
Proof. intros Heq. by rewrite !Obj_set_map, Heq. Qed.

Lemma withDefaults_map cfg n1 n2 :
  list_to_map n1 =@{gmap string string} list_to_map n2 ->
  list_to_map (withDefaults cfg n1) =@{gmap string string}
  list_to_map (withDefaults cfg n2).
Proof.
  intros Heq. unfold withDefaults.
  rewrite (Obj_get_same_map "rtpidatafeed" n1 n2 Heq).
  set (feed := negb (Str.truthy_opt (Obj.get "rtpidatafeed" n2))
               && Str.truthy (CTA_BUS_RTPIDATAFEED cfg)).
  assert (list_to_map (if feed
                       then Obj.set "rtpidatafeed" (CTA_BUS_RTPIDATAFEED cfg) n1
                       else n1)
          =@{gmap string string}
          list_to_map (if feed
                       then Obj.set "rtpidatafeed" (CTA_BUS_RTPIDATAFEED cfg) n2
                       else n2)) as Heq1.
  { destruct feed; [by apply Obj_set_same_map|done]. }
  rewrite (Obj_get_same_map "format" _ _ Heq1).
  destruct (negb (Str.truthy_opt (Obj.get "format" _)));
    [by apply Obj_set_same_map|done].
Qed.

Section CacheKeyFacts.
Variable encodeURIComponent : string -> string.

Lemma sorted_keys_unique (o1 o2 : list (string * string)) :
  o1 ≡ₚ o2 ->
  merge_sort String.le (Obj.keys o1) = merge_sort String.le (Obj.keys o2).
Proof.
  intros Hperm.
  apply (Sorted_unique String.le); try apply Sorted_merge_sort; try apply _.
  rewrite !merge_sort_Permutation. unfold Obj.keys. by rewrite Hperm.
Qed.

Lemma serializeParams_same_map (o1 o2 : list (string * string)) :
  NoDup o1.*1 -> NoDup o2.*1 ->
  list_to_map o1 =@{gmap string string} list_to_map o2 ->
  serializeParams encodeURIComponent o1 = serializeParams encodeURIComponent o2.
Proof.
  intros Hnd1 Hnd2 Heq. unfold serializeParams.
  rewrite (sorted_keys_unique o1 o2) by (by apply list_to_map_inj).
  f_equal. apply list_fmap_ext. intros i key _.
  by rewrite !Obj_get_lookup, Heq.
Qed.

Lemma computeCacheKey_same_map endpoint supplied (o1 o2 : list (string * string)) :
  NoDup o1.*1 -> NoDup o2.*1 ->
  list_to_map o1 =@{gmap string string} list_to_map o2 ->
  computeCacheKey encodeURIComponent endpoint o1 supplied =
  computeCacheKey encodeURIComponent endpoint o2 supplied.
Proof.
  intros Hnd1 Hnd2 Heq. unfold computeCacheKey.
  by rewrite (serializeParams_same_map o1 o2).
Qed.

Lemma checkRequired_Permutation endpoint params1 params2 required :
  NoDup params1.*1 -> params1 ≡ₚ params2 ->
  checkRequired endpoint params1 required = None ->
  checkRequired endpoint params2 required = None.
Proof.
  intros Hnd Hperm. induction required as [|key rest IH]; simpl; [done|].
  unfold isMissing.
  rewrite (Obj_get_Permutation key params1 params2 Hnd Hperm).
  fold (isMissing params2 key).
  destruct (isMissing params2 key); [discriminate|exact IH].
Qed.

End CacheKeyFacts.



(** The same at the level of [callBusApi]'s preparation: if the request
    passes validation with one order it passes with the other, under the
    same key. *)
Lemma prepare_order_independent
    (encodeURIComponent : string -> string) (cfg : Config) endpoint required
    supplied ttl timeout retries (params1 params2 : list (string * ParamValue)) p1 :
  NoDup params1.*1 ->
  params1 ≡ₚ params2 ->
  prepare encodeURIComponent cfg
    (mkOptions endpoint (Some params1) required supplied ttl timeout retries)
    = inr p1 ->
  exists p2,
    prepare encodeURIComponent cfg
      (mkOptions endpoint (Some params2) required supplied ttl timeout retries)
      = inr p2
    /\ pr_cacheKey p2 = pr_cacheKey p1.
Proof.
  intros Hnd Hperm. unfold prepare; simpl.
  destruct (ensureApiKey cfg); [discriminate|].
  destruct (checkRequired endpoint params1 (default [] required)) eqn:Hreq;
    [discriminate|].
  rewrite (checkRequired_Permutation endpoint params1 params2 _ Hnd Hperm Hreq).
  intros [= <-]. eexists. split; [reflexivity|]. simpl.
  apply computeCacheKey_same_map;
    try apply withDefaults_NoDup; try apply normalizeParams_NoDup.
  symmetry. by apply withDefaults_map, normalizeParams_Permutation.
Qed.

(** ** The client as a transition system *)

Lemma pick_Some h reqs rq rest :
  pick h reqs = Some (rq, rest) ->
  rq_handle rq = h /\ reqs ≡ₚ rq :: rest.
Proof.
  revert rq rest. induction reqs as [|r reqs IH]; intros rq rest; simpl; [done|].
  destruct (decide (rq_handle r = h)) as [Heq|Hne].
  - intros [= -> ->]. done.
  - destruct (pick h reqs) as [[found others]|] eqn:Hp; [|done].
    destruct (IH found others eq_refl) as [Hh Hperm].
    intros [= <- <-]. split; [done|]. rewrite Hperm. apply Permutation_swap.
Qed.

Lemma pick_None h reqs :
  pick h reqs = None -> h ∉ rq_handle <$> reqs.
Proof.
  induction reqs as [|r reqs IH]; csimpl; [intros _; apply not_elem_of_nil|].
  destruct (decide (rq_handle r = h)) as [Heq|Hne]; [done|].
  destruct (pick h reqs) as [[found others]|]; [done|].
  intros _ [?|?]%elem_of_cons; [congruence|by apply IH].
Qed.

Lemma pick_elem_of rq reqs :
  rq ∈ reqs -> NoDup (rq_handle <$> reqs) ->
  exists rest, pick (rq_handle rq) reqs = Some (rq, rest).
Proof.
  induction reqs as [|r reqs IH]; csimpl; [by intros ?%elem_of_nil|].
  intros Hin [Hr Hnd]%NoDup_cons.
  destruct (decide (rq_handle r = rq_handle rq)) as [Heq|Hne].
  - apply elem_of_cons in Hin as [->|Hin]; [by eexists|].
    exfalso. apply Hr. rewrite Heq. apply list_elem_of_fmap. by exists rq.
  - apply elem_of_cons in Hin as [->|Hin]; [done|].
    destruct (IH Hin Hnd) as [rest ->]. by eexists.
Qed.

Lemma consistent_initial : consistent initialState.
Proof.
  split; simpl.
  - constructor.
  - by intros rq ?%elem_of_nil.
  - intros k h. by rewrite lookup_empty.
  - by intros rq ?%elem_of_nil.
  - by intros rq ?%elem_of_nil.
  - intros h [o Ho]. by rewrite lookup_empty in Ho.
Qed.

(** Two outstanding requests for one key are the same request. *)
Lemma consistent_key_inj st rq1 rq2 :
  consistent st -> rq1 ∈ network st -> rq2 ∈ network st ->
  rq_key rq1 = rq_key rq2 -> rq_handle rq1 = rq_handle rq2.
Proof.
  intros Hc H1 H2 Hk.
  pose proof (cons_registered st Hc rq1 H1) as E1.
  pose proof (cons_registered st Hc rq2 H2) as E2.
  rewrite Hk in E1. congruence.
Qed.

Lemma filter_length_le_1 {A B} (f : A -> B) (P : A -> Prop)
    `{forall x, Decision (P x)} (l : list A) :
  NoDup (f <$> l) ->
  (forall x y, x ∈ l -> y ∈ l -> P x -> P y -> f x = f y) ->
  (length (filter P l) <= 1)%nat.
Proof.
  induction l as [|a l IH]; csimpl; [lia|].
  intros [Ha Hnd]%NoDup_cons Hsame.
  rewrite filter_cons. destruct (decide (P a)) as [HPa|HPa].
  - assert (filter P l = []) as ->; [|simpl; lia].
    destruct (filter P l) as [|y ys] eqn:Hf; [done|].
    assert (y ∈ filter P l) as [HPy Hy]%list_elem_of_filter.
    { rewrite Hf. apply elem_of_cons. by left. }
    exfalso. apply Ha. rewrite (Hsame a y); [|apply elem_of_cons; by left
      |apply elem_of_cons; by right|done|done].
    apply list_elem_of_fmap. by exists y.
  - apply IH; [done|]. intros x y Hx Hy. apply Hsame; apply elem_of_cons; by right.
Qed.

Lemma consistent_at_most_one st k :
  consistent st -> (length (outstanding st k) <= 1)%nat.
Proof.
  intros Hc. unfold outstanding.
  apply (filter_length_le_1 rq_handle); [apply Hc|].
  intros x y Hx Hy Hkx Hky. apply (consistent_key_inj st); [done..|congruence].
Qed.

Lemma consistent_registered_one st k h :
  consistent st -> inFlightRequests st !! k = Some h ->
  length (outstanding st k) = 1%nat.
Proof.
  intros Hc Hfl. pose proof (consistent_at_most_one st k Hc) as Hle.
  destruct (cons_outstanding st Hc k h Hfl) as (rq & Hin & Hk & _).
  assert (rq ∈ outstanding st k) as Hout.
  { apply list_elem_of_filter. done. }
  destruct (outstanding st k); [by apply elem_of_nil in Hout|simpl in *; lia].
Qed.

Section ClientFacts.

Variable encodeURIComponent : string -> string.
Variable urlSearchParamsToString : list (string * string) -> string.
Variable Date : Type.
Variable parseCtaDate : string -> option Date.
Variable toISOString : Date -> string.

Local Abbreviation call := (callBusApi encodeURIComponent urlSearchParamsToString).
Local Abbreviation prep := (prepare encodeURIComponent).
Local Abbreviation process := (processResponse Date parseCtaDate toISOString).
Local Abbreviation dlv := (deliver Date parseCtaDate toISOString).
Local Abbreviation stp :=
  (step encodeURIComponent urlSearchParamsToString Date parseCtaDate toISOString).
Local Abbreviation runs :=
  (run encodeURIComponent urlSearchParamsToString Date parseCtaDate toISOString).

Lemma consistent_call cfg st options now :
  consistent st -> consistent (call cfg st options now).1.
Proof.
  intros Hc. unfold callBusApi.
  destruct (prep cfg options) as [e|p]; [done|].
  destruct (cacheLookup st p now); [done|].
  destruct (inFlightRequests st !! pr_cacheKey p) as [h|] eqn:Hfl; [done|].
  assert (forall rq, rq ∈ network st -> rq_key rq <> pr_cacheKey p) as Hkey.
  { intros rq Hin Heq. pose proof (cons_registered st Hc rq Hin) as E.
    rewrite Heq in E. congruence. }
  split; simpl.
  - csimpl. apply NoDup_cons. split; [|apply Hc].
    intros (rq & Hh & Hin)%list_elem_of_fmap.
    pose proof (cons_fresh st Hc rq Hin). lia.
  - intros rq [->|Hin]%elem_of_cons.
    + apply lookup_insert_eq.
    + rewrite lookup_insert_ne; [by apply Hc|]. intros Heq. by apply (Hkey rq).
  - intros k h. destruct (decide (pr_cacheKey p = k)) as [<-|Hne].
    + rewrite lookup_insert_eq. intros [= <-].
      eexists. split; [apply elem_of_cons; by left|done].
    + rewrite lookup_insert_ne by done. intros Hk.
      destruct (cons_outstanding st Hc k h Hk) as (rq & Hin & Hk' & Hh).
      exists rq. split; [apply elem_of_cons; by right|done].
  - intros rq [->|Hin]%elem_of_cons; simpl; [lia|].
    pose proof (cons_fresh st Hc rq Hin). lia.
  - intros rq [->|Hin]%elem_of_cons; simpl; [|by apply Hc].
    destruct (settled st !! nextHandle st) eqn:Hs; [|done].
    assert (nextHandle st < nextHandle st)%nat; [|lia].
    apply (cons_settled st Hc). by eexists.
  - intros h Hs. pose proof (cons_settled st Hc h Hs). lia.
Qed.

Lemma consistent_settle st rq rest outcome write :
  consistent st -> network st ≡ₚ rq :: rest ->
  consistent (settle st rq rest outcome write).
Proof.
  intros Hc Hperm.
  assert (NoDup (rq_handle <$> rq :: rest)) as Hnd.
  { rewrite <- Hperm. apply Hc. }
  csimpl in Hnd. apply NoDup_cons in Hnd as [Hrq Hnd].
  assert (forall r, r ∈ rest -> r ∈ network st) as Hsub.
  { intros r Hr. rewrite Hperm. apply elem_of_cons. by right. }
  assert (rq ∈ network st) as Hrqin.
  { rewrite Hperm. apply elem_of_cons. by left. }
  assert (forall r, r ∈ rest -> rq_handle r <> rq_handle rq) as Hh.
  { intros r Hr Heq. apply Hrq. rewrite <- Heq. apply list_elem_of_fmap. by exists r. }
  assert (forall r, r ∈ rest -> rq_key r <> rq_key rq) as Hk.
  { intros r Hr Heq. apply (Hh r Hr).
    by apply (consistent_key_inj st); auto. }
  split; simpl.
  - done.
  - intros r Hr. rewrite lookup_delete_ne; [by apply Hc, Hsub|].
    intros Heq. by apply (Hk r Hr).
  - intros k h. destruct (decide (rq_key rq = k)) as [<-|Hne].
    + by rewrite lookup_delete_eq.
    + rewrite lookup_delete_ne by done. intros Hfl.
      destruct (cons_outstanding st Hc k h Hfl) as (r & Hin & Hk' & Hh').
      exists r. split; [|done].
      rewrite Hperm in Hin. apply elem_of_cons in Hin as [->|Hin]; [congruence|done].
  - intros r Hr. by apply Hc, Hsub.
  - intros r Hr. rewrite lookup_insert_ne; [by apply Hc, Hsub|].
    intros Heq. by apply (Hh r Hr).
  - intros h. destruct (decide (rq_handle rq = h)) as [<-|Hne].
    + intros _. by apply Hc.
    + rewrite lookup_insert_ne by done. apply Hc.
Qed.

Lemma consistent_deliver st h s now1 now2 :
  consistent st -> consistent (dlv st h s now1 now2).
Proof.
  intros Hc. unfold deliver.
  destruct (pick h (network st)) as [[rq rest]|] eqn:Hp; [|done].
  apply pick_Some in Hp as [Hh Hperm].
  destruct (iteration _ _ s).
  - assert (forall r, r ∈ mkRequest (rq_handle rq) (rq_prepared rq) (rq_url rq)
                          (S (rq_attempt rq)) :: rest ->
              exists r', r' ∈ network st /\ rq_handle r' = rq_handle r
                         /\ rq_key r' = rq_key r) as Hold.
    { intros r [->|Hr]%elem_of_cons.
      - exists rq. split; [|done]. rewrite Hperm. apply elem_of_cons. by left.
      - exists r. split; [|done]. rewrite Hperm. apply elem_of_cons. by right. }
    split; simpl.
    + csimpl. change (NoDup (rq_handle <$> rq :: rest)).
      rewrite <- Hperm. apply Hc.
    + intros r Hr. destruct (Hold r Hr) as (r' & Hin & <- & <-). by apply Hc.
    + intros k h' Hfl.
      destruct (cons_outstanding st Hc k h' Hfl) as (r & Hin & Hk & Hh').
      rewrite Hperm in Hin. apply elem_of_cons in Hin as [->|Hin].
      * eexists. split; [apply elem_of_cons; by left|done].
      * exists r. split; [apply elem_of_cons; by right|done].
    + intros r Hr. destruct (Hold r Hr) as (r' & Hin & <- & _). by apply Hc.
    + intros r Hr. destruct (Hold r Hr) as (r' & Hin & <- & _). by apply Hc.
    + apply Hc.
  - destruct (process (rq_prepared rq) r now1 now2) as [outcome write].
    by apply consistent_settle.
  - by apply consistent_settle.
Qed.

Lemma consistent_step cfg st ev :
  consistent st -> consistent (stp cfg st ev).
Proof.
  intros Hc. destruct ev as [options now|h s now1 now2|predicate]; simpl.
  - by apply consistent_call.
  - by apply consistent_deliver.
  - destruct Hc. by split.
Qed.

Lemma consistent_run cfg events : consistent (runs cfg events).
Proof.
  unfold run. generalize consistent_initial. generalize initialState.
  induction events as [|ev events IH]; intros st Hc; simpl; [done|].
  apply IH. by apply consistent_step.
Qed.

Lemma pick_not_in h reqs : h ∉ rq_handle <$> reqs -> pick h reqs = None.
Proof.
  induction reqs as [|r reqs IH]; csimpl; [done|].
  intros Hnin. destruct (decide (rq_handle r = h)) as [Heq|Hne].
  - exfalso. apply Hnin, elem_of_cons. by left.
  - rewrite IH; [done|]. intros Hin. apply Hnin, elem_of_cons. by right.
Qed.

(** A caller that reaches the registry while a request for its key is
    registered gets that request's promise; nothing else happens. *)
Lemma cacheLookup_Some st p now cached :
  cacheLookup st p now = Some cached <->
  0 < pr_cacheTtlMs p
  /\ responseCache st !! pr_cacheKey p = Some cached
  /\ now < expiresAt cached.
Proof.
  unfold cacheLookup.
  destruct (0 <? pr_cacheTtlMs p) eqn:Httl.
  - apply Z.ltb_lt in Httl.
    destruct (responseCache st !! pr_cacheKey p) as [c|].
    + destruct (now <? expiresAt c) eqn:Hexp.
      * apply Z.ltb_lt in Hexp. split.
        -- by intros [= <-].
        -- by intros (_ & [= ->] & _).
      * apply Z.ltb_ge in Hexp. split; [done|]. intros (_ & [= ->] & ?). lia.
    + split; [done|]. by intros (_ & ? & _).
  - apply Z.ltb_ge in Httl. split; [done|]. intros (? & _). lia.
Qed.

Lemma call_joins cfg st options now p h :
  prep cfg options = inr p ->
  cacheLookup st p now = None ->
  inFlightRequests st !! pr_cacheKey p = Some h ->
  call cfg st options now = (st, Awaits h).
Proof. intros Hp Hc Hfl. unfold callBusApi. by rewrite Hp, Hc, Hfl. Qed.

(** A caller that finds neither a cache entry nor a registered request
    launches one request: one [fetch], one registry entry, a fresh pending
    promise. *)
Lemma call_launches cfg st options now p :
  consistent st ->
  prep cfg options = inr p ->
  cacheLookup st p now = None ->
  inFlightRequests st !! pr_cacheKey p = None ->
  exists st',
    call cfg st options now = (st', Awaits (nextHandle st))
    /\ inFlightRequests st' = <[pr_cacheKey p := nextHandle st]> (inFlightRequests st)
    /\ fetchedOnce st st' (pr_cacheKey p)
    /\ length (outstanding st' (pr_cacheKey p)) = 1%nat
    /\ settled st' !! nextHandle st = None
    /\ responseCache st' = responseCache st.
Proof.
  intros Hcons Hp Hc Hfl. unfold callBusApi. rewrite Hp, Hc, Hfl.
  eexists. split; [reflexivity|]. simpl. split_and!; try done.
  - by eexists.
  - unfold outstanding; simpl. rewrite filter_cons_True by done. simpl. f_equal.
    destruct (filter _ (network st)) as [|r rs] eqn:Hf; [done|].
    assert (r ∈ filter (fun rq => rq_key rq = pr_cacheKey p) (network st))
      as [Hk Hin]%list_elem_of_filter.
    { rewrite Hf. apply elem_of_cons. by left. }
    pose proof (cons_registered st Hcons r Hin) as E. rewrite Hk in E. congruence.
  - destruct (settled st !! nextHandle st) eqn:Hs; [|done].
    assert (nextHandle st < nextHandle st)%nat; [|lia].
    apply (cons_settled st Hcons). by eexists.
Qed.

Lemma settle_facts st rq rest outcome write :
  consistent st -> network st ≡ₚ rq :: rest ->
  let st' := settle st rq rest outcome write in
  inFlightRequests st' = delete (rq_key rq) (inFlightRequests st)
  /\ settled st' !! rq_handle rq = Some outcome
  /\ outstanding st' (rq_key rq) = []
  /\ pick (rq_handle rq) (network st') = None.
Proof.
  intros Hc Hperm. simpl.
  assert (NoDup (rq_handle <$> rq :: rest)) as Hnd.
  { rewrite <- Hperm. apply Hc. }
  csimpl in Hnd. apply NoDup_cons in Hnd as [Hrq Hnd].
  split_and!; [done|apply lookup_insert_eq| |by apply pick_not_in].
  unfold outstanding; simpl.
  destruct (filter _ rest) as [|r rs] eqn:Hf; [done|].
  assert (r ∈ filter (fun r => rq_key r = rq_key rq) rest)
    as [Hk Hin]%list_elem_of_filter.
  { rewrite Hf. apply elem_of_cons. by left. }
  exfalso. apply Hrq.
  rewrite <- (consistent_key_inj st r rq Hc); [apply list_elem_of_fmap; by exists r| | |done].
  - rewrite Hperm. apply elem_of_cons. by right.
  - rewrite Hperm. apply elem_of_cons. by left.
Qed.

(** What the arrival of an attempt's result does to the registry: a retry
    leaves the entry in place with one [fetch] outstanding; a settlement,
    by success or by failure, removes the entry, gives the promise its
    outcome, and leaves nothing that could settle again. *)
Lemma deliver_facts st rq s now1 now2 :
  consistent st -> rq ∈ network st ->
  let st' := dlv st (rq_handle rq) s now1 now2 in
  match iteration (rq_attempt rq) (pr_maxRetries (rq_prepared rq)) s with
  | Continue =>
      inFlightRequests st' = inFlightRequests st
      /\ settled st' = settled st
      /\ length (outstanding st' (rq_key rq)) = 1%nat
      /\ fetchedOnce st st' (rq_key rq)
  | _ =>
      inFlightRequests st' = delete (rq_key rq) (inFlightRequests st)
      /\ is_Some (settled st' !! rq_handle rq)
      /\ outstanding st' (rq_key rq) = []
      /\ dlv st' (rq_handle rq) s now1 now2 = st'
  end.
Proof.
  intros Hc Hin. simpl.
  pose proof (consistent_deliver st (rq_handle rq) s now1 now2 Hc) as Hc'.
  revert Hc'. unfold deliver.
  destruct (pick_elem_of rq (network st) Hin (cons_nodup st Hc)) as [rest Hp].
  rewrite Hp. pose proof (pick_Some _ _ _ _ Hp) as [_ Hperm].
  destruct (iteration _ _ s) as [|r|e].
  - intros Hc'. split_and!; try done; [|by eexists].
    pose proof (consistent_at_most_one _ (rq_key rq) Hc') as Hle.
    unfold outstanding in *; simpl in *.
    rewrite filter_cons_True in * by done. simpl in *.
    destruct (filter _ rest); simpl in *; [done|lia].
  - intros _. destruct (process (rq_prepared rq) r now1 now2) as [outcome write].
    destruct (settle_facts st rq rest outcome write Hc Hperm) as (H1 & H2 & H3 & H4).
    split_and!; [done|by eexists|done|]. by rewrite H4.
  - intros _.
    destruct (settle_facts st rq rest (Rejected e) None Hc Hperm) as (H1 & H2 & H3 & H4).
    split_and!; [done|by eexists|done|]. by rewrite H4.
Qed.

(** A promise is given its outcome once: no later step changes it. *)
Lemma settled_stable cfg st ev h outcome :
  consistent st ->
  settled st !! h = Some outcome ->
  settled (stp cfg st ev) !! h = Some outcome.
Proof.
  intros Hc Hs. destruct ev as [options now|h' s now1 now2|predicate]; simpl.
  - unfold callBusApi. destruct (prep cfg options) as [e|p]; [done|].
    destruct (cacheLookup st p now); [done|].
    by destruct (inFlightRequests st !! pr_cacheKey p).
  - unfold deliver.
    destruct (pick h' (network st)) as [[rq rest]|] eqn:Hp; [|done].
    apply pick_Some in Hp as [_ Hperm].
    assert (rq_handle rq <> h) as Hne.
    { intros <-. rewrite (cons_pending st Hc rq) in Hs; [done|].
      rewrite Hperm. apply elem_of_cons. by left. }
    destruct (iteration _ _ s); [done| |]; simpl.
    + destruct (process (rq_prepared rq) r now1 now2) as [o w]. simpl.
      by rewrite lookup_insert_ne.
    + by rewrite lookup_insert_ne.
  - done.
Qed.

(** C1, amended. In every state the client reaches: at most one request,
    hence one [fetch], is outstanding per cache key, and the registry holds
    exactly the keys with an outstanding request; a call that arrives while
    its key is registered starts nothing and changes nothing; it receives
    the registered promise, the one the launching caller received, unless
    its own TTL is positive and the cache holds an entry for the key that
    has not expired, in which case it is answered from that entry as any
    other call would be; a promise gets its outcome once, result or error,
    so everyone who holds it sees the same; and the registry entry is
    removed when, and only when, the request settles, by success or by
    failure, after which it cannot settle again. *)
Theorem single_flight cfg (events : list Event) :
  let st := runs cfg events in
  (forall k, (length (outstanding st k) <= 1)%nat)
  /\ (forall k h, inFlightRequests st !! k = Some h <->
        exists rq, rq ∈ network st /\ rq_key rq = k /\ rq_handle rq = h)
  /\ (forall options now p h,
        prep cfg options = inr p ->
        inFlightRequests st !! pr_cacheKey p = Some h ->
        call cfg st options now =
          (st, match cacheLookup st p now with
               | Some cached => Returned (toCachedResult cached)
               | None => Awaits h
               end)
        /\ (pr_cacheTtlMs p <= 0 -> call cfg st options now = (st, Awaits h))
        /\ (forall r, call cfg st options now = (st, Returned r) ->
              exists cached,
                0 < pr_cacheTtlMs p
                /\ responseCache st !! pr_cacheKey p = Some cached
                /\ now < expiresAt cached
                /\ r = toCachedResult cached))
  /\ (forall options now p,
        prep cfg options = inr p ->
        cacheLookup st p now = None ->
        inFlightRequests st !! pr_cacheKey p = None ->
        exists st',
          call cfg st options now = (st', Awaits (nextHandle st))
          /\ inFlightRequests st' !! pr_cacheKey p = Some (nextHandle st)
          /\ fetchedOnce st st' (pr_cacheKey p)
          /\ length (outstanding st' (pr_cacheKey p)) = 1%nat
          /\ settled st' !! nextHandle st = None)
  /\ (forall rq s now1 now2,
        rq ∈ network st ->
        let st' := dlv st (rq_handle rq) s now1 now2 in
        match iteration (rq_attempt rq) (pr_maxRetries (rq_prepared rq)) s with
        | Continue =>
            inFlightRequests st' = inFlightRequests st
            /\ settled st' = settled st
            /\ length (outstanding st' (rq_key rq)) = 1%nat
            /\ fetchedOnce st st' (rq_key rq)
        | _ =>
            inFlightRequests st' = delete (rq_key rq) (inFlightRequests st)
            /\ is_Some (settled st' !! rq_handle rq)
            /\ outstanding st' (rq_key rq) = []
            /\ dlv st' (rq_handle rq) s now1 now2 = st'
        end)
  /\ (forall h outcome ev,
        settled st !! h = Some outcome ->
        settled (stp cfg st ev) !! h = Some outcome).
Proof.
  intros st. pose proof (consistent_run cfg events) as Hc. fold st in Hc.
  split_and!.
  - intros k. by apply consistent_at_most_one.
  - intros k h. split; [apply Hc|].
    intros (rq & Hin & <- & <-). by apply Hc.
  - intros options now p h Hp Hfl.
    assert (call cfg st options now =
              (st, match cacheLookup st p now with
                   | Some cached => Returned (toCachedResult cached)
                   | None => Awaits h
                   end)) as Hcall.
    { unfold callBusApi. rewrite Hp, Hfl. by destruct (cacheLookup st p now). }
    split_and!; [done| |].
    + intros Httl. apply (call_joins cfg st options now p h); [done| |done].
      unfold cacheLookup. by rewrite (proj2 (Z.ltb_ge 0 (pr_cacheTtlMs p))).
    + intros r. rewrite Hcall.
      destruct (cacheLookup st p now) as [cached|] eqn:Hl; [|done].
      intros [= <-]. exists cached.
      apply cacheLookup_Some in Hl as (? & ? & ?). done.
  - intros options now p Hp Hl Hfl.
    destruct (call_launches cfg st options now p Hc Hp Hl Hfl)
      as (st' & H1 & H2 & H3 & H4 & H5 & _).
    exists st'. split_and!; try done. rewrite H2. apply lookup_insert_eq.
  - intros rq s now1 now2 Hin. by apply deliver_facts.
  - intros h outcome ev. by apply settled_stable.
Qed.

(** ** The cache *)

(** C10. The result of a cache hit is the stored result with
    [servedFromCache] set: the payload is the stored payload and every other
    field of the metadata is the stored one. Whenever [callBusApi] answers
    from the cache, its answer is [toCachedResult] of the entry stored under
    the request's key, and the state is left as it was. *)
Theorem cache_hit_frame :
  (forall entry : CacheEntry,
     let r := toCachedResult entry in
     payload r = payload (value entry)
     /\ meta_endpoint (meta r) = meta_endpoint (meta (value entry))
     /\ meta_params (meta r) = meta_params (meta (value entry))
     /\ meta_cacheKey (meta r) = meta_cacheKey (meta (value entry))
     /\ meta_cacheTtlMs (meta r) = meta_cacheTtlMs (meta (value entry))
     /\ meta_cacheExpiresAt (meta r) = meta_cacheExpiresAt (meta (value entry))
     /\ meta_sourceTimestamp (meta r) = meta_sourceTimestamp (meta (value entry))
     /\ meta_reason (meta r) = meta_reason (meta (value entry))
     /\ meta_servedFromCache (meta r) = true)
  /\ (forall cfg st options now st' r,
        call cfg st options now = (st', Returned r) ->
        st' = st
        /\ exists p entry,
             prep cfg options = inr p
             /\ responseCache st !! pr_cacheKey p = Some entry
             /\ r = toCachedResult entry).
Proof.
  split.
  - intros entry. simpl. by split_and!.
  - intros cfg st options now st' r. unfold callBusApi.
    destruct (prep cfg options) as [e|p] eqn:Hp; [done|].
    destruct (cacheLookup st p now) as [cached|] eqn:Hl.
    + intros [= <- <-]. split; [done|]. exists p, cached.
      apply cacheLookup_Some in Hl as (_ & Hc & _). done.
    + by destruct (inFlightRequests st !! pr_cacheKey p).
Qed.

(** C5, amended. For a request with a positive TTL and an entry stored under its
    key: while the entry's expiry lies ahead, [callBusApi] returns the
    stored payload with [servedFromCache] set and changes nothing, so no
    [fetch] is issued; once the expiry has been reached the entry is
    ignored, and the caller awaits the one request then outstanding for the
    key, which the call launches with exactly one [fetch] unless a request
    for the key is registered already. *)
Theorem cache_honoring cfg st options now p cached :
  consistent st ->
  prep cfg options = inr p ->
  0 < pr_cacheTtlMs p ->
  responseCache st !! pr_cacheKey p = Some cached ->
  (now < expiresAt cached ->
     call cfg st options now = (st, Returned (toCachedResult cached))
     /\ payload (toCachedResult cached) = payload (value cached)
     /\ meta_servedFromCache (meta (toCachedResult cached)) = true)
  /\ (expiresAt cached <= now ->
        cacheLookup st p now = None
        /\ exists st' h,
             call cfg st options now = (st', Awaits h)
             /\ inFlightRequests st' !! pr_cacheKey p = Some h
             /\ length (outstanding st' (pr_cacheKey p)) = 1%nat
             /\ responseCache st' = responseCache st
             /\ match inFlightRequests st !! pr_cacheKey p with
                | None => fetchedOnce st st' (pr_cacheKey p)
                | Some _ => st' = st
                end).
Proof.
  intros Hcons Hp Httl Hc. split.
  - intros Hnow.
    assert (cacheLookup st p now = Some cached) as Hl.
    { by apply cacheLookup_Some. }
    unfold callBusApi. by rewrite Hp, Hl.
  - intros Hnow.
    assert (cacheLookup st p now = None) as Hl.
    { destruct (cacheLookup st p now) as [c|] eqn:Hl; [|done].
      apply cacheLookup_Some in Hl as (_ & Hc' & Hlt).
      rewrite Hc in Hc'. injection Hc' as <-. lia. }
    split; [done|].
    destruct (inFlightRequests st !! pr_cacheKey p) as [h|] eqn:Hfl.
    + exists st, h. split_and!; try done.
      * by apply (call_joins cfg st options now p h).
      * by apply (consistent_registered_one st _ h).
    + destruct (call_launches cfg st options now p Hcons Hp Hl Hfl)
        as (st' & H1 & H2 & H3 & H4 & H5 & H6).
      exists st', (nextHandle st). split_and!; try done.
      rewrite H2. apply lookup_insert_eq.
Qed.

(** ** Classification of the upstream body *)

Lemma firstSoftPattern_Some patterns msg reason :
  firstSoftPattern patterns msg = Some reason ->
  exists pat, pat ∈ patterns /\ regexp_test (soft_test pat) msg = true
              /\ reason = soft_reason pat.
Proof.
  induction patterns as [|pat rest IH]; simpl; [done|].
  destruct (regexp_test (soft_test pat) msg) eqn:Ht.
  - intros [= <-]. exists pat. split; [apply elem_of_cons; by left|done].
  - intros (pat' & Hin & H)%IH. exists pat'.
    split; [apply elem_of_cons; by right|done].
Qed.

Lemma firstSoftPattern_match patterns msg pat :
  pat ∈ patterns -> regexp_test (soft_test pat) msg = true ->
  is_Some (firstSoftPattern patterns msg).
Proof.
  induction patterns as [|pat' rest IH]; simpl; [by intros ?%elem_of_nil|].
  intros [->|Hin]%elem_of_cons Ht.
  - rewrite Ht. by eexists.
  - destruct (regexp_test (soft_test pat') msg); [by eexists|by apply IH].
Qed.

Lemma soft_pattern_facts pat :
  pat ∈ SOFT_ERROR_PATTERNS ->
  regexp_test (soft_test pat) "" = false /\ Str.truthy (soft_reason pat) = true.
Proof.
  unfold SOFT_ERROR_PATTERNS.
  rewrite !elem_of_cons. intros Hin.
  repeat (destruct Hin as [->|Hin]; [by split|]). by apply elem_of_nil in Hin.
Qed.

Lemma classifySoftError_cons err rest :
  classifySoftError (err :: rest) =
    match raw_msg err with
    | Some msg =>
        if Str.truthy msg then
          match firstSoftPattern SOFT_ERROR_PATTERNS msg with
          | Some reason => Some reason
          | None => classifySoftError rest
          end
        else classifySoftError rest
    | None => classifySoftError rest
    end.
Proof. cbn [classifySoftError]. by destruct (raw_msg err). Qed.

Lemma classifySoftError_Some errors reason :
  classifySoftError errors = Some reason ->
  exists err msg pat,
    err ∈ errors /\ raw_msg err = Some msg /\ pat ∈ SOFT_ERROR_PATTERNS
    /\ regexp_test (soft_test pat) msg = true /\ reason = soft_reason pat.
Proof.
  induction errors as [|err rest IH]; [done|].
  rewrite classifySoftError_cons.
  assert (classifySoftError rest = Some reason ->
          exists err0 msg pat,
            err0 ∈ err :: rest /\ raw_msg err0 = Some msg
            /\ pat ∈ SOFT_ERROR_PATTERNS
            /\ regexp_test (soft_test pat) msg = true
            /\ reason = soft_reason pat) as Hrest.
  { intros (err0 & msg & pat & Hin & H)%IH. exists err0, msg, pat.
    split; [apply elem_of_cons; by right|done]. }
  destruct (raw_msg err) as [msg|] eqn:Hmsg; [|exact Hrest].
  destruct (Str.truthy msg); [|exact Hrest].
  destruct (firstSoftPattern SOFT_ERROR_PATTERNS msg) as [reason'|] eqn:Hf;
    [|exact Hrest].
  intros [= <-]. apply firstSoftPattern_Some in Hf as (pat & Hin & Ht & ->).
  exists err, msg, pat. split; [apply elem_of_cons; by left|done].
Qed.

Lemma classifySoftError_match errors err msg pat :
  err ∈ errors -> raw_msg err = Some msg -> pat ∈ SOFT_ERROR_PATTERNS ->
  regexp_test (soft_test pat) msg = true ->
  is_Some (classifySoftError errors).
Proof.
  intros Hin Hmsg Hpat Ht.
  induction errors as [|err' rest IH]; [by apply elem_of_nil in Hin|].
  rewrite classifySoftError_cons.
  apply elem_of_cons in Hin as [<-|Hin].
  - rewrite Hmsg.
    assert (Str.truthy msg = true) as ->.
    { destruct msg; [|done]. destruct (soft_pattern_facts pat Hpat). congruence. }
    destruct (firstSoftPattern_match SOFT_ERROR_PATTERNS msg pat Hpat Ht) as [r ->].
    by eexists.
  - destruct (raw_msg err'); [|by apply IH].
    destruct (Str.truthy _); [|by apply IH].
    destruct (firstSoftPattern _ _); [by eexists|by apply IH].
Qed.

Lemma iteration_ok attempt maxRetries response :
  resp_ok response = true ->
  iteration attempt maxRetries (Resolved response) = Return response.
Proof. intros Hok. unfold iteration. by rewrite Hok. Qed.

(** What the body of the request stores: an entry exactly when the TTL is
    positive and the outcome is a result, and then that very result. *)
Lemma processResponse_write p response now1 now2 :
  match process p response now1 now2 with
  | (Fulfilled r, Some entry) =>
      0 < pr_cacheTtlMs p /\ entry = mkEntry r (now2 + pr_cacheTtlMs p)
  | (Fulfilled r, None) => pr_cacheTtlMs p <= 0
  | (Rejected _, Some _) => False
  | (Rejected _, None) => True
  end.
Proof.
  unfold processResponse.
  destruct (resp_json response) as [err|[envelope|]]; [done| |done].
  destruct (pl_error envelope) as [[|first rest]|].
  - destruct (0 <? pr_cacheTtlMs p) eqn:Httl; [apply Z.ltb_lt in Httl|apply Z.ltb_ge in Httl]; done.
  - destruct (negb (Str.truthy_opt (classifySoftError (first :: rest)))); [done|].
    destruct (0 <? pr_cacheTtlMs p) eqn:Httl; [apply Z.ltb_lt in Httl|apply Z.ltb_ge in Httl]; done.
  - destruct (0 <? pr_cacheTtlMs p) eqn:Httl; [apply Z.ltb_lt in Httl|apply Z.ltb_ge in Httl]; done.
Qed.

(** A result carries the request's own key and normalized parameters. *)
Lemma processResponse_meta p response now1 now2 r :
  (process p response now1 now2).1 = Fulfilled r ->
  meta_cacheKey (meta r) = pr_cacheKey p
  /\ meta_params (meta r) = pr_normalizedParams p
  /\ meta_endpoint (meta r) = pr_endpoint p
  /\ meta_servedFromCache (meta r) = false.
Proof.
  unfold processResponse.
  destruct (resp_json response) as [err|[envelope|]]; [done| |done].
  destruct (pl_error envelope) as [[|first rest]|].
  - by intros [= <-].
  - destruct (negb (Str.truthy_opt (classifySoftError (first :: rest)))); [done|].
    by intros [= <-].
  - by intros [= <-].
Qed.

(** The body of the request on a soft error. *)
Lemma processResponse_soft p response now1 now2 envelope errors :
  resp_json response = inr (Some envelope) ->
  pl_error envelope = Some errors ->
  is_Some (classifySoftError errors) ->
  exists r reason,
    (process p response now1 now2).1 = Fulfilled r
    /\ classifySoftError errors = Some reason
    /\ payload r = mkPayload (pl_tmst envelope) None (pl_fields envelope)
    /\ meta_reason (meta r) = Some reason.
Proof.
  intros Hj He [reason Hs]. unfold processResponse. rewrite Hj, He.
  destruct errors as [|first rest]; [done|]. rewrite Hs.
  destruct (classifySoftError_Some _ _ Hs) as (err & msg & pat & _ & _ & Hpat & _ & ->).
  cbn [Str.truthy_opt]. destruct (soft_pattern_facts pat Hpat) as [_ ->].
  by eexists _, _.
Qed.

(** C6. When the body of an accepted response carries an [error] array in
    which some message matches a soft pattern, the request settles with a
    result, not an error: the payload is the envelope without its [error]
    member, and [meta.reason] is the explanation of a pattern of the table
    that matches a message of the array (the first match, in array order and
    then table order). *)
Theorem soft_error_is_success st h rq rest response envelope errors now1 now2 :
  pick h (network st) = Some (rq, rest) ->
  resp_ok response = true ->
  resp_json response = inr (Some envelope) ->
  pl_error envelope = Some errors ->
  (exists err msg pat,
     err ∈ errors /\ raw_msg err = Some msg /\ pat ∈ SOFT_ERROR_PATTERNS
     /\ regexp_test (soft_test pat) msg = true) ->
  exists r err msg pat,
    settled (dlv st h (Resolved response) now1 now2) !! h = Some (Fulfilled r)
    /\ payload r = mkPayload (pl_tmst envelope) None (pl_fields envelope)
    /\ classifySoftError errors = Some (soft_reason pat)
    /\ meta_reason (meta r) = Some (soft_reason pat)
    /\ err ∈ errors /\ raw_msg err = Some msg /\ pat ∈ SOFT_ERROR_PATTERNS
    /\ regexp_test (soft_test pat) msg = true.
Proof.
  intros Hp Hok Hj He (err & msg & pat & Hin & Hmsg & Hpat & Ht).
  pose proof (classifySoftError_match errors err msg pat Hin Hmsg Hpat Ht) as Hsome.
  destruct (processResponse_soft (rq_prepared rq) response now1 now2 envelope
              errors Hj He Hsome) as (r & reason & Hr & Hs & Hpl & Hreason).
  destruct (classifySoftError_Some errors reason Hs)
    as (err' & msg' & pat' & Hin' & Hmsg' & Hpat' & Ht' & ->).
  exists r, err', msg', pat'. split_and!; try done.
  unfold deliver. rewrite Hp. rewrite (iteration_ok _ _ _ Hok).
  destruct (process (rq_prepared rq) response now1 now2) as [outcome write].
  simpl in Hr. subst outcome. simpl.
  apply pick_Some in Hp as [<- _]. apply lookup_insert_eq.
Qed.

Lemma effects_not_self (e : Effect) (l : list Effect) : l <> e :: l.
Proof. intros Heq. apply (f_equal length) in Heq. simpl in Heq. lia. Qed.

Lemma deliver_writes st h s now1 now2 rq rest response r :
  pick h (network st) = Some (rq, rest) ->
  iteration (rq_attempt rq) (pr_maxRetries (rq_prepared rq)) s = Return response ->
  (process (rq_prepared rq) response now1 now2).1 = Fulfilled r ->
  0 < pr_cacheTtlMs (rq_prepared rq) ->
  effects (dlv st h s now1 now2) =
    CacheSet (rq_key rq) (mkEntry r (now2 + pr_cacheTtlMs (rq_prepared rq)))
      :: effects st
  /\ responseCache (dlv st h s now1 now2) =
       <[rq_key rq := mkEntry r (now2 + pr_cacheTtlMs (rq_prepared rq))]>
         (responseCache st).
Proof.
  intros Hp Hit Hr Httl. unfold deliver. rewrite Hp, Hit.
  pose proof (processResponse_write (rq_prepared rq) response now1 now2) as Hw.
  destruct (process (rq_prepared rq) response now1 now2) as [outcome write].
  simpl in Hr. subst outcome.
  destruct write as [entry|]; [|lia].
  destruct Hw as [_ ->]. done.
Qed.

(** C4, amended. A step of the client stores a cache entry exactly when it
    is the settlement, with a result (a soft "no data" result included), of
    a request whose TTL is positive; the entry is then that result, stored
    under the request's key. Calls, retries, settlements with an error and
    settlements of requests without a positive TTL store nothing: after
    such a step the cache holds no entry it did not hold before. *)
Theorem cache_write_iff cfg st ev :
  let st' := stp cfg st ev in
  (wrote st st' <->
   exists h s now1 now2 rq rest response r,
     ev = EDeliver h s now1 now2
     /\ pick h (network st) = Some (rq, rest)
     /\ iteration (rq_attempt rq) (pr_maxRetries (rq_prepared rq)) s
        = Return response
     /\ (process (rq_prepared rq) response now1 now2).1 = Fulfilled r
     /\ 0 < pr_cacheTtlMs (rq_prepared rq))
  /\ (forall h s now1 now2 rq rest response r,
        ev = EDeliver h s now1 now2 ->
        pick h (network st) = Some (rq, rest) ->
        iteration (rq_attempt rq) (pr_maxRetries (rq_prepared rq)) s
          = Return response ->
        (process (rq_prepared rq) response now1 now2).1 = Fulfilled r ->
        0 < pr_cacheTtlMs (rq_prepared rq) ->
        effects st' =
          CacheSet (rq_key rq) (mkEntry r (now2 + pr_cacheTtlMs (rq_prepared rq)))
            :: effects st
        /\ responseCache st' =
             <[rq_key rq := mkEntry r (now2 + pr_cacheTtlMs (rq_prepared rq))]>
               (responseCache st))
  /\ (~ wrote st st' ->
      forall k entry,
        responseCache st' !! k = Some entry ->
        responseCache st !! k = Some entry).
Proof.
  simpl. split_and!.
  - split.
    + intros (key & entry & Heff).
      destruct ev as [options now|h s now1 now2|predicate]; simpl in Heff.
      * exfalso. revert Heff. unfold callBusApi.
        destruct (prep cfg options) as [e|p]; simpl; [apply effects_not_self|].
        destruct (cacheLookup st p now); simpl; [apply effects_not_self|].
        destruct (inFlightRequests st !! pr_cacheKey p); simpl;
          [apply effects_not_self|done].
      * revert Heff. simpl. unfold deliver.
        destruct (pick h (network st)) as [[rq rest]|] eqn:Hp;
          [|intros Heff; exfalso; by apply effects_not_self in Heff].
        destruct (iteration _ _ s) as [|response|e] eqn:Hit; simpl.
        -- done.
        -- pose proof (processResponse_write (rq_prepared rq) response now1 now2)
             as Hw.
           destruct (process (rq_prepared rq) response now1 now2)
             as [outcome write] eqn:Hproc.
           destruct outcome as [r|e], write as [entry'|]; simpl;
             try (intros Heff; exfalso; by apply effects_not_self in Heff);
             try done.
           destruct Hw as [Httl ->]. intros _.
           exists h, s, now1, now2, rq, rest, response, r.
           rewrite Hproc. by split_and!.
        -- intros Heff; exfalso; by apply effects_not_self in Heff.
      * exfalso. by apply effects_not_self in Heff.
    + intros (h & s & now1 & now2 & rq & rest & response & r
              & -> & Hp & Hit & Hr & Httl).
      destruct (deliver_writes st h s now1 now2 rq rest response r Hp Hit Hr Httl)
        as [Heff _].
      by eexists _, _.
  - intros h s now1 now2 rq rest response r -> Hp Hit Hr Httl.
    exact (deliver_writes st h s now1 now2 rq rest response r Hp Hit Hr Httl).
  - intros Hno k entry.
    destruct ev as [options now|h s now1 now2|predicate]; simpl.
    + unfold callBusApi.
      destruct (prep cfg options) as [e|p]; simpl; [done|].
      destruct (cacheLookup st p now); simpl; [done|].
      by destruct (inFlightRequests st !! pr_cacheKey p).
    + simpl in Hno. revert Hno. unfold deliver.
      destruct (pick h (network st)) as [[rq rest]|]; [|done].
      destruct (iteration _ _ s) as [|response|e]; simpl; [done| |done].
      destruct (process (rq_prepared rq) response now1 now2) as [outcome write].
      destruct write as [written|]; simpl; [|done].
      intros Hno. exfalso. apply Hno. by eexists _, _.
    + unfold invalidateBusCache; simpl.
      by intros [? _]%map_lookup_filter_Some.
Qed.

(** ** The credential *)

Lemma withDefaults_feed cfg1 cfg2 normalized :
  CTA_BUS_RTPIDATAFEED cfg1 = CTA_BUS_RTPIDATAFEED cfg2 ->
  withDefaults cfg1 normalized = withDefaults cfg2 normalized.
Proof. intros Hfeed. unfold withDefaults. by rewrite Hfeed. Qed.

(** With a credential configured, the values prepared for a call depend on
    the configuration only through the feed name, except for the request
    parameters, which receive the credential under ["key"]. *)
Lemma prepare_public cfg1 cfg2 options :
  CTA_BUS_RTPIDATAFEED cfg1 = CTA_BUS_RTPIDATAFEED cfg2 ->
  Str.truthy_opt (CTA_BUS_TRACKER_API_KEY cfg1) = true ->
  Str.truthy_opt (CTA_BUS_TRACKER_API_KEY cfg2) = true ->
  match prep cfg1 options, prep cfg2 options with
  | inl e1, inl e2 => e1 = e2
  | inr p1, inr p2 => publicPrepared p1 = publicPrepared p2
  | _, _ => False
  end.
Proof.
  intros Hfeed Hk1 Hk2. unfold prepare, ensureApiKey. rewrite Hk1, Hk2.
  destruct (checkRequired _ _ _); [done|].
  unfold publicPrepared; simpl.
  by rewrite (withDefaults_feed cfg1 cfg2 _ Hfeed).
Qed.

Lemma prepare_requestParams cfg options p :
  prep cfg options = inr p ->
  Obj.get "key" (pr_requestParams p) = Some (default "" (CTA_BUS_TRACKER_API_KEY cfg)).
Proof.
  unfold prepare. destruct (ensureApiKey cfg); [done|].
  destruct (checkRequired _ _ _); [done|]. intros [= <-]. simpl.
  rewrite Obj_get_lookup, !Obj_set_map.
  rewrite lookup_insert_ne by done. apply lookup_insert_eq.
Qed.

Lemma processResponse_public p1 p2 response now1 now2 :
  publicPrepared p1 = publicPrepared p2 ->
  process p1 response now1 now2 = process p2 response now1 now2.
Proof.
  intros Heq.
  change (process (publicPrepared p1) response now1 now2
          = process (publicPrepared p2) response now1 now2).
  by rewrite Heq.
Qed.

Lemma pick_public h (reqs : list Request) :
  pick h (publicRequest <$> reqs) =
    (fun found : Request * list Request =>
       (publicRequest found.1, publicRequest <$> found.2))
      <$> pick h reqs.
Proof.
  induction reqs as [|rq reqs IH]; csimpl; [done|].
  destruct (decide (rq_handle rq = h)); [done|].
  rewrite IH. by destruct (pick h reqs) as [[found others]|].
Qed.

Lemma publicState_eq st1 st2 :
  publicState st1 = publicState st2 <->
  responseCache st1 = responseCache st2
  /\ inFlightRequests st1 = inFlightRequests st2
  /\ publicRequest <$> network st1 = publicRequest <$> network st2
  /\ settled st1 = settled st2
  /\ nextHandle st1 = nextHandle st2
  /\ publicEffect <$> effects st1 = publicEffect <$> effects st2.
Proof.
  unfold publicState. split.
  - by intros [= -> -> -> -> -> ->].
  - by intros (-> & -> & -> & -> & -> & ->).
Qed.

Lemma call_public cfg1 cfg2 st1 st2 options now :
  CTA_BUS_RTPIDATAFEED cfg1 = CTA_BUS_RTPIDATAFEED cfg2 ->
  Str.truthy_opt (CTA_BUS_TRACKER_API_KEY cfg1) = true ->
  Str.truthy_opt (CTA_BUS_TRACKER_API_KEY cfg2) = true ->
  publicState st1 = publicState st2 ->
  publicState (call cfg1 st1 options now).1 = publicState (call cfg2 st2 options now).1
  /\ (call cfg1 st1 options now).2 = (call cfg2 st2 options now).2.
Proof.
  intros Hfeed Hk1 Hk2 Hst.
  pose proof (prepare_public cfg1 cfg2 options Hfeed Hk1 Hk2) as Hp.
  unfold callBusApi.
  destruct (prep cfg1 options) as [e1|p1], (prep cfg2 options) as [e2|p2];
    try done; simpl.
  { by subst. }
  pose proof Hst as (Hc & Hfl & Hn & Hs & Hh & He)%publicState_eq.
  assert (pr_cacheKey p1 = pr_cacheKey p2) as Hkey by (by injection Hp).
  assert (cacheLookup st1 p1 now = cacheLookup st2 p2 now) as ->.
  { unfold cacheLookup. rewrite Hc, Hkey.
    by replace (pr_cacheTtlMs p1) with (pr_cacheTtlMs p2) by (by injection Hp). }
  destruct (cacheLookup st2 p2 now); [done|].
  rewrite Hfl, Hkey.
  destruct (inFlightRequests st2 !! pr_cacheKey p2); [done|]. simpl.
  split; [|by rewrite Hh].
  apply publicState_eq; simpl. rewrite ?Hc, ?Hfl, ?Hs, ?Hh, ?Hkey. split_and!; try done.
  - f_equal; [|exact Hn]. unfold publicRequest; simpl. by rewrite Hp.
  - f_equal. exact He.
Qed.

Lemma deliver_public st1 st2 h s now1 now2 :
  publicState st1 = publicState st2 ->
  publicState (dlv st1 h s now1 now2) = publicState (dlv st2 h s now1 now2).
Proof.
  intros Hst.
  pose proof Hst as (Hc & Hfl & Hn & Hs & Hh & He)%publicState_eq.
  unfold deliver.
  pose proof (pick_public h (network st1)) as P1.
  pose proof (pick_public h (network st2)) as P2.
  rewrite Hn, P2 in P1.
  destruct (pick h (network st1)) as [[rq1 rest1]|],
           (pick h (network st2)) as [[rq2 rest2]|]; cbn in P1; try done.
  injection P1 as Hha Hen Hnp Hck Httl Hto Hmr Hat Hrest.
  assert (publicPrepared (rq_prepared rq2) = publicPrepared (rq_prepared rq1))
    as Hpp.
  { unfold publicPrepared. by rewrite Hen, Hnp, Hck, Httl, Hto, Hmr. }
  assert (rq_key rq2 = rq_key rq1) as Hk by done.
  rewrite Hat, Hmr.
  destruct (iteration _ _ s) as [|response|e].
  - apply publicState_eq; simpl.
    rewrite ?Hc, ?Hfl, ?Hs, ?Hh, ?Hk. split_and!; try done.
    + f_equal; [|symmetry; exact Hrest]. unfold publicRequest; simpl.
      by rewrite ?Hat, ?Hha, ?Hpp.
    + f_equal. exact He.
  - rewrite (processResponse_public _ _ response now1 now2 Hpp).
    destruct (process (rq_prepared rq1) response now1 now2) as [outcome write].
    apply publicState_eq; simpl.
    rewrite ?Hc, ?Hfl, ?Hs, ?Hh, ?Hk, ?Hha. split_and!; try done.
    destruct write; simpl; [f_equal|]; exact He.
  - apply publicState_eq; simpl.
    by rewrite ?Hc, ?Hfl, ?Hs, ?Hh, ?Hk, ?Hha.
Qed.

Lemma step_public cfg1 cfg2 st1 st2 ev :
  CTA_BUS_RTPIDATAFEED cfg1 = CTA_BUS_RTPIDATAFEED cfg2 ->
  Str.truthy_opt (CTA_BUS_TRACKER_API_KEY cfg1) = true ->
  Str.truthy_opt (CTA_BUS_TRACKER_API_KEY cfg2) = true ->
  publicState st1 = publicState st2 ->
  publicState (stp cfg1 st1 ev) = publicState (stp cfg2 st2 ev).
Proof.
  intros Hfeed Hk1 Hk2 Hst.
  destruct ev as [options now|h s now1 now2|predicate]; simpl.
  - by apply call_public.
  - by apply deliver_public.
  - pose proof Hst as (Hc & Hfl & Hn & Hs & Hh & He)%publicState_eq.
    apply publicState_eq; simpl. by rewrite Hc.
Qed.

Lemma run_public cfg1 cfg2 events :
  CTA_BUS_RTPIDATAFEED cfg1 = CTA_BUS_RTPIDATAFEED cfg2 ->
  Str.truthy_opt (CTA_BUS_TRACKER_API_KEY cfg1) = true ->
  Str.truthy_opt (CTA_BUS_TRACKER_API_KEY cfg2) = true ->
  publicState (runs cfg1 events) = publicState (runs cfg2 events).
Proof.
  intros Hfeed Hk1 Hk2. unfold run.
  assert (publicState initialState = publicState initialState) as Hinit by done.
  revert Hinit. generalize initialState at 1 3. generalize initialState.
  induction events as [|ev events IH]; intros st2 st1 Hst; simpl; [done|].
  apply IH. by apply step_public.
Qed.

(** C9. Two configured credentials cannot be told apart by anything the
    client keeps or returns: for the same request options the prepared
    cache key and normalized parameters are the same (or validation fails
    with the same error), and after any sequence of calls and deliveries
    the cache, the registry, the outcomes of all promises (with their
    [meta.params] and [meta.cacheKey]) and the answer to a further call are
    the same. The credential goes into the request parameters of the
    outgoing URL, under ["key"]. *)
Theorem credential_noninterference (key1 key2 feed : string) (events : list Event) :
  Str.truthy key1 = true ->
  Str.truthy key2 = true ->
  let cfg1 := mkConfig (Some key1) feed in
  let cfg2 := mkConfig (Some key2) feed in
  (forall options,
     match prep cfg1 options, prep cfg2 options with
     | inl e1, inl e2 => e1 = e2
     | inr p1, inr p2 =>
         pr_cacheKey p1 = pr_cacheKey p2
         /\ pr_normalizedParams p1 = pr_normalizedParams p2
         /\ Obj.get "key" (pr_requestParams p1) = Some key1
         /\ Obj.get "key" (pr_requestParams p2) = Some key2
     | _, _ => False
     end)
  /\ responseCache (runs cfg1 events) = responseCache (runs cfg2 events)
  /\ inFlightRequests (runs cfg1 events) = inFlightRequests (runs cfg2 events)
  /\ settled (runs cfg1 events) = settled (runs cfg2 events)
  /\ (forall options now,
        (call cfg1 (runs cfg1 events) options now).2
        = (call cfg2 (runs cfg2 events) options now).2).
Proof.
  intros Hk1 Hk2 cfg1 cfg2.
  assert (publicState (runs cfg1 events) = publicState (runs cfg2 events)) as Hpub.
  { by apply run_public. }
  pose proof Hpub as (Hc & Hfl & Hn & Hs & Hh & He)%publicState_eq.
  split_and!; try done.
  - intros options.
    pose proof (prepare_public cfg1 cfg2 options eq_refl Hk1 Hk2) as Hp.
    pose proof (prepare_requestParams cfg1 options) as Hr1.
    pose proof (prepare_requestParams cfg2 options) as Hr2.
    destruct (prep cfg1 options) as [e1|p1], (prep cfg2 options) as [e2|p2];
      try done.
    split_and!; [by injection Hp|by injection Hp|by apply Hr1|by apply Hr2].
  - intros options now. by apply call_public.
Qed.

(** ** Genuine failures and their mapping *)

Lemma processResponse_hard p response now1 now2 envelope first rest :
  resp_json response = inr (Some envelope) ->
  pl_error envelope = Some (first :: rest) ->
  classifySoftError (first :: rest) = None ->
  process p response now1 now2 =
    (Rejected
       (newBusClientError
          (default "CTA_BUS_API_ERROR" (raw_code first))
          (default "CTA bus tracker returned an error." (raw_msg first))
          (mkErrOptions None None None (Some (pr_endpoint p))
             (Some (pr_normalizedParams p)) (Some (first :: rest))
             (parseTimestampToIso Date parseCtaDate toISOString (pl_tmst envelope))
             None None None None)),
     None).
Proof. intros Hj He Hs. unfold processResponse. by rewrite Hj, He, Hs. Qed.

End ClientFacts.

Lemma deriveCodeFromMessage_truthy message :
  Str.truthy (deriveCodeFromMessage message) = true.
Proof.
  unfold deriveCodeFromMessage.
  by destruct (Str.truthy (Str.take 60 _)) eqn:Ht.
Qed.

(** A message that no soft pattern matches is matched by none of the four
    status-200 rows of the mapping table, so the first row that matches it,
    if any, is one of the other three. *)
Lemma firstMapping_hard msg mapping :
  firstSoftPattern SOFT_ERROR_PATTERNS msg = None ->
  firstMapping CTA_ERROR_MAPPINGS msg = Some mapping ->
  (map_code mapping = "CTA_BUS_INVALID_PARAMETER" /\ map_status mapping = Some 400)
  \/ (map_code mapping = "CTA_BUS_RATE_LIMIT" /\ map_status mapping = Some 429)
  \/ (map_code mapping = "CTA_BUS_AUTH_ERROR" /\ map_status mapping = Some 401).
Proof.
  unfold SOFT_ERROR_PATTERNS, CTA_ERROR_MAPPINGS.
  cbn [firstSoftPattern firstMapping soft_test soft_reason map_test].
  destruct (regexp_test (Lit "no data found") msg); [done|].
  destruct (regexp_test (Lit "no service scheduled") msg); [done|].
  destruct (regexp_test (Lit "no arrival times") msg); [done|].
  destruct (regexp_test (Lit "no predictions") msg); [done|].
  intros _.
  destruct (regexp_test (Lit "invalid param") msg); [intros [= <-]; by left|].
  destruct (regexp_test (Alt _ _) msg); [intros [= <-]; right; by left|].
  destruct (regexp_test (Lit "api key") msg); [intros [= <-]; right; by right|].
  done.
Qed.

Lemma findMapping_cons raw rest :
  findMapping (raw :: rest) =
    match raw_msg raw with
    | Some msg =>
        if Str.truthy msg then
          match firstMapping CTA_ERROR_MAPPINGS msg with
          | Some mapping => Some (raw, mapping)
          | None => findMapping rest
          end
        else findMapping rest
    | None => findMapping rest
    end.
Proof. cbn [findMapping]. by destruct (raw_msg raw). Qed.

Lemma findMapping_hard errors raw mapping :
  classifySoftError errors = None ->
  findMapping errors = Some (raw, mapping) ->
  (map_code mapping = "CTA_BUS_INVALID_PARAMETER" /\ map_status mapping = Some 400)
  \/ (map_code mapping = "CTA_BUS_RATE_LIMIT" /\ map_status mapping = Some 429)
  \/ (map_code mapping = "CTA_BUS_AUTH_ERROR" /\ map_status mapping = Some 401).
Proof.
  induction errors as [|err rest IH]; [done|].
  rewrite classifySoftError_cons, findMapping_cons.
  destruct (raw_msg err) as [msg|]; [|exact IH].
  destruct (Str.truthy msg); [|exact IH].
  destruct (firstSoftPattern SOFT_ERROR_PATTERNS msg) eqn:Hsoft; [done|].
  destruct (firstMapping CTA_ERROR_MAPPINGS msg) as [m|] eqn:Hm; [|exact IH].
  intros _ [= <- <-]. by apply (firstMapping_hard msg).
Qed.

Section MappingFacts.

Variable Date : Type.
Variable parseCtaDate : string -> option Date.
Variable toISOString : Date -> string.
Variable isoOfMillis : Z -> string.

Local Abbreviation process := (processResponse Date parseCtaDate toISOString).
Local Abbreviation mapError := (mapBusApiError isoOfMillis).

(** C7, amended. When the [error] array of an accepted response is not a
    soft error, the request is rejected, and the error handed to the caller
    by [mapBusApiError] is as follows. If a message of the array matches a
    row of the mapping table (the first such message, the first such row),
    the code and the status are that row's: [CTA_BUS_INVALID_PARAMETER] with
    400, [CTA_BUS_RATE_LIMIT] with 429 or [CTA_BUS_AUTH_ERROR] with 401.
    Otherwise the code is the first upstream error's own code or, when it
    has none, the code derived from its message ([CTA_BUS_API_ERROR] when it
    has no message either), and the status is 502 unless the context of the
    call sets another. *)
Theorem hard_error_mapping p response envelope first rest now1 now2 context now :
  resp_json response = inr (Some envelope) ->
  pl_error envelope = Some (first :: rest) ->
  classifySoftError (first :: rest) = None ->
  exists e,
    process p response now1 now2 = (Rejected e, None)
    /\ let mapped := mapError (UClient e) context now in
       match findMapping (first :: rest) with
       | Some (raw, mapping) =>
           det_code (env_error mapped) = map_code mapping
           /\ am_status (env_meta mapped) = map_status mapping
           /\ ((map_code mapping = "CTA_BUS_INVALID_PARAMETER"
                /\ map_status mapping = Some 400)
               \/ (map_code mapping = "CTA_BUS_RATE_LIMIT"
                   /\ map_status mapping = Some 429)
               \/ (map_code mapping = "CTA_BUS_AUTH_ERROR"
                   /\ map_status mapping = Some 401))
       | None =>
           det_code (env_error mapped) =
             match raw_code first with
             | Some code => code
             | None =>
                 if Str.truthy_opt (raw_msg first)
                 then deriveCodeFromMessage (default "" (raw_msg first))
                 else "CTA_BUS_API_ERROR"
             end
           /\ am_status (env_meta mapped) = Some (default 502 (ctx_status context))
       end.
Proof.
  intros Hj He Hs. eexists. split.
  { by apply processResponse_hard. }
  cbv zeta. unfold mapBusApiError, newBusClientError.
  cbn [err_rawErrors o_rawErrors err_code err_status o_status].
  unfold deriveFromRawErrors.
  destruct (findMapping (first :: rest)) as [[raw mapping]|] eqn:Hf.
  - pose proof (findMapping_hard _ _ _ Hs Hf) as Hrow.
    cbn [rd_code rd_status env_error env_meta det_code am_status].
    split_and!; [| |exact Hrow];
      destruct Hrow as [[Hc Hst]|[[Hc Hst]|[Hc Hst]]]; rewrite ?Hc, ?Hst; done.
  - destruct (Str.truthy_opt (raw_msg first)) eqn:Hmsg.
    + cbn [rd_code rd_status env_error env_meta det_code am_status].
      destruct (raw_code first) as [code|]; simpl.
      * split; [by destruct (Str.truthy code)|done].
      * rewrite deriveCodeFromMessage_truthy. done.
    + cbn [rd_code rd_status env_error env_meta det_code am_status]. simpl.
      by destruct (raw_code first).
Qed.

(** Where 502 comes from for an HTTP failure: the error object of
    [fetchWithRetry] carries the upstream status, and the envelope built
    from it carries 502 unless the context of the call sets a status. *)
Lemma http_error_envelope status context now :
  err_status (httpError status) = status
  /\ det_code (env_error (mapError (UClient (httpError status)) context now))
     = "CTA_BUS_HTTP_ERROR"
  /\ am_status (env_meta (mapError (UClient (httpError status)) context now))
     = Some (default 502 (ctx_status context)).
Proof. by split_and!. Qed.

End MappingFacts.

(** ** Worked examples *)

(** C1 at work: on a client where one call for the sample key is in flight,
    a second call for that key gets the same promise and the state does not
    change. *)
Lemma single_flight_witness :
  callBusApi id (fun _ => "q") sampleConfig (launchedState 0) (sampleOptions 0) 1500
  = (launchedState 0, Awaits 0).
Proof.
  pose proof (single_flight id (fun _ => "q") sampleDate sampleParse sampleIso
                sampleConfig [ECall (sampleOptions 0) 1000])
    as (_ & _ & Hjoin & _).
  destruct (Hjoin (sampleOptions 0) 1500 (samplePrepared 0) 0%nat)
    as (_ & Hawaits & _).
  - reflexivity.
  - vm_compute. reflexivity.
  - apply Hawaits. simpl. lia.
Defined.

(** C1, as stated, fails: the sample result is cached until time 32000; a
    call with TTL 0 at time 3000 skips the cache and launches a request for
    the same key, promise 1. A caller with TTL 30 s that arrives at time
    4000, while that request is in flight, does not receive promise 1: it
    is answered with the cached result. The request in flight then settles
    with an error, which the caller that launched it receives. *)
Lemma joiner_served_from_cache_counterexample :
  let st := relaunchedState 0 3000 in
  callBusApi id (fun _ => "q") sampleConfig (settledState 30000 dataResponse)
    (sampleOptions 0) 3000 = (st, Awaits 1)
  /\ inFlightRequests st !! "bus:getpredictions:1836" = Some 1%nat
  /\ callBusApi id (fun _ => "q") sampleConfig st (sampleOptions 30000) 4000
     = (st, Returned (toCachedResult sampleEntry))
  /\ exists e,
       settled (deliver sampleDate sampleParse sampleIso st 1
                  (Resolved (errorResponse
                               [mkRaw (Some "E42") (Some "Invalid parameter rt")]))
                  5000 5000) !! 1%nat
       = Some (Rejected e)
       /\ err_code e = "E42".
Proof.
  split_and!; [vm_compute; reflexivity..|].
  eexists. split; [vm_compute; reflexivity|reflexivity].
Defined.

(** C4, as stated, fails: the sample request, with a TTL of 30 s, settles on
    a body classified as the soft error "No arrival times", and its result
    is stored in the cache. *)
Lemma soft_result_is_cached :
  classifySoftError [mkRaw None (Some "No arrival times")]
    = Some "No arrival times available."
  /\ wrote (launchedState 30000) (settledState 30000 softResponse)
  /\ exists entry,
       responseCache (settledState 30000 softResponse) !! "bus:getpredictions:1836"
         = Some entry
       /\ meta_reason (meta (value entry)) = Some "No arrival times available.".
Proof.
  split; [reflexivity|]. split.
  - eexists _, _. vm_compute. reflexivity.
  - eexists. split; [vm_compute; reflexivity|reflexivity].
Defined.

Lemma cache_write_iff_witness :
  wrote (launchedState 30000) (settledState 30000 dataResponse)
  /\ responseCache (settledState 30000 dataResponse)
     = <["bus:getpredictions:1836" := sampleEntry]>
         (responseCache (launchedState 30000)).
Proof.
  destruct (cache_write_iff id (fun _ => "q") sampleDate sampleParse sampleIso
              sampleConfig (launchedState 30000)
              (EDeliver 0 (Resolved dataResponse) 2000 2000))
    as (Hiff & Hwrite & _).
  split.
  - apply Hiff.
    exists 0%nat, (Resolved dataResponse), 2000, 2000, (sampleRequest 30000), [],
      dataResponse, sampleResult.
    split_and!; reflexivity.
  - apply (Hwrite 0%nat (Resolved dataResponse) 2000 2000 (sampleRequest 30000)
             [] dataResponse sampleResult); reflexivity.
Defined.

(** C5, as stated, fails: the sample entry expired at time 32000, and a
    call at time 40000 has launched a request for its key, promise 1. A
    further call for the key at time 40001 finds the entry expired too, but
    triggers no upstream call: it is handed promise 1 and the client's
    state, the log of its fetches included, is as before. *)
Lemma expired_entry_joins_counterexample :
  let st := relaunchedState 30000 40000 in
  responseCache st !! "bus:getpredictions:1836" = Some sampleEntry
  /\ expiresAt sampleEntry <= 40001
  /\ cacheLookup st (samplePrepared 30000) 40001 = None
  /\ callBusApi id (fun _ => "q") sampleConfig st (sampleOptions 30000) 40001
     = (st, Awaits 1)
  /\ ~ fetchedOnce st
        (callBusApi id (fun _ => "q") sampleConfig st (sampleOptions 30000)
           40001).1
        "bus:getpredictions:1836".
Proof.
  assert (callBusApi id (fun _ => "q") sampleConfig (relaunchedState 30000 40000)
            (sampleOptions 30000) 40001
          = (relaunchedState 30000 40000, Awaits 1)) as Hcall
    by (vm_compute; reflexivity).
  cbv zeta. split_and!.
  - vm_compute. reflexivity.
  - simpl. lia.
  - vm_compute. reflexivity.
  - exact Hcall.
  - rewrite Hcall. intros [url Heff]. simpl in Heff.
    by apply effects_not_self in Heff.
Defined.

(** C5 at work: the cached sample result is served at time 5000 and ignored
    at time 40000, when the call issues one [fetch]. *)
Lemma cache_honoring_witness :
  callBusApi id (fun _ => "q") sampleConfig (settledState 30000 dataResponse)
    (sampleOptions 30000) 5000
  = (settledState 30000 dataResponse, Returned (toCachedResult sampleEntry))
  /\ exists st' h,
       callBusApi id (fun _ => "q") sampleConfig (settledState 30000 dataResponse)
         (sampleOptions 30000) 40000
       = (st', Awaits h)
       /\ length (outstanding st' "bus:getpredictions:1836") = 1%nat
       /\ fetchedOnce (settledState 30000 dataResponse) st' "bus:getpredictions:1836".
Proof.
  assert (consistent (settledState 30000 dataResponse)) as Hcons.
  { apply (consistent_run id (fun _ => "q") sampleDate sampleParse sampleIso
             sampleConfig
             [ECall (sampleOptions 30000) 1000;
              EDeliver 0 (Resolved dataResponse) 2000 2000]). }
  assert (prepare id sampleConfig (sampleOptions 30000) = inr (samplePrepared 30000))
    as Hp by reflexivity.
  assert (0 < pr_cacheTtlMs (samplePrepared 30000)) as Httl by (simpl; lia).
  assert (responseCache (settledState 30000 dataResponse)
            !! pr_cacheKey (samplePrepared 30000) = Some sampleEntry) as Hc.
  { vm_compute. reflexivity. }
  split.
  - apply (cache_honoring id (fun _ => "q") sampleConfig
             (settledState 30000 dataResponse) (sampleOptions 30000) 5000
             (samplePrepared 30000) sampleEntry Hcons Hp Httl Hc).
    simpl. lia.
  - destruct (cache_honoring id (fun _ => "q") sampleConfig
                (settledState 30000 dataResponse) (sampleOptions 30000) 40000
                (samplePrepared 30000) sampleEntry Hcons Hp Httl Hc) as [_ Hexp].
    destruct Hexp as [_ (st' & h & Hcall & _ & Hone & _ & Hfetch)]; [simpl; lia|].
    exists st', h. split_and!; [exact Hcall|exact Hone|].
    replace (inFlightRequests (settledState 30000 dataResponse)
               !! pr_cacheKey (samplePrepared 30000)) with (@None nat) in Hfetch.
    + exact Hfetch.
    + vm_compute. reflexivity.
Defined.

(** C6 at work: the body [{error: [{msg: "No arrival times"}]}]. *)
Lemma soft_error_is_success_witness :
  exists r,
    settled (settledState 30000 softResponse) !! 0%nat = Some (Fulfilled r)
    /\ pl_error (payload r) = None
    /\ meta_reason (meta r) = Some "No arrival times available.".
Proof.
  destruct (soft_error_is_success sampleDate sampleParse sampleIso
              (launchedState 30000) 0 (sampleRequest 30000) [] softResponse
              (mkPayload (Some "20240101 00:00:00")
                 (Some [mkRaw None (Some "No arrival times")]) [])
              [mkRaw None (Some "No arrival times")] 2000 2000)
    as (r & err & msg & pat & Hs & Hpl & Hcl & Hreason & _).
  - reflexivity.
  - reflexivity.
  - reflexivity.
  - reflexivity.
  - exists (mkRaw None (Some "No arrival times")), "No arrival times",
      (mkSoft (Lit "no arrival times") "No arrival times available.").
    split_and!; [apply elem_of_cons; by left|reflexivity| |reflexivity].
    unfold SOFT_ERROR_PATTERNS. rewrite !elem_of_cons. right. right. by left.
  - exists r. split; [exact Hs|]. split; [by rewrite Hpl|].
    rewrite Hreason. rewrite <- Hcl. reflexivity.
Defined.

(** C7, as stated, fails: the first upstream error has the code ["E42"]
    and the message "Invalid parameter rt"; the payload is a genuine
    failure. The error thrown by [callBusApi] keeps the code ["E42"] but has
    status 502, not 400; the error handed to the caller by [mapBusApiError]
    has status 400 but the code of the mapping table, not ["E42"]. *)
Lemma hard_error_code_counterexample :
  let errors := [mkRaw (Some "E42") (Some "Invalid parameter rt")] in
  classifySoftError errors = None
  /\ exists e,
       processResponse sampleDate sampleParse sampleIso (samplePrepared 30000)
         (errorResponse errors) 2000 2000 = (Rejected e, None)
       /\ err_code e = "E42"
       /\ err_status e = 502
       /\ am_status (env_meta (mapBusApiError sampleIsoOfMillis (UClient e)
                                 sampleContext 3000))
          = Some 400
       /\ det_code (env_error (mapBusApiError sampleIsoOfMillis (UClient e)
                                 sampleContext 3000))
          = "CTA_BUS_INVALID_PARAMETER"
       /\ det_code (env_error (mapBusApiError sampleIsoOfMillis (UClient e)
                                 sampleContext 3000))
          <> "E42".
Proof.
  split; [reflexivity|]. eexists. split; [reflexivity|].
  split_and!; try reflexivity.
  intros Heq. discriminate Heq.
Defined.

(** C7, amended, at work: an unmapped error without a code. *)
Lemma hard_error_mapping_witness :
  let errors := [mkRaw None (Some "Internal hiccup, try later")] in
  exists e,
    processResponse sampleDate sampleParse sampleIso (samplePrepared 30000)
      (errorResponse errors) 2000 2000 = (Rejected e, None)
    /\ det_code (env_error (mapBusApiError sampleIsoOfMillis (UClient e)
                              sampleContext 3000))
       = "INTERNAL_HICCUP_TRY_LATER"
    /\ am_status (env_meta (mapBusApiError sampleIsoOfMillis (UClient e)
                              sampleContext 3000))
       = Some 502.
Proof.
  intros errors.
  destruct (hard_error_mapping sampleDate sampleParse sampleIso sampleIsoOfMillis
              (samplePrepared 30000) (errorResponse errors)
              (mkPayload None (Some errors) [])
              (mkRaw None (Some "Internal hiccup, try later")) [] 2000 2000
              sampleContext 3000)
    as (e & Hproc & Hmapped).
  - reflexivity.
  - reflexivity.
  - reflexivity.
  - exists e. split; [exact Hproc|]. exact Hmapped.
Defined.

(** C9 at work: two credentials, one call and its settlement. *)
Lemma credential_noninterference_witness :
  let events := [ECall (sampleOptions 30000) 1000;
                 EDeliver 0 (Resolved dataResponse) 2000 2000] in
  responseCache (run id (fun _ => "q") sampleDate sampleParse sampleIso
                   (mkConfig (Some "alpha") "ctabus") events)
  = responseCache (run id (fun _ => "q") sampleDate sampleParse sampleIso
                     (mkConfig (Some "beta") "ctabus") events).
Proof.
  intros events.
  destruct (credential_noninterference id (fun _ => "q") sampleDate sampleParse sampleIso
              "alpha" "beta" "ctabus" events) as (_ & Hcache & _).
  - reflexivity.
  - reflexivity.
  - exact Hcache.
Defined.

(** C10 at work: the answer at time 5000 is the stored sample result with
    the flag set. *)
Lemma cache_hit_frame_witness :
  exists p entry,
    prepare id sampleConfig (sampleOptions 30000) = inr p
    /\ responseCache (settledState 30000 dataResponse) !! pr_cacheKey p = Some entry
    /\ toCachedResult sampleEntry = toCachedResult entry.
Proof.
  destruct (cache_hit_frame id (fun _ => "q")) as [_ Hcall].
  destruct (Hcall sampleConfig (settledState 30000 dataResponse)
              (sampleOptions 30000) 5000 (settledState 30000 dataResponse)
              (toCachedResult sampleEntry)) as [_ Hentry].
  - vm_compute. reflexivity.
  - exact Hentry.
Defined.

(** * Further properties of the code *)

(** ** The retry loop, for every upstream *)

Lemma iteration_Return attempt maxRetries s response :
  iteration attempt maxRetries s = Return response ->
  s = Resolved response /\ resp_ok response = true.
Proof.
  unfold iteration, catchClause. destruct s as [r|e].
  - destruct (resp_ok r) eqn:Hok; simpl.
    + by intros [= ->].
    + destruct (_ && (500 <=? resp_status r)); [done|].
      by destruct (negb _).
  - by destruct (negb _).
Qed.

Lemma iteration_transient attempt maxRetries e :
  isTransient e = true ->
  iteration attempt maxRetries (Failed e) =
    if Z.of_nat attempt <=? maxRetries then Continue
    else Throw (requestFailed e).
Proof.
  unfold isTransient, iteration, catchClause. intros Ht.
  rewrite orb_false_r, Ht.
  by destruct (Z.of_nat attempt <=? maxRetries).
Qed.

Lemma iteration_not_transient attempt maxRetries e :
  isTransient e = false ->
  iteration attempt maxRetries (Failed e) = Throw (requestFailed e).
Proof.
  unfold isTransient, iteration, catchClause. intros Ht.
  rewrite orb_false_r, Ht. by rewrite andb_false_r.
Qed.

(** The loop skips over a run of iterations that end in [continue]. *)
Lemma fetchLoop_prefix upstream maxRetries k fuel attempt :
  (forall i, (attempt < i <= attempt + k)%nat ->
     iteration i maxRetries (upstream i) = Continue) ->
  fetchLoop (k + fuel) upstream maxRetries attempt =
  fetchLoop fuel upstream maxRetries (attempt + k).
Proof.
  revert attempt. induction k as [|k IH]; intros attempt Hc; simpl.
  - by rewrite Nat.add_0_r.
  - rewrite Hc by lia. rewrite IH.
    + f_equal. lia.
    + intros i Hi. apply Hc. lia.
Qed.

(** What a finished loop tells about the upstream. *)
Lemma fetchLoop_result upstream maxRetries fuel attempt n r :
  fetchLoop fuel upstream maxRetries attempt = Some (n, r) ->
  (attempt < n <= attempt + fuel)%nat
  /\ (forall i, (attempt < i < n)%nat ->
        iteration i maxRetries (upstream i) = Continue)
  /\ match r with
     | inr response => iteration n maxRetries (upstream n) = Return response
     | inl e => iteration n maxRetries (upstream n) = Throw e
     end.
Proof.
  revert attempt. induction fuel as [|fuel IH]; intros attempt; simpl; [done|].
  destruct (iteration (S attempt) maxRetries (upstream (S attempt))) eqn:Hit.
  - intros (Hn & Hpre & Hlast)%IH. split; [lia|]. split; [|done].
    intros i Hi. destruct (decide (i = S attempt)) as [->|Hne]; [done|].
    apply Hpre. lia.
  - intros [= <- <-]. split; [lia|]. split; [|done]. intros i Hi. lia.
  - intros [= <- <-]. split; [lia|]. split; [|done]. intros i Hi. lia.
Qed.

(** X1. For every upstream and every retry budget the loop ends; it makes
    at least one attempt and at most [max(0, maxRetries) + 1]; every attempt
    before the last one ended in a retry; and a response it returns is the
    one the upstream gave to the last attempt, with [ok] set. *)
Theorem fetchWithRetry_attempts_bounded upstream maxRetries :
  exists n r,
    fetchWithRetry upstream maxRetries = Some (n, r)
    /\ (1 <= n)%nat
    /\ Z.of_nat n <= Z.max 0 maxRetries + 1
    /\ (forall i, (1 <= i < n)%nat ->
          iteration i maxRetries (upstream i) = Continue)
    /\ (forall response, r = inr response ->
          upstream n = Resolved response /\ resp_ok response = true).
Proof.
  destruct (fetchWithRetry_total upstream maxRetries) as [[n r] Hres].
  exists n, r. split; [done|].
  apply fetchLoop_result in Hres as (Hn & Hpre & Hlast).
  split_and!.
  - lia.
  - destruct (decide (n = 1%nat)) as [->|Hne]; [lia|].
    assert (Z.of_nat (n - 1) <= maxRetries).
    { apply (iteration_continue _ _ (upstream (n - 1)%nat)). apply Hpre. lia. }
    lia.
  - intros i Hi. apply Hpre. lia.
  - intros response ->. by apply (iteration_Return n maxRetries).
Qed.

(** X2. When every attempt fails with a timeout abort or a network failure,
    the loop makes exactly [maxRetries + 1] attempts and then throws
    [CTA_BUS_REQUEST_FAILED] with status 502, keeping the last failure as
    its cause. *)
Theorem transient_failures_exhaust_budget upstream maxRetries :
  0 <= maxRetries ->
  (forall n, exists e, upstream n = Failed e /\ isTransient e = true) ->
  exists e,
    upstream (S (Z.to_nat maxRetries)) = Failed e
    /\ fetchWithRetry upstream maxRetries =
         Some (S (Z.to_nat maxRetries), inl (requestFailed e))
    /\ err_code (requestFailed e) = "CTA_BUS_REQUEST_FAILED"
    /\ err_status (requestFailed e) = 502
    /\ err_cause (requestFailed e) = Some e.
Proof.
  intros Hm Hup.
  destruct (Hup (S (Z.to_nat maxRetries))) as (e & He & Ht).
  exists e. split_and!; try done.
  unfold fetchWithRetry.
  replace (S (Z.to_nat maxRetries)) with (Z.to_nat maxRetries + 1)%nat by lia.
  rewrite fetchLoop_prefix.
  - simpl. replace (Z.to_nat maxRetries + 1)%nat with (S (Z.to_nat maxRetries)) in He by lia.
    rewrite He, (iteration_transient _ _ _ Ht).
    destruct (Z.of_nat (S (Z.to_nat maxRetries)) <=? maxRetries) eqn:Hle;
      [|by rewrite Nat.add_1_r].
    apply Z.leb_le in Hle. lia.
  - intros i Hi. destruct (Hup i) as (e' & -> & Ht').
    rewrite (iteration_transient _ _ _ Ht').
    destruct (Z.of_nat i <=? maxRetries) eqn:Hle; [done|].
    apply Z.leb_gt in Hle. lia.
Qed.

Lemma transient_failures_exhaust_budget_witness :
  exists e,
    fetchWithRetry (fun _ => Failed (mkJsError "AbortError" "aborted")) 2
      = Some (3%nat, inl (requestFailed e)).
Proof.
  destruct (transient_failures_exhaust_budget
              (fun _ => Failed (mkJsError "AbortError" "aborted")) 2)
    as (e & _ & Hres & _).
  - lia.
  - intros n. eexists. split; reflexivity.
  - exists e. exact Hres.
Defined.

(** X3. A failure of [fetch] that is neither an abort nor a network failure
    is not retried: whatever the budget, the loop makes one attempt and
    throws [CTA_BUS_REQUEST_FAILED] with status 502 and the failure as its
    cause. *)
Theorem other_failure_is_not_retried upstream maxRetries e :
  upstream 1%nat = Failed e ->
  isTransient e = false ->
  fetchWithRetry upstream maxRetries = Some (1%nat, inl (requestFailed e))
  /\ err_status (requestFailed e) = 502
  /\ err_cause (requestFailed e) = Some e.
Proof.
  intros He Ht. split; [|done].
  unfold fetchWithRetry. simpl. by rewrite He, (iteration_not_transient _ _ _ Ht).
Qed.

Lemma other_failure_is_not_retried_witness :
  fetchWithRetry (fun _ => Failed (mkJsError "TypeError" "fetch failed")) 2
  = Some (1%nat, inl (requestFailed (mkJsError "TypeError" "fetch failed"))).
Proof.
  apply (other_failure_is_not_retried
           (fun _ => Failed (mkJsError "TypeError" "fetch failed")) 2).
  - reflexivity.
  - reflexivity.
Defined.

(** X4. The loop recovers: when the first [k] attempts, [k] within the
    budget, end in a response that is not [ok] or in a transient failure,
    and attempt [k + 1] brings an [ok] response, the loop returns that
    response after exactly [k + 1] attempts. *)
Theorem retry_recovers upstream maxRetries k response :
  Z.of_nat k <= maxRetries ->
  (forall i, (1 <= i <= k)%nat ->
     (exists r, upstream i = Resolved r /\ resp_ok r = false)
     \/ (exists e, upstream i = Failed e /\ isTransient e = true)) ->
  upstream (S k) = Resolved response ->
  resp_ok response = true ->
  fetchWithRetry upstream maxRetries = Some (S k, inr response).
Proof.
  intros Hk Hfail Hlast Hok. unfold fetchWithRetry.
  replace (S (Z.to_nat maxRetries)) with (k + S (Z.to_nat maxRetries - k))%nat by lia.
  rewrite fetchLoop_prefix.
  - simpl. by rewrite Hlast, (iteration_ok _ _ _ Hok).
  - intros i Hi.
    assert ((Z.of_nat i <=? maxRetries) = true) as Hle by (apply Z.leb_le; lia).
    destruct (Hfail i) as [(r & -> & Hr)|(e & -> & He)]; [lia| |].
    + by rewrite (iteration_not_ok _ _ _ Hr), Hle.
    + by rewrite (iteration_transient _ _ _ He), Hle.
Qed.

Lemma retry_recovers_witness :
  fetchWithRetry
    (fun n => if decide (n = 1%nat) then Resolved (mkResponse 503 (inr None))
              else if decide (n = 2%nat)
                   then Failed (mkJsError "AbortError" "aborted")
                   else Resolved dataResponse) 2
  = Some (3%nat, inr dataResponse).
Proof.
  apply (retry_recovers _ 2 2 dataResponse).
  - lia.
  - intros i Hi. destruct (decide (i = 1%nat)) as [->|Hne].
    + left. eexists. split; reflexivity.
    + assert (i = 2%nat) as -> by lia. right. eexists. split; reflexivity.
  - reflexivity.
  - reflexivity.
Defined.

(** ** The client, beyond the single-flight registry *)

Lemma checkRequired_None endpoint params required :
  checkRequired endpoint params required = None <->
  Forall (fun key => present params key = true) required.
Proof.
  induction required as [|key rest IH]; simpl; [by split|].
  rewrite Forall_cons. unfold present at 1.
  destruct (isMissing params key); simpl.
  - split; [done|]. by intros [? _].
  - rewrite IH. by split; [|intros [_ ?]].
Qed.

Lemma checkRequired_first endpoint params before key after :
  Forall (fun k => present params k = true) before ->
  present params key = false ->
  checkRequired endpoint params (before ++ key :: after) =
    Some (newBusClientError "CTA_BUS_BAD_REQUEST"
            ("Missing required parameter: " +:+ key)
            (mkErrOptions (Some 400) None None (Some endpoint)
               (Some (normalizeParams params)) None None None None None None)).
Proof.
  intros Hbefore Hkey. induction Hbefore as [|k before Hk _ IH]; simpl.
  - unfold present in Hkey. apply negb_false_iff in Hkey. by rewrite Hkey.
  - unfold present in Hk. apply negb_true_iff in Hk. by rewrite Hk.
Qed.

Lemma invalidate_lookup st predicate k :
  responseCache (invalidateBusCache st predicate) !! k =
    if selects predicate k then None else responseCache st !! k.
Proof.
  unfold invalidateBusCache, selects; simpl.
  apply option_eq. intros entry. rewrite map_lookup_filter_Some. simpl.
  destruct (match predicate with Some f => f k | None => true end); simpl.
  - split; [by intros [_ ?]|done].
  - split; [by intros [? _]|done].
Qed.

Section ClientMore.

Variable encodeURIComponent : string -> string.
Variable urlSearchParamsToString : list (string * string) -> string.
Variable Date : Type.
Variable parseCtaDate : string -> option Date.
Variable toISOString : Date -> string.

Local Abbreviation call := (callBusApi encodeURIComponent urlSearchParamsToString).
Local Abbreviation prep := (prepare encodeURIComponent).
Local Abbreviation process := (processResponse Date parseCtaDate toISOString).
Local Abbreviation dlv := (deliver Date parseCtaDate toISOString).
Local Abbreviation stp :=
  (step encodeURIComponent urlSearchParamsToString Date parseCtaDate toISOString).
Local Abbreviation runs :=
  (run encodeURIComponent urlSearchParamsToString Date parseCtaDate toISOString).

Lemma attempts_step cfg st ev :
  attemptsWithinBudget st -> attemptsWithinBudget (stp cfg st ev).
Proof.
  intros Hb. destruct ev as [options now|h s now1 now2|predicate]; simpl.
  - unfold callBusApi. destruct (prep cfg options) as [e|p]; [done|].
    destruct (cacheLookup st p now); [done|].
    destruct (inFlightRequests st !! pr_cacheKey p); [done|]. simpl.
    intros rq [->|Hin]%elem_of_cons; [simpl; lia|by apply Hb].
  - unfold deliver.
    destruct (pick h (network st)) as [[rq rest]|] eqn:Hp; [|done].
    apply pick_Some in Hp as [_ Hperm].
    assert (forall r, r ∈ rest -> r ∈ network st) as Hsub.
    { intros r Hr. rewrite Hperm. apply elem_of_cons. by right. }
    destruct (iteration _ _ s) as [|response|e] eqn:Hit.
    + intros r [->|Hr]%elem_of_cons; [|by apply Hb, Hsub]. simpl.
      apply iteration_continue in Hit. lia.
    + destruct (process (rq_prepared rq) response now1 now2) as [outcome write].
      intros r Hr. by apply Hb, Hsub.
    + intros r Hr. by apply Hb, Hsub.
  - done.
Qed.

(** X5. In every state the client reaches, each outstanding request is at
    an attempt between 1 and [max(0, maxRetries) + 1]: the client never
    issues more fetches for a request than its retry budget allows. *)
Theorem attempts_within_budget cfg (events : list Event) :
  attemptsWithinBudget (runs cfg events).
Proof.
  unfold run.
  assert (attemptsWithinBudget initialState) as Hinit.
  { by intros rq ?%elem_of_nil. }
  revert Hinit. generalize initialState.
  induction events as [|ev events IH]; intros st Hb; simpl; [done|].
  apply IH. by apply attempts_step.
Qed.

(** X6. Without a credential the client does nothing: every call is
    rejected with [CTA_BUS_CONFIG_MISSING] and status 500 before anything
    else is looked at, and no sequence of events issues a fetch, registers
    a request or stores an entry. *)
Theorem no_credential_no_traffic cfg (events : list Event) :
  Str.truthy_opt (CTA_BUS_TRACKER_API_KEY cfg) = false ->
  runs cfg events = initialState
  /\ (forall st options now,
        exists e,
          call cfg st options now = (st, Threw e)
          /\ err_code e = "CTA_BUS_CONFIG_MISSING"
          /\ err_status e = 500).
Proof.
  intros Hkey.
  assert (forall st options now,
            exists e,
              call cfg st options now = (st, Threw e)
              /\ err_code e = "CTA_BUS_CONFIG_MISSING"
              /\ err_status e = 500) as Hcall.
  { intros st options now. unfold callBusApi, prepare, ensureApiKey.
    rewrite Hkey. by eexists. }
  split; [|exact Hcall].
  unfold run. induction events as [|ev events IH]; simpl; [done|].
  assert (stp cfg initialState ev = initialState) as ->; [|exact IH].
  destruct ev as [options now|h s now1 now2|predicate]; simpl.
  - by destruct (Hcall initialState options now) as (e & -> & _).
  - done.
  - unfold invalidateBusCache, initialState; simpl.
    f_equal; apply map_filter_empty.
Qed.

(** X7. With a credential configured, a call passes validation exactly
    when every required key has a value that is not blank, where the value
    is read as [params[key]] reads it: the object's own entry if it has
    one, and otherwise what [Object.prototype] holds under that name, so
    that a required key such as ["constructor"] is never found missing
    unless the caller's own entry blanks it. Otherwise the call is rejected
    for the first required key that has no value, with
    [CTA_BUS_BAD_REQUEST], status 400, the endpoint and the normalized
    parameters, and the client's state is untouched: no cache lookup, no
    registry lookup, no fetch. *)
Theorem required_params_guard cfg st options now :
  Str.truthy_opt (CTA_BUS_TRACKER_API_KEY cfg) = true ->
  let params := default [] (opt_params options) in
  let required := default [] (opt_requiredParams options) in
  (Forall (fun key => present params key = true) required <->
   exists p, prep cfg options = inr p)
  /\ (forall key,
        present params key = true <->
        (exists v, Obj.get key params = Some v /\ isBlank v = false)
        \/ (Obj.get key params = None /\ key ∈ OBJECT_PROTOTYPE_KEYS))
  /\ (forall before key after,
        required = (before ++ key :: after)%list ->
        Forall (fun k => present params k = true) before ->
        present params key = false ->
        call cfg st options now =
          (st, Threw (newBusClientError "CTA_BUS_BAD_REQUEST"
                        ("Missing required parameter: " +:+ key)
                        (mkErrOptions (Some 400) None None
                           (Some (opt_endpoint options))
                           (Some (normalizeParams params)) None None None None
                           None None)))).
Proof.
  intros Hkey params required. split_and!.
  - rewrite <- (checkRequired_None (opt_endpoint options)).
    unfold prepare, ensureApiKey. rewrite Hkey. fold params required.
    destruct (checkRequired (opt_endpoint options) params required).
    + split; [done|]. by intros [p ?].
    + split; [by eexists|done].
  - intros key. unfold present, isMissing.
    destruct (Obj.get key params) as [v|].
    + rewrite negb_true_iff. split.
      * intros Hv. left. by exists v.
      * intros [(v' & [= <-] & Hv)|[? _]]; done.
    + rewrite negb_involutive, bool_decide_eq_true. split.
      * intros Hin. by right.
      * intros [(v & ? & _)|[_ Hin]]; done.
  - intros before key after Hreq Hbefore Hmissing.
    unfold callBusApi, prepare, ensureApiKey. rewrite Hkey.
    fold params required. rewrite Hreq.
    by rewrite (checkRequired_first _ _ _ _ _ Hbefore Hmissing).
Qed.

(** X8. The request sent upstream always carries the configured credential
    under ["key"] and ["json"] under ["format"], whatever the caller put
    under these names; every other parameter is the normalized one. *)
Theorem request_params_forced cfg options p :
  prep cfg options = inr p ->
  Str.truthy_opt (CTA_BUS_TRACKER_API_KEY cfg) = true
  /\ Obj.get "key" (pr_requestParams p) = CTA_BUS_TRACKER_API_KEY cfg
  /\ Obj.get "format" (pr_requestParams p) = Some "json"
  /\ (forall k, k <> "key" -> k <> "format" ->
        Obj.get k (pr_requestParams p) = Obj.get k (pr_normalizedParams p)).
Proof.
  unfold prepare, ensureApiKey.
  destruct (Str.truthy_opt (CTA_BUS_TRACKER_API_KEY cfg)) eqn:Hkey; [|done].
  destruct (checkRequired _ _ _); [done|]. intros [= <-]. simpl.
  split_and!; [done| | |].
  - rewrite Obj_get_lookup, !Obj_set_map.
    rewrite lookup_insert_ne by done. rewrite lookup_insert_eq.
    by destruct (CTA_BUS_TRACKER_API_KEY cfg).
  - rewrite Obj_get_lookup, !Obj_set_map. apply lookup_insert_eq.
  - intros k Hk Hf. rewrite !Obj_get_lookup, !Obj_set_map.
    by rewrite !lookup_insert_ne.
Qed.

Lemma withDefaults_get cfg normalized k :
  Obj.get k (withDefaults cfg normalized) =
    if Str.truthy_opt (Obj.get k normalized) then Obj.get k normalized
    else if decide (k = "rtpidatafeed")
         then (if Str.truthy (CTA_BUS_RTPIDATAFEED cfg)
               then Some (CTA_BUS_RTPIDATAFEED cfg)
               else Obj.get k normalized)
         else if decide (k = "format") then Some "json"
              else Obj.get k normalized.
Proof.
  unfold withDefaults.
  set (feed := negb (Str.truthy_opt (Obj.get "rtpidatafeed" normalized))
               && Str.truthy (CTA_BUS_RTPIDATAFEED cfg)).
  set (p1 := if feed
             then Obj.set "rtpidatafeed" (CTA_BUS_RTPIDATAFEED cfg) normalized
             else normalized).
  assert (forall j, Obj.get j p1 =
            if feed then (if decide (j = "rtpidatafeed")
                          then Some (CTA_BUS_RTPIDATAFEED cfg)
                          else Obj.get j normalized)
            else Obj.get j normalized) as Hp1.
  { intros j. unfold p1. destruct feed; [|done].
    rewrite !Obj_get_lookup, Obj_set_map.
    destruct (decide (j = "rtpidatafeed")) as [->|Hne].
    - by rewrite lookup_insert_eq.
    - by rewrite lookup_insert_ne. }
  assert (Obj.get k
            (if negb (Str.truthy_opt (Obj.get "format" p1))
             then Obj.set "format" "json" p1 else p1)
          = if negb (Str.truthy_opt (Obj.get "format" p1))
            then (if decide (k = "format") then Some "json" else Obj.get k p1)
            else Obj.get k p1) as ->.
  { destruct (negb (Str.truthy_opt (Obj.get "format" p1))); [|done].
    rewrite !Obj_get_lookup, Obj_set_map.
    destruct (decide (k = "format")) as [->|Hne].
    - by rewrite lookup_insert_eq.
    - by rewrite lookup_insert_ne. }
  rewrite !Hp1. subst feed. clear Hp1 p1.
  rewrite (decide_False (P := "format" = "rtpidatafeed")) by discriminate.
  destruct (decide (k = "rtpidatafeed")) as [->|Hk1].
  - rewrite (decide_False (P := "rtpidatafeed" = "format")) by discriminate.
    destruct (Str.truthy_opt (Obj.get "rtpidatafeed" normalized));
      destruct (Str.truthy (CTA_BUS_RTPIDATAFEED cfg)); cbn [negb andb];
      destruct (Str.truthy_opt (Obj.get "format" normalized)); reflexivity.
  - destruct (decide (k = "format")) as [->|Hk2].
    + destruct (Str.truthy_opt (Obj.get "rtpidatafeed" normalized));
        destruct (Str.truthy (CTA_BUS_RTPIDATAFEED cfg)); cbn [negb andb];
        destruct (Str.truthy_opt (Obj.get "format" normalized)); reflexivity.
    + destruct (Str.truthy_opt (Obj.get "rtpidatafeed" normalized));
        destruct (Str.truthy (CTA_BUS_RTPIDATAFEED cfg)); cbn [negb andb];
        destruct (Str.truthy_opt (Obj.get "format" normalized));
        cbn [negb andb];
        destruct (Str.truthy_opt (Obj.get k normalized)); reflexivity.
Qed.

Lemma withDefaults_keeps cfg normalized k v :
  Obj.get k normalized = Some v -> Str.truthy v = true ->
  Obj.get k (withDefaults cfg normalized) = Some v.
Proof.
  intros Hk Hv. rewrite withDefaults_get, Hk. cbn [Str.truthy_opt]. by rewrite Hv.
Qed.

(** X9. The defaults only fill gaps: a non-empty value of the caller is
    never replaced, keys other than ["rtpidatafeed"] and ["format"] are
    never touched, the result always has a non-empty ["format"], and it has
    a non-empty ["rtpidatafeed"] whenever a feed name is configured. *)
Theorem defaults_fill_gaps_only cfg normalized :
  (forall k v, Obj.get k normalized = Some v -> Str.truthy v = true ->
     Obj.get k (withDefaults cfg normalized) = Some v)
  /\ (forall k, k <> "rtpidatafeed" -> k <> "format" ->
        Obj.get k (withDefaults cfg normalized) = Obj.get k normalized)
  /\ Str.truthy_opt (Obj.get "format" (withDefaults cfg normalized)) = true
  /\ (Str.truthy (CTA_BUS_RTPIDATAFEED cfg) = true ->
      Str.truthy_opt (Obj.get "rtpidatafeed" (withDefaults cfg normalized)) = true)
  /\ (Obj.get "format" normalized = None ->
      Obj.get "format" (withDefaults cfg normalized) = Some "json").
Proof.
  split_and!.
  - intros k v. apply withDefaults_keeps.
  - intros k Hk1 Hk2. rewrite withDefaults_get.
    rewrite (decide_False (P := k = "rtpidatafeed")) by exact Hk1.
    rewrite (decide_False (P := k = "format")) by exact Hk2.
    by destruct (Str.truthy_opt _).
  - rewrite withDefaults_get.
    destruct (Str.truthy_opt (Obj.get "format" normalized)) eqn:Hf; [done|].
    rewrite (decide_False (P := "format" = "rtpidatafeed")) by discriminate.
    by rewrite (decide_True (P := "format" = "format")).
  - intros Hfeed. rewrite withDefaults_get.
    destruct (Str.truthy_opt (Obj.get "rtpidatafeed" normalized)) eqn:Hf; [done|].
    rewrite (decide_True (P := "rtpidatafeed" = "rtpidatafeed")) by reflexivity.
    rewrite Hfeed. cbn [Str.truthy_opt]. exact Hfeed.
  - intros Hnone. rewrite withDefaults_get, Hnone. cbn [Str.truthy_opt].
    rewrite (decide_False (P := "format" = "rtpidatafeed")) by discriminate.
    by rewrite (decide_True (P := "format" = "format")).
Qed.

(** X10. [invalidateBusCache] removes exactly the entries whose key the
    predicate selects, all of them when no predicate is given, and touches
    nothing else: not the registry, not the outstanding requests, not the
    outcomes. A call for a selected key is then not answered from the
    cache. *)
Theorem invalidate_removes_selected st predicate :
  let st' := invalidateBusCache st predicate in
  (forall k, responseCache st' !! k =
     if selects predicate k then None else responseCache st !! k)
  /\ (predicate = None -> responseCache st' = ∅)
  /\ inFlightRequests st' = inFlightRequests st
  /\ network st' = network st
  /\ settled st' = settled st
  /\ effects st' = effects st
  /\ (forall p now, selects predicate (pr_cacheKey p) = true ->
        cacheLookup st' p now = None).
Proof.
  cbv zeta. split_and!; try reflexivity.
  - intros k. apply invalidate_lookup.
  - intros ->. apply map_eq. intros k.
    by rewrite invalidate_lookup, lookup_empty.
  - intros p now Hsel. unfold cacheLookup.
    rewrite invalidate_lookup, Hsel. by destruct (0 <? pr_cacheTtlMs p).
Qed.

(** X11. Invalidation does not cancel a request in flight: when the
    request settles afterwards with a result and its TTL is positive, the
    result fetched before the invalidation is stored under the request's
    key, also when the predicate had selected that key. *)
Theorem invalidate_does_not_cancel st predicate h s now1 now2 rq rest response r :
  pick h (network st) = Some (rq, rest) ->
  iteration (rq_attempt rq) (pr_maxRetries (rq_prepared rq)) s = Return response ->
  (process (rq_prepared rq) response now1 now2).1 = Fulfilled r ->
  0 < pr_cacheTtlMs (rq_prepared rq) ->
  let st' := dlv (invalidateBusCache st predicate) h s now1 now2 in
  responseCache (invalidateBusCache st predicate) !! rq_key rq =
    (if selects predicate (rq_key rq) then None
     else responseCache st !! rq_key rq)
  /\ responseCache st' !! rq_key rq =
       Some (mkEntry r (now2 + pr_cacheTtlMs (rq_prepared rq)))
  /\ settled st' !! h = Some (Fulfilled r).
Proof.
  intros Hp Hit Hr Httl. cbv zeta. split; [apply invalidate_lookup|].
  unfold deliver. cbn [network invalidateBusCache]. rewrite Hp, Hit.
  pose proof (processResponse_write Date parseCtaDate toISOString
                (rq_prepared rq) response now1 now2) as Hw.
  destruct (process (rq_prepared rq) response now1 now2) as [outcome write].
  simpl in Hr. subst outcome.
  destruct write as [entry|]; [|lia].
  destruct Hw as [_ ->]. simpl.
  apply pick_Some in Hp as [<- _].
  split; apply lookup_insert_eq.
Qed.

Lemma processResponse_entry p response now1 now2 outcome entry :
  process p response now1 now2 = (outcome, Some entry) ->
  entryWellFormed (pr_cacheKey p) entry.
Proof.
  unfold processResponse, entryWellFormed.
  destruct (resp_json response) as [err|[envelope|]]; [done| |done].
  destruct (0 <? pr_cacheTtlMs p) eqn:Httl;
    [apply Z.ltb_lt in Httl|by repeat case_match].
  destruct (pl_error envelope) as [[|first rest]|] eqn:He.
  - intros [= <- <-]. simpl. rewrite He.
    split_and!; [done|done|by eexists|by eexists|done].
  - destruct (negb (Str.truthy_opt (classifySoftError (first :: rest)))); [done|].
    intros [= <- <-]. simpl.
    split_and!; [done|done|by eexists|by eexists|done].
  - intros [= <- <-]. simpl. rewrite He.
    split_and!; [done|done|by eexists|by eexists|done].
Qed.

Lemma entries_step cfg st ev :
  (forall k entry, responseCache st !! k = Some entry -> entryWellFormed k entry) ->
  forall k entry,
    responseCache (stp cfg st ev) !! k = Some entry -> entryWellFormed k entry.
Proof.
  intros Hwf k entry.
  destruct ev as [options now|h s now1 now2|predicate]; cbn [step].
  - unfold callBusApi. destruct (prep cfg options) as [e|p]; [apply Hwf|].
    destruct (cacheLookup st p now); [apply Hwf|].
    destruct (inFlightRequests st !! pr_cacheKey p); apply Hwf.
  - unfold deliver.
    destruct (pick h (network st)) as [[rq rest]|]; [|apply Hwf].
    destruct (iteration _ _ s) as [|response|e]; [apply Hwf| |apply Hwf].
    destruct (process (rq_prepared rq) response now1 now2)
      as [outcome [written|]] eqn:Hproc; [|apply Hwf].
    simpl. destruct (decide (rq_key rq = k)) as [<-|Hne].
    + rewrite lookup_insert_eq. intros [= <-].
      by apply (processResponse_entry _ _ _ _ _ _ Hproc).
    + rewrite lookup_insert_ne by done. apply Hwf.
  - rewrite invalidate_lookup. destruct (selects predicate k); [done|apply Hwf].
Qed.

Lemma entries_run cfg (events : list Event) k entry :
  responseCache (runs cfg events) !! k = Some entry -> entryWellFormed k entry.
Proof.
  revert k entry. unfold run.
  assert (forall k entry,
            responseCache initialState !! k = Some entry ->
            entryWellFormed k entry) as Hinit.
  { intros k entry. simpl. by rewrite lookup_empty. }
  revert Hinit. generalize initialState.
  induction events as [|ev events IH]; intros st Hst; simpl; [done|].
  apply IH. by apply entries_step.
Qed.

(** X12. In every state the client reaches, an entry stored under a key
    holds a result fetched for that key, with [servedFromCache] unset, a
    positive TTL, an expiry and no [error] array left in its payload; so
    every answer the client gives from the cache carries the key of the
    request that asks, [servedFromCache] set, and a payload without
    errors. *)
Theorem cache_entries_well_formed cfg (events : list Event) :
  let st := runs cfg events in
  (forall k entry, responseCache st !! k = Some entry -> entryWellFormed k entry)
  /\ (forall options now st' r,
        call cfg st options now = (st', Returned r) ->
        exists p,
          prep cfg options = inr p
          /\ meta_cacheKey (meta r) = pr_cacheKey p
          /\ meta_servedFromCache (meta r) = true
          /\ (forall first rest, pl_error (payload r) <> Some (first :: rest))).
Proof.
  simpl. pose proof (entries_run cfg events) as Hwf.
  split; [exact Hwf|].
  intros options now st' r. unfold callBusApi.
  destruct (prep cfg options) as [e|p] eqn:Hp; [done|].
  destruct (cacheLookup (runs cfg events) p now) as [cached|] eqn:Hl.
  - intros [= <- <-]. exists p. split; [done|].
    apply cacheLookup_Some in Hl as (_ & Hc & _).
    destruct (Hwf _ _ Hc) as (Hkey & _ & _ & _ & Herr). by split_and!.
  - by destruct (inFlightRequests (runs cfg events) !! pr_cacheKey p).
Qed.

End ClientMore.

Lemma no_credential_no_traffic_witness :
  effects (run id (fun _ => "q") sampleDate sampleParse sampleIso
             (mkConfig None "ctabus")
             [ECall (sampleOptions 30000) 1000;
              EDeliver 0 (Resolved dataResponse) 2000 2000])
  = [].
Proof.
  destruct (no_credential_no_traffic id (fun _ => "q") sampleDate sampleParse
              sampleIso (mkConfig None "ctabus")
              [ECall (sampleOptions 30000) 1000;
               EDeliver 0 (Resolved dataResponse) 2000 2000]) as [Hrun _].
  - reflexivity.
  - by rewrite Hrun.
Defined.

Lemma required_params_guard_witness :
  (exists e,
     callBusApi id (fun _ => "q") sampleConfig (settledState 30000 dataResponse)
       (mkOptions "getstops" (Some [("rt", PStr "22"); ("dir", PStr "")])
          (Some ["rt"; "dir"]) (Some "bus:getpredictions:1836") (Some 30000)
          None None) 5000
     = (settledState 30000 dataResponse, Threw e)
     /\ err_message e = "Missing required parameter: dir"
     /\ err_status e = 400)
  /\ (exists p,
        prepare id sampleConfig
          (mkOptions "getstops" (Some [("rt", PStr "22")])
             (Some ["rt"; "constructor"]) None None None None) = inr p).
Proof.
  split.
  - destruct (required_params_guard id (fun _ => "q") sampleConfig
                (settledState 30000 dataResponse)
                (mkOptions "getstops" (Some [("rt", PStr "22"); ("dir", PStr "")])
                   (Some ["rt"; "dir"]) (Some "bus:getpredictions:1836")
                   (Some 30000) None None) 5000) as (_ & _ & Hfail).
    + reflexivity.
    + eexists. split.
      * apply (Hfail ["rt"] "dir" []);
          [reflexivity|by repeat constructor|reflexivity].
      * split; reflexivity.
  - destruct (required_params_guard id (fun _ => "q") sampleConfig initialState
                (mkOptions "getstops" (Some [("rt", PStr "22")])
                   (Some ["rt"; "constructor"]) None None None None) 5000)
      as (Hpass & _ & _).
    + reflexivity.
    + apply Hpass. by repeat constructor.
Defined.

Lemma request_params_forced_witness :
  exists p,
    prepare id sampleConfig
      (mkOptions "getroutes" (Some [("key", PStr "mine"); ("format", PStr "xml")])
         None None None None None) = inr p
    /\ Obj.get "key" (pr_requestParams p) = Some "SECRET"
    /\ Obj.get "format" (pr_requestParams p) = Some "json"
    /\ Obj.get "format" (pr_normalizedParams p) = Some "xml".
Proof.
  eexists. split; [reflexivity|].
  destruct (request_params_forced id sampleConfig
              (mkOptions "getroutes"
                 (Some [("key", PStr "mine"); ("format", PStr "xml")])
                 None None None None None) _ eq_refl) as (_ & Hk & Hf & _).
  split_and!; [exact Hk|exact Hf|reflexivity].
Defined.

Lemma invalidate_does_not_cancel_witness :
  responseCache
    (deliver sampleDate sampleParse sampleIso
       (invalidateBusCache (launchedState 30000) None) 0
       (Resolved dataResponse) 2000 2000)
    !! "bus:getpredictions:1836"
  = Some sampleEntry.
Proof.
  destruct (invalidate_does_not_cancel sampleDate sampleParse sampleIso
              (launchedState 30000) None 0 (Resolved dataResponse) 2000 2000
              (sampleRequest 30000) [] dataResponse sampleResult)
    as (_ & Hcache & _).
  - reflexivity.
  - reflexivity.
  - reflexivity.
  - simpl. lia.
  - exact Hcache.
Defined.

(** ** Error codes and the error envelope *)

Lemma allChars_squeeze in_run s :
  allChars is_code_or_underscore (squeeze in_run s) = true.
Proof.
  revert in_run. induction s as [|a s IH]; intros in_run; simpl; [done|].
  destruct (is_code_char a) eqn:Ha; simpl.
  - unfold is_code_or_underscore at 1. by rewrite Ha, IH.
  - destruct in_run; simpl; by rewrite ?IH.
Qed.

Lemma allChars_dropLeading P s :
  allChars P s = true -> allChars P (dropLeadingUnderscores s) = true.
Proof.
  induction s as [|a s IH]; simpl; [done|].
  intros [Ha Hs]%andb_true_iff. destruct (decide (a = "_"%char)); [by apply IH|].
  simpl. by rewrite Ha, Hs.
Qed.

Lemma allChars_rev_app P s1 s2 :
  allChars P s1 = true -> allChars P s2 = true ->
  allChars P (String.rev_app s1 s2) = true.
Proof.
  revert s2. induction s1 as [|a s1 IH]; intros s2; simpl; [done|].
  intros [Ha Hs]%andb_true_iff H2. apply IH; [done|]. simpl. by rewrite Ha, H2.
Qed.

Lemma allChars_take P n s :
  allChars P s = true -> allChars P (Str.take n s) = true.
Proof.
  revert s. induction n as [|n IH]; intros [|a s]; simpl; try done.
  intros [Ha Hs]%andb_true_iff. by rewrite Ha, IH.
Qed.

Lemma length_take n s : (String.length (Str.take n s) <= n)%nat.
Proof.
  revert s. induction n as [|n IH]; intros [|a s]; simpl; try lia.
  specialize (IH s). lia.
Qed.

(** X13. The code derived from a message is never empty, has at most 60
    code units, and is made of upper-case letters, digits and underscores
    only, whatever the message. *)
Theorem deriveCodeFromMessage_shape message :
  Str.truthy (deriveCodeFromMessage message) = true
  /\ (String.length (deriveCodeFromMessage message) <= 60)%nat
  /\ allChars is_code_or_underscore (deriveCodeFromMessage message) = true.
Proof.
  split; [apply deriveCodeFromMessage_truthy|].
  unfold deriveCodeFromMessage.
  destruct (Str.truthy (Str.take 60 _)); [|split; [simpl; lia|reflexivity]].
  split; [apply length_take|].
  apply allChars_take. unfold trimUnderscores, String.rev.
  apply allChars_rev_app; [|done].
  apply allChars_dropLeading, allChars_rev_app; [|done].
  apply allChars_dropLeading, allChars_squeeze.
Qed.

Lemma prepare_error_has_no_raw_errors encodeURIComponent cfg options e :
  prepare encodeURIComponent cfg options = inl e ->
  err_rawErrors e = None
  /\ ((err_code e = "CTA_BUS_CONFIG_MISSING" /\ err_status e = 500)
      \/ (err_code e = "CTA_BUS_BAD_REQUEST" /\ err_status e = 400)).
Proof.
  unfold prepare, ensureApiKey.
  destruct (Str.truthy_opt (CTA_BUS_TRACKER_API_KEY cfg)).
  - destruct (checkRequired _ _ _) as [e'|] eqn:Hreq; [|done].
    intros [= <-]. revert Hreq.
    generalize (default [] (opt_requiredParams options)).
    intros required. induction required as [|key rest IH]; simpl; [done|].
    destruct (isMissing _ key).
    + intros [= <-]. split; [done|]. right. done.
    + exact IH.
  - intros [= <-]. split; [done|]. left. done.
Qed.

Section EnvelopeFacts.

Variable isoOfMillis : Z -> string.
Local Abbreviation mapError := (mapBusApiError isoOfMillis).

(** X14. The status a [BusClientError] carries never reaches the caller:
    for an error without upstream error objects the envelope keeps the
    error's code, message and details, and its status is the one of the
    call context or else 502. In particular the errors of [callBusApi]'s own
    validation, made with status 500 (no credential) or 400 (missing
    parameter), are reported with 502 by a handler that sets no status. *)
Theorem error_status_is_dropped e context now :
  (err_rawErrors e = None \/ err_rawErrors e = Some []) ->
  let mapped := mapError (UClient e) context now in
  am_status (env_meta mapped) = Some (default 502 (ctx_status context))
  /\ env_error mapped = mkDetail (err_code e) (err_message e) (err_details e)
  /\ (forall encodeURIComponent cfg options,
        prepare encodeURIComponent cfg options = inl e ->
        ctx_status context = None ->
        (err_status e = 500 \/ err_status e = 400)
        /\ am_status (env_meta mapped) = Some 502).
Proof.
  intros Hraw. cbv zeta.
  assert (am_status (env_meta (mapError (UClient e) context now))
          = Some (default 502 (ctx_status context))
          /\ env_error (mapError (UClient e) context now)
             = mkDetail (err_code e) (err_message e) (err_details e)) as [H1 H2].
  { unfold mapBusApiError. by destruct Hraw as [-> | ->]. }
  split_and!; [done|done|].
  intros enc cfg options Hp Hctx.
  destruct (prepare_error_has_no_raw_errors enc cfg options e Hp)
    as [_ [[_ Hs]|[_ Hs]]]; rewrite H1, Hctx; split; auto.
Qed.

End EnvelopeFacts.

Lemma error_status_is_dropped_witness :
  exists e,
    prepare id (mkConfig None "ctabus") (sampleOptions 30000) = inl e
    /\ err_status e = 500
    /\ am_status (env_meta (mapBusApiError sampleIsoOfMillis (UClient e)
                              sampleContext 3000)) = Some 502.
Proof.
  eexists. split; [reflexivity|]. split; [reflexivity|].
  refine (proj1 (error_status_is_dropped sampleIsoOfMillis _ sampleContext 3000 _)).
  left. reflexivity.
Defined.

Lemma Obj_set_fresh {V} k (v : V) (o : list (string * V)) :
  k ∉ o.*1 -> Obj.set k v o = (o ++ [(k, v)])%list.
Proof.
  induction o as [|[k' v'] o IH]; csimpl; [done|].
  intros Hnin. destruct (decide (k = k')) as [->|Hne].
  - exfalso. apply Hnin, elem_of_cons. by left.
  - rewrite IH; [done|]. intros Hin. apply Hnin, elem_of_cons. by right.
Qed.

Lemma sanitizeParams_fold acc params :
  NoDup (acc.*1 ++ params.*1)%list ->
  foldl (fun result kv =>
           match kv.2 with
           | PUndefined | PNull => result
           | _ => Obj.set kv.1 kv.2 result
           end) acc params
  = (acc ++ filter (fun kv => isNullish kv.2 = false) params)%list.
Proof.
  revert acc. induction params as [|[k v] params IH]; intros acc Hnd; csimpl.
  - by rewrite app_nil_r.
  - assert (k ∉ acc.*1) as Hk.
    { apply NoDup_app in Hnd as (_ & Hdis & _). intros Hin.
      apply (Hdis k Hin), elem_of_cons. by left. }
    assert (NoDup ((acc ++ [(k, v)])%list.*1 ++ params.*1)%list) as Hnd'.
    { rewrite fmap_app. csimpl. by rewrite <- app_assoc. }
    assert (NoDup (acc.*1 ++ params.*1)%list) as Hnd''.
    { apply NoDup_app in Hnd as (Ha & Hdis & Hp).
      apply NoDup_cons in Hp as [_ Hp]. apply NoDup_app. split_and!; [done| |done].
      intros x Hx Hx'. apply (Hdis x Hx), elem_of_cons. by right. }
    destruct v; rewrite ?filter_cons_True, ?filter_cons_False by done;
      simpl; rewrite ?Obj_set_fresh by done; rewrite IH by done;
      by rewrite <- ?app_assoc.
Qed.



(** ** The predictions route *)

Lemma getAll_nil_get name (query : list (string * string)) :
  getAll name query = [] -> Obj.get name query = None.
Proof.
  unfold getAll. induction query as [|[k v] query IH]; simpl; [done|].
  destruct (decide (name = k)) as [->|Hne].
  - by rewrite filter_cons_True.
  - rewrite filter_cons_False by (simpl; congruence). exact IH.
Qed.

Lemma filterBoolean_truthy values :
  Forall (fun v => Str.truthy v = true) (filterBoolean values).
Proof.
  apply Forall_forall. intros v Hv.
  unfold filterBoolean in Hv. by apply list_elem_of_filter in Hv as [? _].
Qed.

Lemma collectStopIds_eq searchParams :
  collectStopIds searchParams =
    filterBoolean
      (getAll (if bool_decide (getAll "stpid" searchParams = [])
               then "stopId" else "stpid") searchParams).
Proof.
  unfold collectStopIds.
  destruct (getAll "stpid" searchParams) as [|v vs] eqn:Hmulti; simpl.
  - destruct (getAll "stopId" searchParams) as [|w ws] eqn:Halt; simpl; [|done].
    rewrite (getAll_nil_get _ _ Hmulti), (getAll_nil_get _ _ Halt). done.
  - by rewrite Hmulti.
Qed.

Lemma collectStopIds_truthy searchParams :
  Forall (fun v => Str.truthy v = true) (collectStopIds searchParams).
Proof. rewrite collectStopIds_eq. apply filterBoolean_truthy. Qed.

(** X16. [collectStopIds] returns the non-empty values of the ["stpid"]
    entries of the query if it has any such entry, and otherwise the
    non-empty values of its ["stopId"] entries: a query with an empty
    ["stpid"] never falls back to ["stopId"], the single-value fallback of
    the function is never reached, and no empty id is returned. *)
Theorem collectStopIds_spec searchParams :
  collectStopIds searchParams =
    filterBoolean
      (getAll (if bool_decide (getAll "stpid" searchParams = [])
               then "stopId" else "stpid") searchParams)
  /\ Forall (fun v => Str.truthy v = true) (collectStopIds searchParams).
Proof. split; [apply collectStopIds_eq|apply collectStopIds_truthy]. Qed.

Lemma join_truthy sep first rest :
  Str.truthy first = true -> Str.truthy (Str.join sep (first :: rest)) = true.
Proof. destruct first; [done|]. intros _. by destruct rest. Qed.

Lemma append_inv_head p x y : p +:+ x = p +:+ y -> x = y.
Proof. induction p as [|a p IH]; simpl; [done|]. intros [= H]. by apply IH. Qed.

Lemma append_cons x a b : String x a +:+ b = String x (a +:+ b).
Proof. reflexivity. Qed.

Lemma append_nil b : "" +:+ b = b.
Proof. reflexivity. Qed.

Lemma append_assoc a b c : (a +:+ b) +:+ c = a +:+ b +:+ c.
Proof.
  induction a as [|x a IH]; [done|].
  rewrite !append_cons. f_equal. exact IH.
Qed.

Lemma append_neq a b : a <> a +:+ ":" +:+ b.
Proof.
  induction a as [|x a IH]; [discriminate|].
  rewrite append_cons. intros [= H]. by apply IH.
Qed.

Lemma countChar_append c a b :
  countChar c (a +:+ b) = (countChar c a + countChar c b)%nat.
Proof.
  induction a as [|x a IH]; [done|].
  rewrite append_cons. simpl. rewrite IH. lia.
Qed.

Lemma colonFree_count s : colonFree s = true <-> countChar ":" s = 0%nat.
Proof.
  unfold colonFree. induction s as [|a s IH]; simpl; [done|].
  rewrite andb_true_iff, IH. destruct (decide (a = ":"%char)) as [->|Hne].
  - simpl. split; [by intros [? _]|lia].
  - rewrite bool_decide_eq_false_2 by done. simpl. tauto.
Qed.

Lemma append_colon_inj a b a' b' :
  colonFree a = true -> colonFree a' = true ->
  a +:+ ":" +:+ b = a' +:+ ":" +:+ b' -> a = a' /\ b = b'.
Proof.
  unfold colonFree. revert a'.
  induction a as [|x a IH]; intros [|x' a'];
    repeat (rewrite append_cons || rewrite append_nil); simpl.
  - intros _ _ [= ->]. done.
  - intros _ Hfree [= <- _]. done.
  - intros Hfree _ [= -> _]. done.
  - intros [_ Ha]%andb_true_iff [_ Ha']%andb_true_iff [= -> H].
    destruct (IH a' Ha Ha' H) as [-> ->]. done.
Qed.

Lemma default_truthy_opt a b :
  default "" a = default "" b -> Str.truthy_opt a = Str.truthy_opt b.
Proof. destruct a, b; simpl; intros H; by subst. Qed.

Lemma normalize_paramOf (normalized : list (string * string)) k a b :
  default "" a = default "" b ->
  (if isBlank (paramOf a) then normalized
   else Obj.set k (stringOf (paramOf a)) normalized)
  = (if isBlank (paramOf b) then normalized
     else Obj.set k (stringOf (paramOf b)) normalized).
Proof. destruct a, b; simpl; intros H; by subst. Qed.

Lemma predictionsOptions_Some searchParams options :
  predictionsOptions searchParams = Some options ->
  Str.truthy (Str.join "," (collectStopIds searchParams)) = true
  /\ options =
       mkOptions PREDICTIONS_ENDPOINT
         (Some [("stpid", PStr (Str.join "," (collectStopIds searchParams)));
                ("rt", paramOf (Obj.get "rt" searchParams));
                ("top", paramOf (Obj.get "top" searchParams));
                ("vid", paramOf (Obj.get "vid" searchParams))])
         (Some ["stpid"])
         (Some (predictionsCacheKey (Str.join "," (collectStopIds searchParams))
                  (Obj.get "rt" searchParams) (Obj.get "vid" searchParams)
                  (Obj.get "top" searchParams)))
         (Some (predictionsTtl (Obj.get "vid" searchParams)
                  (Obj.get "top" searchParams)))
         None None.
Proof.
  unfold predictionsOptions.
  pose proof (collectStopIds_truthy searchParams) as Htruthy.
  destruct (collectStopIds searchParams) as [|first rest]; [done|].
  cbn [length Nat.eqb]. intros [= <-].
  apply Forall_cons in Htruthy as [Hfirst _].
  split; [by apply join_truthy|done].
Qed.

Lemma predictions_checkRequired joined rt top vid :
  Str.truthy joined = true ->
  checkRequired PREDICTIONS_ENDPOINT
    [("stpid", PStr joined); ("rt", rt); ("top", top); ("vid", vid)] ["stpid"]
  = None.
Proof.
  intros Hjoin. apply checkRequired_None. repeat constructor.
  unfold present, isMissing. cbn [Obj.get].
  destruct (decide ("stpid" = "stpid")); [|done].
  cbn [isBlank]. by rewrite Hjoin.
Qed.

Lemma predictions_key_parts s r v t s' r' v' t' :
  colonFree s = true -> colonFree r = true -> colonFree v = true ->
  colonFree t = true ->
  predictionsCacheKey s (Some r) (Some v) (Some t)
  = predictionsCacheKey s' (Some r') (Some v') (Some t') ->
  s = s' /\ r = r' /\ v = v' /\ t = t'.
Proof.
  intros Hs Hr Hv Ht Hkey.
  assert (countChar ":" (predictionsCacheKey s' (Some r') (Some v') (Some t'))
          = 5%nat) as Hcount.
  { rewrite <- Hkey. unfold predictionsCacheKey.
    rewrite !countChar_append.
    apply colonFree_count in Hs, Hr, Hv, Ht.
    cbn [default from_option id]. rewrite Hs, Hr, Hv, Ht. reflexivity. }
  unfold predictionsCacheKey in Hcount. rewrite !countChar_append in Hcount.
  cbn [default from_option id] in Hcount.
  change (countChar ":" "bus:") with 1%nat in Hcount.
  change (countChar ":" PREDICTIONS_ENDPOINT) with 0%nat in Hcount.
  change (countChar ":" ":") with 1%nat in Hcount.
  assert (colonFree s' = true) as Hs' by (apply colonFree_count; lia).
  assert (colonFree r' = true) as Hr' by (apply colonFree_count; lia).
  assert (colonFree v' = true) as Hv' by (apply colonFree_count; lia).
  unfold predictionsCacheKey in Hkey. cbn [default from_option id] in Hkey.
  do 3 apply append_inv_head in Hkey.
  apply append_colon_inj in Hkey as [<- Hkey]; [|done..].
  apply append_colon_inj in Hkey as [<- Hkey]; [|done..].
  apply append_colon_inj in Hkey as [<- <-]; done.
Qed.

Lemma predictionsCacheKey_default s r v t :
  predictionsCacheKey s r v t
  = predictionsCacheKey s (Some (default "" r)) (Some (default "" v))
      (Some (default "" t)).
Proof. reflexivity. Qed.

Section RouteFacts.

Variable encodeURIComponent : string -> string.
Variable urlSearchParamsToString : list (string * string) -> string.
Local Abbreviation prep := (prepare encodeURIComponent).
Local Abbreviation call :=
  (callBusApi encodeURIComponent urlSearchParamsToString).

Lemma predictions_prepare cfg searchParams options :
  Str.truthy_opt (CTA_BUS_TRACKER_API_KEY cfg) = true ->
  predictionsOptions searchParams = Some options ->
  exists p,
    prep cfg options = inr p
    /\ pr_cacheKey p =
         predictionsCacheKey (Str.join "," (collectStopIds searchParams))
           (Obj.get "rt" searchParams) (Obj.get "vid" searchParams)
           (Obj.get "top" searchParams)
    /\ Obj.get "stpid" (pr_normalizedParams p)
         = Some (Str.join "," (collectStopIds searchParams))
    /\ pr_cacheTtlMs p =
         (if Str.truthy_opt (Obj.get "top" searchParams)
             || Str.truthy_opt (Obj.get "vid" searchParams)
          then 0 else 15000).
Proof.
  intros Hkey [Hjoin ->]%predictionsOptions_Some.
  set (joined := Str.join "," (collectStopIds searchParams)) in *.
  set (params := [("stpid", PStr joined);
                  ("rt", paramOf (Obj.get "rt" searchParams));
                  ("top", paramOf (Obj.get "top" searchParams));
                  ("vid", paramOf (Obj.get "vid" searchParams))]).
  assert (Obj.get "stpid" params = Some (PStr joined)) as Hget.
  { unfold params. cbn [Obj.get].
    by destruct (decide ("stpid" = "stpid")). }
  assert (NoDup params.*1) as Hnd.
  { apply (bool_decide_unpack (NoDup ["stpid"; "rt"; "top"; "vid"])).
    vm_compute. exact I. }
  unfold prepare, ensureApiKey. rewrite Hkey.
  cbn [opt_params opt_requiredParams opt_endpoint opt_cacheKey opt_cacheTtlMs
       opt_timeoutMs opt_maxRetries default from_option id].
  assert (checkRequired PREDICTIONS_ENDPOINT params ["stpid"] = None) as ->
    by (by apply predictions_checkRequired).
  eexists. split; [reflexivity|].
  cbn [pr_cacheKey pr_normalizedParams pr_cacheTtlMs].
  split_and!.
  - reflexivity.
  - apply withDefaults_keeps; [|exact Hjoin].
    rewrite (normalizeParams_get params "stpid" Hnd), Hget.
    cbn [isBlank stringOf]. by rewrite Hjoin.
  - reflexivity.
Qed.

(** X17. When the predictions handler calls the client, the client's own
    validation cannot fail once a credential is configured: the joined stop
    ids are not blank. The call uses the handler's cache key, and its TTL
    is 0 when a non-empty [top] or [vid] is given and 15 s otherwise. The
    handler answers 400 itself exactly when [collectStopIds] finds no id. *)
Theorem predictions_route_call cfg searchParams :
  Str.truthy_opt (CTA_BUS_TRACKER_API_KEY cfg) = true ->
  match predictionsOptions searchParams with
  | None => collectStopIds searchParams = []
  | Some options =>
      collectStopIds searchParams <> []
      /\ exists p,
           prep cfg options = inr p
           /\ pr_cacheKey p =
                predictionsCacheKey (Str.join "," (collectStopIds searchParams))
                  (Obj.get "rt" searchParams) (Obj.get "vid" searchParams)
                  (Obj.get "top" searchParams)
           /\ Obj.get "stpid" (pr_normalizedParams p)
                = Some (Str.join "," (collectStopIds searchParams))
           /\ pr_cacheTtlMs p =
                (if Str.truthy_opt (Obj.get "top" searchParams)
                    || Str.truthy_opt (Obj.get "vid" searchParams)
                 then 0 else 15000)
  end.
Proof.
  intros Hkey.
  destruct (predictionsOptions searchParams) as [options|] eqn:Hopts.
  - split; [|by apply predictions_prepare].
    intros Hnil. unfold predictionsOptions in Hopts. by rewrite Hnil in Hopts.
  - unfold predictionsOptions in Hopts.
    by destruct (collectStopIds searchParams).
Qed.

(** X18. The cache key of the predictions route identifies the request of
    every query whose stop ids, route, vehicle and [top] values hold no
    colon: whatever other query yields the same key, the client derives the
    same upstream parameters, key and TTL for it (or rejects both alike), so
    an answer cached for one is an answer to the other. *)
Theorem predictions_key_determines_request cfg q1 q2 o1 o2 :
  predictionsOptions q1 = Some o1 ->
  predictionsOptions q2 = Some o2 ->
  colonFreeQuery q1 = true ->
  opt_cacheKey o1 = opt_cacheKey o2 ->
  prep cfg o1 = prep cfg o2.
Proof.
  intros [Hj1 ->]%predictionsOptions_Some [Hj2 ->]%predictionsOptions_Some.
  unfold colonFreeQuery, keyParts. cbn [forallb opt_cacheKey].
  rewrite !andb_true_iff. intros (Hs & Hr & Hv & Ht & _) Hkey%(inj Some).
  pose proof Hkey as Hparts.
  rewrite (predictionsCacheKey_default _ (Obj.get "rt" q1)),
    (predictionsCacheKey_default _ (Obj.get "rt" q2)) in Hparts.
  apply predictions_key_parts in Hparts as (Hs' & Hr' & Hv' & Ht'); [|done..].
  unfold prepare. destruct (ensureApiKey cfg); [done|].
  cbn [opt_params opt_requiredParams opt_endpoint opt_cacheKey opt_cacheTtlMs
       opt_timeoutMs opt_maxRetries default from_option id].
  rewrite !predictions_checkRequired by done.
  rewrite <- Hkey. unfold predictionsTtl.
  rewrite <- (default_truthy_opt _ _ Hv'), <- (default_truthy_opt _ _ Ht').
  unfold normalizeParams. cbn [foldl fst snd].
  rewrite <- Hs'.
  rewrite <- (normalize_paramOf _ "rt" _ _ Hr'),
    <- (normalize_paramOf _ "top" _ _ Ht'),
    <- (normalize_paramOf _ "vid" _ _ Hv').
  reflexivity.
Qed.

(** X19. Colons are not escaped in that key. For a stop id [a] and strings
    [b] and [c], the query with stop [a] and route [b:c] and the query with
    stop [a:b] and route [c] get the same key and a TTL of 15 s, while the
    client would ask the upstream about different stops for them; and
    whenever the client answers the first from its cache, it gives the
    second that very answer. *)
Theorem predictions_key_collision cfg a b c :
  Str.truthy_opt (CTA_BUS_TRACKER_API_KEY cfg) = true ->
  Str.truthy a = true ->
  exists o1 o2 p1 p2,
    predictionsOptions [("stpid", a); ("rt", b +:+ ":" +:+ c)] = Some o1
    /\ predictionsOptions [("stpid", a +:+ ":" +:+ b); ("rt", c)] = Some o2
    /\ prep cfg o1 = inr p1
    /\ prep cfg o2 = inr p2
    /\ pr_cacheKey p1 = pr_cacheKey p2
    /\ pr_cacheTtlMs p1 = 15000
    /\ pr_cacheTtlMs p2 = 15000
    /\ Obj.get "stpid" (pr_normalizedParams p1) = Some a
    /\ Obj.get "stpid" (pr_normalizedParams p2) = Some (a +:+ ":" +:+ b)
    /\ a <> a +:+ ":" +:+ b
    /\ (forall st now st' r,
          call cfg st o1 now = (st', Returned r) ->
          call cfg st o2 now = (st', Returned r)).
Proof.
  intros Hkey Ha.
  set (q1 := [("stpid", a); ("rt", b +:+ ":" +:+ c)]).
  set (q2 := [("stpid", a +:+ ":" +:+ b); ("rt", c)]).
  assert (collectStopIds q1 = [a]) as Hc1.
  { destruct a; [done|]. reflexivity. }
  assert (collectStopIds q2 = [a +:+ ":" +:+ b]) as Hc2.
  { destruct a; [done|]. reflexivity. }
  assert (exists o1, predictionsOptions q1 = Some o1) as [o1 Ho1].
  { unfold predictionsOptions. rewrite Hc1. by eexists. }
  assert (exists o2, predictionsOptions q2 = Some o2) as [o2 Ho2].
  { unfold predictionsOptions. rewrite Hc2. by eexists. }
  destruct (predictions_prepare cfg q1 o1 Hkey Ho1) as (p1 & Hp1 & Hk1 & Hs1 & Ht1).
  destruct (predictions_prepare cfg q2 o2 Hkey Ho2) as (p2 & Hp2 & Hk2 & Hs2 & Ht2).
  rewrite Hc1 in Hk1, Hs1. rewrite Hc2 in Hk2, Hs2.
  assert (pr_cacheKey p1 = pr_cacheKey p2) as Hsame.
  { rewrite Hk1, Hk2. unfold predictionsCacheKey.
    change (Obj.get "rt" q1) with (Some (b +:+ ":" +:+ c)).
    change (Obj.get "rt" q2) with (Some c).
    change (Obj.get "vid" q1) with (@None string).
    change (Obj.get "vid" q2) with (@None string).
    change (Obj.get "top" q1) with (@None string).
    change (Obj.get "top" q2) with (@None string).
    cbn [Str.join default from_option id].
    by rewrite !append_assoc. }
  change (pr_cacheTtlMs p1 = 15000) in Ht1.
  change (pr_cacheTtlMs p2 = 15000) in Ht2.
  exists o1, o2, p1, p2. split_and!; try done.
  - apply append_neq.
  - intros st now st' r. unfold callBusApi. rewrite Hp1, Hp2.
    assert (cacheLookup st p1 now = cacheLookup st p2 now) as <-.
    { unfold cacheLookup. by rewrite Hsame, Ht1, Ht2. }
    destruct (cacheLookup st p1 now); [done|].
    by destruct (inFlightRequests st !! pr_cacheKey p1).
Qed.


Lemma pair_key_inj r v r' v' :
  colonFree r = true -> colonFree v = true ->
  r +:+ ":" +:+ v = r' +:+ ":" +:+ v' -> r = r' /\ v = v'.
Proof.
  intros Hr Hv Hkey.
  assert (countChar ":" (r' +:+ ":" +:+ v') = 1%nat) as Hcount.
  { rewrite <- Hkey, !countChar_append.
    apply colonFree_count in Hr, Hv. rewrite Hr, Hv. reflexivity. }
  rewrite !countChar_append in Hcount.
  change (countChar ":" ":") with 1%nat in Hcount.
  apply append_colon_inj; [done| |done].
  apply colonFree_count. lia.
Qed.

(** A handler that passes two optional parameters, a key and a TTL. *)
Lemma pair_prepare cfg endpoint k1 k2 a b key ttl :
  Str.truthy_opt (CTA_BUS_TRACKER_API_KEY cfg) = true ->
  Str.truthy key = true ->
  k1 <> k2 ->
  k1 <> "rtpidatafeed" -> k1 <> "format" ->
  k2 <> "rtpidatafeed" -> k2 <> "format" ->
  exists p,
    prep cfg (mkOptions endpoint (Some [(k1, paramOf a); (k2, paramOf b)])
                None (Some key) (Some ttl) None None) = inr p
    /\ pr_cacheKey p = key
    /\ pr_cacheTtlMs p = ttl
    /\ Obj.get k1 (pr_normalizedParams p)
         = (if Str.truthy_opt a then a else None)
    /\ Obj.get k2 (pr_normalizedParams p)
         = (if Str.truthy_opt b then b else None).
Proof.
  intros Hkey Htruthy H12 Hf1 Hg1 Hf2 Hg2.
  set (params := [(k1, paramOf a); (k2, paramOf b)]).
  assert (NoDup params.*1) as Hnd.
  { cbn. apply NoDup_cons. split; [|apply NoDup_singleton].
    by intros Hin%list_elem_of_singleton. }
  assert (Obj.get k1 params = Some (paramOf a)) as Hget1.
  { unfold params. cbn [Obj.get]. by rewrite decide_True. }
  assert (Obj.get k2 params = Some (paramOf b)) as Hget2.
  { unfold params. cbn [Obj.get].
    rewrite decide_False by done. by rewrite decide_True. }
  unfold prepare, ensureApiKey. rewrite Hkey.
  cbn [opt_params opt_requiredParams opt_endpoint opt_cacheKey opt_cacheTtlMs
       opt_timeoutMs opt_maxRetries default from_option id checkRequired].
  fold params. eexists. split; [reflexivity|].
  cbn [pr_cacheKey pr_normalizedParams pr_cacheTtlMs].
  split_and!.
  - unfold computeCacheKey. cbn [Str.truthy_opt]. by rewrite Htruthy.
  - reflexivity.
  - rewrite withDefaults_get, (normalizeParams_get params k1 Hnd), Hget1.
    rewrite !decide_False by done.
    destruct a as [[|x a]|]; reflexivity.
  - rewrite withDefaults_get, (normalizeParams_get params k2 Hnd), Hget2.
    rewrite !decide_False by done.
    destruct b as [[|x b]|]; reflexivity.
Qed.

Lemma pair_prepare_eq cfg endpoint k1 k2 a b a' b' key ttl :
  default "" a = default "" a' -> default "" b = default "" b' ->
  prep cfg (mkOptions endpoint (Some [(k1, paramOf a); (k2, paramOf b)])
              None (Some key) (Some ttl) None None)
  = prep cfg (mkOptions endpoint (Some [(k1, paramOf a'); (k2, paramOf b')])
                None (Some key) (Some ttl) None None).
Proof.
  intros Ha Hb. unfold prepare. destruct (ensureApiKey cfg); [done|].
  cbn [opt_params opt_requiredParams opt_endpoint opt_cacheKey opt_cacheTtlMs
       opt_timeoutMs opt_maxRetries default from_option id checkRequired].
  unfold normalizeParams. cbn [foldl fst snd].
  rewrite (normalize_paramOf _ k1 _ _ Ha), (normalize_paramOf _ k2 _ _ Hb).
  reflexivity.
Qed.

Lemma guard_false a b :
  negb (Str.truthy_opt a) && negb (Str.truthy_opt b) = false ->
  Str.truthy_opt a = true \/ Str.truthy_opt b = true.
Proof.
  intros H. destruct (Str.truthy_opt a); [by left|].
  destruct (Str.truthy_opt b); [by right|done].
Qed.

(** X20. The vehicles handler answers 400 itself exactly when the query has
    neither a non-empty [rt] nor a non-empty [vid]. Otherwise, with a
    credential configured, the client accepts the call; the request uses
    the handler's key and a TTL of 15 s; [rt] and [vid] reach the upstream
    exactly when they are non-empty, unchanged; and at least one of them
    does, so the upstream is never asked for all vehicles. *)
Theorem vehicles_route_call cfg searchParams :
  Str.truthy_opt (CTA_BUS_TRACKER_API_KEY cfg) = true ->
  let rt := Obj.get "rt" searchParams in
  let vid := Obj.get "vid" searchParams in
  match vehiclesOptions searchParams with
  | None => Str.truthy_opt rt = false /\ Str.truthy_opt vid = false
  | Some options =>
      exists p,
        prep cfg options = inr p
        /\ pr_cacheKey p = vehiclesCacheKey rt vid
        /\ pr_cacheTtlMs p = 15000
        /\ Obj.get "rt" (pr_normalizedParams p)
             = (if Str.truthy_opt rt then rt else None)
        /\ Obj.get "vid" (pr_normalizedParams p)
             = (if Str.truthy_opt vid then vid else None)
        /\ (is_Some (Obj.get "rt" (pr_normalizedParams p))
            \/ is_Some (Obj.get "vid" (pr_normalizedParams p)))
  end.
Proof.
  intros Hkey rt vid. unfold vehiclesOptions. fold rt vid.
  destruct (negb (Str.truthy_opt rt) && negb (Str.truthy_opt vid)) eqn:Hguard.
  - apply andb_true_iff in Hguard as [H1 H2].
    by rewrite negb_true_iff in H1, H2.
  - destruct (pair_prepare cfg VEHICLES_ENDPOINT "rt" "vid" rt vid
                (vehiclesCacheKey rt vid) VEHICLES_CACHE_TTL_MS)
      as (p & Hp & Hk & Ht & Hrt & Hvid); [done..|].
    exists p. split_and!; [done..|].
    rewrite Hrt, Hvid.
    destruct (guard_false _ _ Hguard) as [H|H]; [left|right]; rewrite H.
    + destruct rt; [by eexists|done].
    + destruct vid; [by eexists|done].
Qed.

(** X21. The cache key of the vehicles route identifies the request of every
    query whose [rt] and [vid] hold no colon: for any other query with the
    same key the client derives the same request, so an answer cached for
    one is an answer to the other. *)
Theorem vehicles_key_determines_request cfg q1 q2 o1 o2 :
  vehiclesOptions q1 = Some o1 ->
  vehiclesOptions q2 = Some o2 ->
  colonFree (default "" (Obj.get "rt" q1)) = true ->
  colonFree (default "" (Obj.get "vid" q1)) = true ->
  opt_cacheKey o1 = opt_cacheKey o2 ->
  prep cfg o1 = prep cfg o2.
Proof.
  unfold vehiclesOptions.
  destruct (negb _ && negb _); [done|]. intros [= <-].
  destruct (negb _ && negb _); [done|]. intros [= <-].
  cbn [opt_cacheKey]. intros Hr Hv Hkey%(inj Some).
  pose proof Hkey as Hparts. unfold vehiclesCacheKey in Hparts.
  do 3 apply append_inv_head in Hparts.
  apply pair_key_inj in Hparts as [Hrt Hvid]; [|done..].
  rewrite <- Hkey. by apply pair_prepare_eq.
Qed.

(** X22. The patterns handler answers 400 itself exactly when the query has
    neither a non-empty [rt] nor a non-empty [pid]. Otherwise, with a
    credential configured, the client accepts the call; the request uses
    the handler's key and a TTL of four hours; [rt] and [pid] reach the
    upstream exactly when they are non-empty, unchanged; and at least one
    of them does. *)
Theorem patterns_route_call cfg searchParams :
  Str.truthy_opt (CTA_BUS_TRACKER_API_KEY cfg) = true ->
  let rt := Obj.get "rt" searchParams in
  let pid := Obj.get "pid" searchParams in
  match patternsOptions searchParams with
  | None => Str.truthy_opt rt = false /\ Str.truthy_opt pid = false
  | Some options =>
      exists p,
        prep cfg options = inr p
        /\ pr_cacheKey p = patternsCacheKey rt pid
        /\ pr_cacheTtlMs p = 14400000
        /\ Obj.get "rt" (pr_normalizedParams p)
             = (if Str.truthy_opt rt then rt else None)
        /\ Obj.get "pid" (pr_normalizedParams p)
             = (if Str.truthy_opt pid then pid else None)
        /\ (is_Some (Obj.get "rt" (pr_normalizedParams p))
            \/ is_Some (Obj.get "pid" (pr_normalizedParams p)))
  end.
Proof.
  intros Hkey rt pid. unfold patternsOptions. fold rt pid.
  destruct (negb (Str.truthy_opt rt) && negb (Str.truthy_opt pid)) eqn:Hguard.
  - apply andb_true_iff in Hguard as [H1 H2].
    by rewrite negb_true_iff in H1, H2.
  - destruct (pair_prepare cfg PATTERNS_ENDPOINT "rt" "pid" rt pid
                (patternsCacheKey rt pid) PATTERNS_CACHE_TTL_MS)
      as (p & Hp & Hk & Ht & Hrt & Hpid); [done..|].
    exists p. split_and!; [done..|].
    rewrite Hrt, Hpid.
    destruct (guard_false _ _ Hguard) as [H|H]; [left|right]; rewrite H.
    + destruct rt; [by eexists|done].
    + destruct pid; [by eexists|done].
Qed.

(** X23. The cache key of the patterns route identifies the request of every
    query whose [rt] and [pid] hold no colon: for any other query with the
    same key the client derives the same request. *)
Theorem patterns_key_determines_request cfg q1 q2 o1 o2 :
  patternsOptions q1 = Some o1 ->
  patternsOptions q2 = Some o2 ->
  colonFree (default "" (Obj.get "rt" q1)) = true ->
  colonFree (default "" (Obj.get "pid" q1)) = true ->
  opt_cacheKey o1 = opt_cacheKey o2 ->
  prep cfg o1 = prep cfg o2.
Proof.
  unfold patternsOptions.
  destruct (negb _ && negb _); [done|]. intros [= <-].
  destruct (negb _ && negb _); [done|]. intros [= <-].
  cbn [opt_cacheKey]. intros Hr Hv Hkey%(inj Some).
  pose proof Hkey as Hparts. unfold patternsCacheKey in Hparts.
  do 3 apply append_inv_head in Hparts.
  apply pair_key_inj in Hparts as [Hrt Hpid]; [|done..].
  rewrite <- Hkey. by apply pair_prepare_eq.
Qed.

End RouteFacts.

Lemma predictions_route_call_witness :
  Str.truthy_opt (CTA_BUS_TRACKER_API_KEY sampleConfig) = true
  /\ match predictionsOptions [("stpid", "1836"); ("stpid", "1127"); ("vid", "4012")] with
     | None => False
     | Some options =>
         exists p,
           prepare id sampleConfig options = inr p
           /\ pr_cacheKey p = "bus:getpredictions:1836,1127::4012:"
           /\ Obj.get "stpid" (pr_normalizedParams p) = Some "1836,1127"
           /\ pr_cacheTtlMs p = 0
     end.
Proof.
  split; [reflexivity|].
  exact (proj2 (predictions_route_call id sampleConfig
                  [("stpid", "1836"); ("stpid", "1127"); ("vid", "4012")]
                  eq_refl)).
Defined.

Lemma predictions_key_determines_request_witness :
  exists o1 o2,
    predictionsOptions [("stpid", "1836"); ("rt", "22")] = Some o1
    /\ predictionsOptions [("rt", "22"); ("stopId", "1836"); ("top", "")] = Some o2
    /\ colonFreeQuery [("stpid", "1836"); ("rt", "22")] = true
    /\ opt_cacheKey o1 = opt_cacheKey o2
    /\ prepare id sampleConfig o1 = prepare id sampleConfig o2.
Proof.
  eexists. eexists.
  split; [reflexivity|]. split; [reflexivity|].
  split; [reflexivity|]. split; [reflexivity|].
  apply (predictions_key_determines_request id sampleConfig
           [("stpid", "1836"); ("rt", "22")]
           [("rt", "22"); ("stopId", "1836"); ("top", "")]);
    reflexivity.
Defined.

Lemma predictions_key_collision_witness :
  Str.truthy_opt (CTA_BUS_TRACKER_API_KEY sampleConfig) = true
  /\ Str.truthy "1836" = true
  /\ exists o1 o2 p1 p2,
       predictionsOptions [("stpid", "1836"); ("rt", "22:9")] = Some o1
       /\ predictionsOptions [("stpid", "1836:22"); ("rt", "9")] = Some o2
       /\ prepare id sampleConfig o1 = inr p1
       /\ prepare id sampleConfig o2 = inr p2
       /\ pr_cacheKey p1 = pr_cacheKey p2
       /\ pr_cacheTtlMs p1 = 15000
       /\ pr_cacheTtlMs p2 = 15000
       /\ Obj.get "stpid" (pr_normalizedParams p1) = Some "1836"
       /\ Obj.get "stpid" (pr_normalizedParams p2) = Some "1836:22"
       /\ "1836" <> "1836:22"
       /\ (forall st now st' r,
             callBusApi id (fun _ => "q") sampleConfig st o1 now
               = (st', Returned r) ->
             callBusApi id (fun _ => "q") sampleConfig st o2 now
               = (st', Returned r)).
Proof.
  split; [reflexivity|]. split; [reflexivity|].
  exact (predictions_key_collision id (fun _ => "q") sampleConfig
           "1836" "22" "9" eq_refl eq_refl).
Defined.

Lemma vehicles_route_call_witness :
  Str.truthy_opt (CTA_BUS_TRACKER_API_KEY sampleConfig) = true
  /\ match vehiclesOptions [("rt", "22"); ("vid", "")] with
     | None => False
     | Some options =>
         exists p,
           prepare id sampleConfig options = inr p
           /\ pr_cacheKey p = "bus:getvehicles:22:"
           /\ pr_cacheTtlMs p = 15000
           /\ Obj.get "rt" (pr_normalizedParams p) = Some "22"
           /\ Obj.get "vid" (pr_normalizedParams p) = None
           /\ (is_Some (Obj.get "rt" (pr_normalizedParams p))
               \/ is_Some (Obj.get "vid" (pr_normalizedParams p)))
     end.
Proof.
  split; [reflexivity|].
  exact (vehicles_route_call id sampleConfig [("rt", "22"); ("vid", "")]
           eq_refl).
Defined.

Lemma vehicles_key_determines_request_witness :
  exists o1 o2,
    vehiclesOptions [("rt", "22")] = Some o1
    /\ vehiclesOptions [("vid", ""); ("rt", "22"); ("rt", "9")] = Some o2
    /\ opt_cacheKey o1 = opt_cacheKey o2
    /\ prepare id sampleConfig o1 = prepare id sampleConfig o2.
Proof.
  eexists. eexists.
  split; [reflexivity|]. split; [reflexivity|]. split; [reflexivity|].
  apply (vehicles_key_determines_request id sampleConfig
           [("rt", "22")] [("vid", ""); ("rt", "22"); ("rt", "9")]);
    reflexivity.
Defined.

Lemma patterns_route_call_witness :
  Str.truthy_opt (CTA_BUS_TRACKER_API_KEY sampleConfig) = true
  /\ match patternsOptions [("pid", "954")] with
     | None => False
     | Some options =>
         exists p,
           prepare id sampleConfig options = inr p
           /\ pr_cacheKey p = "bus:getpatterns::954"
           /\ pr_cacheTtlMs p = 14400000
           /\ Obj.get "rt" (pr_normalizedParams p) = None
           /\ Obj.get "pid" (pr_normalizedParams p) = Some "954"
           /\ (is_Some (Obj.get "rt" (pr_normalizedParams p))
               \/ is_Some (Obj.get "pid" (pr_normalizedParams p)))
     end.
Proof.
  split; [reflexivity|].
  exact (patterns_route_call id sampleConfig [("pid", "954")] eq_refl).
Defined.

Lemma patterns_key_determines_request_witness :
  exists o1 o2,
    patternsOptions [("pid", "954")] = Some o1
    /\ patternsOptions [("rt", ""); ("pid", "954")] = Some o2
    /\ opt_cacheKey o1 = opt_cacheKey o2
    /\ prepare id sampleConfig o1 = prepare id sampleConfig o2.
Proof.
  eexists. eexists.
  split; [reflexivity|]. split; [reflexivity|]. split; [reflexivity|].
  apply (patterns_key_determines_request id sampleConfig
           [("pid", "954")] [("rt", ""); ("pid", "954")]);
    reflexivity.
Defined.

(** ** The metadata of the envelopes *)

Lemma normalizeStep_absent params (m : gmap string string) k :
  Obj.get k params = None -> foldl normalizeStep m params !! k = m !! k.
Proof.
  revert m. induction params as [|[k0 v0] params IH]; intros m; simpl; [done|].
  destruct (decide (k = k0)) as [->|Hne]; [done|]. intros Hk.
  rewrite (IH _ Hk). unfold normalizeStep; simpl.
  destruct (isBlank v0); [done|]. by rewrite lookup_insert_ne.
Qed.

Lemma normalizeParams_absent params k :
  Obj.get k params = None -> Obj.get k (normalizeParams params) = None.
Proof.
  intros Hk. rewrite Obj_get_lookup. unfold normalizeParams.
  rewrite normalizeParams_fold, (normalizeStep_absent _ _ _ Hk). simpl.
  apply lookup_empty.
Qed.

Lemma asParamValues_get k params :
  Obj.get k (asParamValues params) = PStr <$> Obj.get k params.
Proof.
  induction params as [|[k0 v0] params IH]; csimpl; [done|].
  by destruct (decide (k = k0)).
Qed.

Lemma normalizeParams_strings_fold acc params :
  NoDup (acc.*1 ++ params.*1)%list ->
  Forall (fun kv => nonEmptyString kv.2 = true) params ->
  foldl (fun normalized kv =>
           if isBlank kv.2 then normalized
           else Obj.set kv.1 (stringOf kv.2) normalized) acc params
  = (acc ++ ((fun kv => (kv.1, stringOf kv.2)) <$> params))%list.
Proof.
  revert acc. induction params as [|[k v] params IH]; intros acc Hnd Hall; csimpl.
  - by rewrite app_nil_r.
  - apply Forall_cons in Hall as [Hv Hall].
    assert (k ∉ acc.*1) as Hk.
    { apply NoDup_app in Hnd as (_ & Hdis & _). intros Hin.
      apply (Hdis k Hin), elem_of_cons. by left. }
    assert (NoDup ((acc ++ [(k, stringOf v)])%list.*1 ++ params.*1)%list) as Hnd'.
    { rewrite fmap_app. csimpl. by rewrite <- app_assoc. }
    destruct v as [str| | |]; try done. simpl in Hv. simpl. rewrite Hv. simpl.
    rewrite Obj_set_fresh by done. rewrite IH by done.
    by rewrite <- app_assoc.
Qed.

Lemma normalizeParams_strings params :
  NoDup params.*1 ->
  Forall (fun kv => nonEmptyString kv.2 = true) params ->
  asParamValues (normalizeParams params) = params.
Proof.
  intros Hnd Hall. unfold normalizeParams.
  rewrite normalizeParams_strings_fold by done. csimpl. clear Hnd.
  unfold asParamValues.
  induction Hall as [|[k v] rest Hv _ IH]; csimpl; [done|].
  f_equal; [|exact IH]. by destruct v.
Qed.

Lemma sanitizeParams_strings params :
  NoDup params.*1 ->
  Forall (fun kv => nonEmptyString kv.2 = true) params ->
  sanitizeParams params = params.
Proof.
  intros Hnd Hall. unfold sanitizeParams.
  rewrite sanitizeParams_fold by done. csimpl. clear Hnd.
  induction Hall as [|[k v] rest Hv _ IH]; [done|].
  rewrite filter_cons_True by (by destruct v). by rewrite IH.
Qed.

Section Envelopes.

Variable encodeURIComponent : string -> string.
Variable Date : Type.
Variable parseCtaDate : string -> option Date.
Variable toISOString : Date -> string.
Variable isoOfMillis : Z -> string.

Local Abbreviation prep := (prepare encodeURIComponent).
Local Abbreviation process := (processResponse Date parseCtaDate toISOString).
Local Abbreviation mapError := (mapBusApiError isoOfMillis).
Local Abbreviation buildMeta := (buildBusApiMeta isoOfMillis).
Local Abbreviation baseMeta := (createBaseMeta isoOfMillis).

Lemma prepare_fields cfg options p :
  prep cfg options = inr p ->
  pr_endpoint p = opt_endpoint options
  /\ pr_normalizedParams p
       = withDefaults cfg (normalizeParams (default [] (opt_params options))).
Proof.
  unfold prepare. destruct (ensureApiKey cfg); [done|].
  destruct (checkRequired _ _ _); [done|]. by intros [= <-].
Qed.

(** X24. The metadata a handler sends with a fetched result, built by
    [buildBusApiMeta] with the override [{status: 200}]: it names the
    request's endpoint and cache key, reports [servedFromCache] as false
    and the handler's clock as [queriedAt], and lists as [paramsUsed] the
    normalized parameters of the request, among which the credential is
    not found unless the caller itself passed a parameter ["key"]. *)
Theorem success_meta_of_request cfg options p response now1 now2 r now :
  prep cfg options = inr p ->
  Obj.get "key" (default [] (opt_params options)) = None ->
  (process p response now1 now2).1 = Fulfilled r ->
  let m := buildMeta r (statusOnly 200) now in
  am_status m = Some 200
  /\ am_cacheKey m = Some (pr_cacheKey p)
  /\ am_ctaEndpoint m = opt_endpoint options
  /\ am_servedFromCache m = Some false
  /\ am_queriedAt m = isoOfMillis now
  /\ am_paramsUsed m = asParamValues (pr_normalizedParams p)
  /\ Obj.get "key" (am_paramsUsed m) = None.
Proof.
  intros Hp Hk Hr.
  apply processResponse_meta in Hr as (Hck & Hps & Hep & Hsc).
  apply prepare_fields in Hp as [Hendpoint Hparams].
  unfold buildBusApiMeta, statusOnly.
  cbn [am_status am_cacheKey am_ctaEndpoint am_servedFromCache am_queriedAt
       am_paramsUsed ov_status ov_cacheKey ov_ctaEndpoint ov_servedFromCache
       ov_queriedAt ov_paramsUsed nullish default from_option id].
  rewrite Hck, Hps, Hep, Hsc.
  split_and!; try done.
  rewrite asParamValues_get, Hparams, withDefaults_get.
  rewrite (normalizeParams_absent _ _ Hk). reflexivity.
Qed.

(** X25. The two builders of error metadata agree where the handlers use
    them: for a thrown value that is not a [BusClientError], a context that
    gives a status, a TTL that is not negative, and parameters that are all
    non-empty strings, the metadata of [mapBusApiError]'s envelope is the
    one [createBaseMeta] builds from the same context. *)
Theorem error_meta_is_base_meta error context now :
  (forall e, error <> UClient e) ->
  is_Some (ctx_status context) ->
  0 <= default 0 (ctx_cacheTtlMs context) ->
  NoDup (ctx_params context).*1 ->
  Forall (fun kv => nonEmptyString kv.2 = true) (ctx_params context) ->
  env_meta (mapError error context now) = baseMeta context now.
Proof.
  intros Hclient [status Hstatus] Httl Hnd Hall.
  assert (env_meta (mapError error context now)
          = env_meta (mapError UOther context now)) as ->.
  { destruct error as [e| |]; [by destruct (Hclient e)|done..]. }
  unfold mapBusApiError, createBaseMeta. cbn [env_meta].
  rewrite (sanitizeParams_strings _ Hnd Hall),
    (normalizeParams_strings _ Hnd Hall), Hstatus.
  cbn [default from_option id].
  f_equal.
  destruct (ctx_cacheTtlMs context) as [ttl|]; [|done].
  cbn [default from_option id] in Httl.
  destruct (ttl =? 0) eqn:Hz; [done|]. cbn [negb andb].
  apply Z.eqb_neq in Hz.
  by rewrite (proj2 (Z.ltb_lt 0 ttl)) by lia.
Qed.

End Envelopes.

Lemma success_meta_of_request_witness :
  prepare id sampleConfig (sampleOptions 30000) = inr (samplePrepared 30000)
  /\ let m := buildBusApiMeta sampleIsoOfMillis sampleResult (statusOnly 200) 9000 in
     am_status m = Some 200
     /\ am_cacheKey m = Some "bus:getpredictions:1836"
     /\ am_ctaEndpoint m = "getpredictions"
     /\ am_servedFromCache m = Some false
     /\ am_queriedAt m = "9000"
     /\ am_paramsUsed m
          = [("stpid", PStr "1836"); ("rtpidatafeed", PStr "ctabus");
             ("format", PStr "json")]
     /\ Obj.get "key" (am_paramsUsed m) = None.
Proof.
  split; [reflexivity|].
  exact (success_meta_of_request id sampleDate sampleParse sampleIso
           sampleIsoOfMillis sampleConfig (sampleOptions 30000)
           (samplePrepared 30000) dataResponse 2000 2000 sampleResult 9000
           eq_refl eq_refl eq_refl).
Defined.

Lemma error_meta_is_base_meta_witness :
  env_meta (mapBusApiError sampleIsoOfMillis UOther
              (mkContext "getpredictions" [("stpid", PStr "1836")]
                 (Some "bus:getpredictions:1836") (Some 15000) None None None
                 (Some 400)) 3000)
  = createBaseMeta sampleIsoOfMillis
      (mkContext "getpredictions" [("stpid", PStr "1836")]
         (Some "bus:getpredictions:1836") (Some 15000) None None None
         (Some 400)) 3000.
Proof.
  apply (error_meta_is_base_meta sampleIsoOfMillis UOther).
  - discriminate.
  - by eexists.
  - simpl. lia.
  - apply (bool_decide_unpack (NoDup ["stpid"])). vm_compute. exact I.
  - repeat constructor.
Defined.
